(** * PhET-iO instrumentation layer (tandem): a shallow embedding

    The development follows the JavaScript sources of the tandem package:

    - [types/IOType.js], [types/StateSchema.js], [types/NumberIO.js],
      [types/StringIO.js], [types/ValueIO.js]      (module [IOTypes])
    - [Tandem.js]                                   (module [Tandem])
    - [PhetioDynamicElementContainer.js], [PhetioGroup.js],
      [PhetioCapsule.js]                            (module [Containers])
    - [phetioAPIValidation.js]                      (module [APIValidation])

    JavaScript values are an inductive type, numbers are IEEE binary64 floats,
    exceptions are an explicit [Throw] outcome, and the mutable objects of the
    sources are explicit states threaded through every method. *)

From Stdlib Require Import Floats ZArith DecimalNat DecimalString.
From stdpp Require Import base strings list gmap.

Set Warnings "-register-all".

(** ** Build and runtime switches

    [assert] is the global installed by assert.js (absent in production
    builds); [PHET_IO_ENABLED] and [VALIDATION] are the constants computed at
    the top of Tandem.js; the remaining fields are the preloads and sim
    properties the sources read through [window.phet]. *)
Record Env := mkEnv {
  assertEnabled : bool;
  PHET_IO_ENABLED : bool;
  VALIDATION : bool;
  createArchetypes : bool;          (* phet.preloads.phetio.createArchetypes *)
  isSettingPhetioState : bool;      (* phet.joist.sim.isSettingPhetioStateProperty.value *)
  allScreensCreated : bool;         (* phet.joist.sim.allScreensCreated *)
  isConstructionComplete : bool     (* phet.joist.sim.isConstructionCompleteProperty.value *)
}.

(** Debug build of the PhET-iO brand with validation, no archetypes, while the
    sim is being constructed. *)
Definition debugEnv : Env := mkEnv true true true false false true false.

(** Production build of the PhET-iO brand: assertions stripped. *)
Definition productionEnv : Env := mkEnv false true false false false true false.

(** ** Outcomes of a JavaScript call *)
Inductive error :=
| AssertionError (message : string)
| TypeError (message : string)
| OutOfFuel.   (* a loop outran the bound given to its model; no source call ends this way *)

Inductive result (A : Type) :=
| Ok (a : A)
| Throw (e : error).
Arguments Ok {A} a.
Arguments Throw {A} e.

Definition bindR {A B} (r : result A) (k : A -> result B) : result B :=
  match r with
  | Ok a => k a
  | Throw e => Throw e
  end.

Declare Scope js_scope.
Delimit Scope js_scope with js.
Notation "x <- r ;; k" := (bindR r (fun x => k))
  (at level 100, r at next level, right associativity) : js_scope.
Notation "r ;;; k" := (bindR r (fun _ => k))
  (at level 100, right associativity) : js_scope.
Open Scope js_scope.

(** Truthiness of a reference that is either an object or null/undefined. *)
Definition isSome {A} (o : option A) : bool :=
  match o with Some _ => true | None => false end.

Definition isOk {A} (r : result A) : bool :=
  match r with Ok _ => true | Throw _ => false end.

(** [assert && assert( cond, message )] *)
Definition jsAssert (env : Env) (cond : bool) (message : string) : result unit :=
  if assertEnabled env && negb cond then Throw (AssertionError message) else Ok tt.

(** ** Methods on mutable objects: state passing with exceptions

    A method returns its outcome together with the state it leaves behind; an
    exception keeps the mutations made before it was thrown. *)
Definition M (S A : Type) : Type := S -> result A * S.

Definition ret {S A} (a : A) : M S A := fun s => (Ok a, s).
Definition throw {S A} (e : error) : M S A := fun s => (Throw e, s).
Definition bindM {S A B} (m : M S A) (k : A -> M S B) : M S B :=
  fun s =>
    match m s with
    | (Ok a, s') => k a s'
    | (Throw e, s') => (Throw e, s')
    end.
Definition getState {S} : M S S := fun s => (Ok s, s).
Definition gets {S A} (f : S -> A) : M S A := fun s => (Ok (f s), s).
Definition modify {S} (f : S -> S) : M S unit := fun s => (Ok tt, f s).
Definition liftR {S A} (r : result A) : M S A := fun s => (r, s).
Definition assertM {S} (env : Env) (cond : bool) (message : string) : M S unit :=
  liftR (jsAssert env cond message).
Definition when {S} (cond : bool) (m : M S unit) : M S unit :=
  if cond then m else ret tt.

Declare Scope m_scope.
Delimit Scope m_scope with M.
Notation "x <- m ;; k" := (bindM m (fun x => k))
  (at level 100, m at next level, right associativity) : m_scope.
Notation "m ;;; k" := (bindM m (fun _ => k))
  (at level 100, right associativity) : m_scope.

(** Modelled from the spec: phet-core's [arrayRemove( array, toRemove )],
    which is not part of the sources at hand ("removing an absent element ...
    is a fatal precondition violation"). The first occurrence is spliced out;
    an absent element fails an assertion, and without assertions
    [splice( -1, 1 )] drops the last element. *)
Fixpoint removeFirst {A} (same : A -> bool) (l : list A) : list A :=
  match l with
  | [] => []
  | y :: rest => if same y then rest else y :: removeFirst same rest
  end.

Definition arrayRemoveBy {A} (same : A -> A -> bool) (env : Env) (array : list A) (toRemove : A)
  : result (list A) :=
  let found := existsb (same toRemove) array in
  jsAssert env found "item not found in Array" ;;;
  Ok (if found then removeFirst (same toRemove) array else removelast array).

(** Object references are addresses, compared by identity. *)
Definition arrayRemove (env : Env) (array : list nat) (toRemove : nat) : result (list nat) :=
  arrayRemoveBy Nat.eqb env array toRemove.

(** ** JavaScript values *)
Module JS.

Inductive value :=
| VUndefined
| VNull
| VBool (b : bool)
| VNum (x : float)
| VStr (s : string)
| VArr (items : list value)
| VObj (props : list (string * value)).

(** Decimal rendering of an array index or group index (String(i)). *)
Definition indexKey (i : nat) : string :=
  NilEmpty.string_of_uint (Nat.to_uint i).

Definition indexKeys (n : nat) : list string := map indexKey (seq 0 n).

Fixpoint assocGet {A} (k : string) (l : list (string * A)) : option A :=
  match l with
  | [] => None
  | (k', v) :: rest => if String.eqb k k' then Some v else assocGet k rest
  end.

Definition assocHas {A} (k : string) (l : list (string * A)) : bool :=
  match assocGet k l with Some _ => true | None => false end.

Definition includes (k : string) (keys : list string) : bool :=
  existsb (String.eqb k) keys.

(** Truthiness, as used by [if ( x )], [!x] and [x && y]. *)
Definition truthy (v : value) : bool :=
  match v with
  | VUndefined | VNull => false
  | VBool b => b
  | VNum x => negb (PrimFloat.eqb x 0%float || PrimFloat.is_nan x)
  | VStr s => negb (String.eqb s "")
  | VArr _ | VObj _ => true
  end.

Definition isString (v : value) : bool :=
  match v with VStr _ => true | _ => false end.

Definition isArray (v : value) : bool :=
  match v with VArr _ => true | _ => false end.

Definition isNumber (v : value) : bool :=
  match v with VNum _ => true | _ => false end.

(** [Object.keys( v )] for a value that is neither null nor undefined. *)
Definition objectKeys (v : value) : result (list string) :=
  match v with
  | VUndefined | VNull => Throw (TypeError "Cannot convert undefined or null to object")
  | VBool _ | VNum _ => Ok []
  | VStr s => Ok (indexKeys (String.length s))
  | VArr items => Ok (indexKeys (length items))
  | VObj props => Ok (map fst props)
  end.

(** [v.hasOwnProperty( key )]. The method is looked up on the value like any
    other property: an object that has an own property named "hasOwnProperty"
    (a state object is parsed JSON, so its value is never a function) shadows
    the method of Object.prototype, and the call is a TypeError. *)
Definition hasOwnProperty (v : value) (key : string) : result bool :=
  match v with
  | VUndefined | VNull => Throw (TypeError "Cannot read properties of undefined or null")
  | VBool _ | VNum _ => Ok false
  | VStr s => Ok (String.eqb key "length" || includes key (indexKeys (String.length s)))
  | VArr items => Ok (String.eqb key "length" || includes key (indexKeys (length items)))
  | VObj props =>
      if assocHas "hasOwnProperty" props
      then Throw (TypeError "hasOwnProperty is not a function")
      else Ok (assocHas key props)
  end.

Fixpoint lookupIndexed {A} (key : string) (i : nat) (items : list A) : option A :=
  match items with
  | [] => None
  | x :: rest => if String.eqb key (indexKey i) then Some x else lookupIndexed key (S i) rest
  end.

(** The number n as a double (exact below 2^53). *)
Fixpoint natToNumber (n : nat) : float :=
  match n with
  | O => 0%float
  | S k => (natToNumber k + 1)%float
  end.

Definition chars (s : string) : list value :=
  map (fun c => VStr (String c EmptyString)) (String.list_ascii_of_string s).

(** [v[ key ]]; properties inherited from the built-in prototypes are not
    part of the model and read as undefined. *)
Definition getProp (v : value) (key : string) : result value :=
  match v with
  | VUndefined | VNull => Throw (TypeError "Cannot read properties of undefined or null")
  | VBool _ | VNum _ => Ok VUndefined
  | VStr s =>
      if String.eqb key "length" then Ok (VNum (natToNumber (String.length s)))
      else Ok (default VUndefined (lookupIndexed key 0 (chars s)))
  | VArr items =>
      if String.eqb key "length" then Ok (VNum (natToNumber (length items)))
      else Ok (default VUndefined (lookupIndexed key 0 items))
  | VObj props => Ok (default VUndefined (assocGet key props))
  end.

(** [a === b]. Objects and arrays compare by reference; the two operands
    modelled here never alias (they come from different documents), so two
    reference values are never strictly equal. *)
Definition strictEq (a b : value) : bool :=
  match a, b with
  | VUndefined, VUndefined => true
  | VNull, VNull => true
  | VBool x, VBool y => Bool.eqb x y
  | VNum x, VNum y => PrimFloat.eqb x y
  | VStr x, VStr y => String.eqb x y
  | _, _ => false
  end.

End JS.
Import JS.

(** ** IO Types and state schemas (types/IOType.js, types/StateSchema.js) *)
Module IOTypes.

(** A validator (axon's ValidatorDef) is kept as the predicate computed by
    [ValidatorDef.isValueValid( value, validator )]. *)
Definition Validator := value -> bool.

(** Modelled from the spec: axon's [validate( value, validator, message )],
    which is not part of the sources at hand. It throws when assertions are
    enabled and the value is rejected, and does nothing otherwise (the
    structural checks are "caught in development/test builds via assertions"). *)
Definition validate (env : Env) (v : value) (validator : Validator) (message : string)
  : result unit :=
  jsAssert env (validator v) message.

(** StateSchema: either a "value" (a display string and a validator) or a
    "composite" (keys mapped to IOTypes, with an optional [_private] bucket). *)
Inductive StateSchemaOf (T : Type) :=
| ValueSchema (displayString : string) (validator : Validator)
| CompositeSchema (publicLevel : list (string * T)) (privateLevel : option (list (string * T))).
Arguments ValueSchema {T} displayString validator.
Arguments CompositeSchema {T} publicLevel privateLevel.

(** The fields of an IOType instance that serialization and validation read.
    [ownToStateObject] and [ownFromStateObject] are the functions given in the
    config ([None] when the config leaves them to the supertype), so that
    [toStateObjectSupplied] is [isSome ownToStateObject] and
    [stateSchemaSupplied] is [isSome stateSchema]. *)
Inductive IOType := mkIOType {
  typeName : string;
  supertype : option IOType;
  validator : Validator;
  stateSchema : option (StateSchemaOf IOType);
  ownToStateObject : option (Env -> value -> result value);
  ownFromStateObject : option (value -> value)
}.

Abbreviation StateSchema := (StateSchemaOf IOType).

(** [StateSchema.isComposite] *)
Definition isComposite (schema : StateSchema) : bool :=
  match schema with
  | CompositeSchema _ _ => true
  | ValueSchema _ _ => false
  end.

Definition hasCompositeSchema (t : IOType) : bool :=
  match stateSchema t with
  | Some schema => isComposite schema
  | None => false
  end.

(** The [check] closure of [IOType.isStateObjectValid], run over a list of
    keys of the state object. *)
Fixpoint checkKeys (env : Env) (toAssert : bool) (schemaKeys : list string)
    (keys : list string) (valid : bool) : result bool :=
  match keys with
  | [] => Ok valid
  | key :: rest =>
      let keyValid := includes key schemaKeys in
      jsAssert env (negb toAssert || keyValid)
        "stateObject provided a key that is not in the schema" ;;;
      checkKeys env toAssert schemaKeys rest (valid && keyValid)
  end.

(** The closed-world check done once the root of the hierarchy is reached. *)
Definition rootCheck (env : Env) (stateObject : value) (toAssert : bool)
    (publicSchemaKeys privateSchemaKeys : list string) : result bool :=
  keys <- objectKeys stateObject ;;
  valid <- checkKeys env toAssert publicSchemaKeys
             (filter (fun key => negb (String.eqb key "_private")) keys) true ;;
  privateObject <- getProp stateObject "_private" ;;
  if truthy privateObject then
    privateKeys <- objectKeys privateObject ;;
    checkKeys env toAssert privateSchemaKeys privateKeys valid
  else Ok valid.

(** [IOType.isStateObjectValid], with [StateSchema.checkStateObjectValid] and
    its [checkLevel] closure inlined. The two key arrays are passed by
    reference in the source and filled along the way; here they are threaded.
    [validateStateObject( x )] is [isStateObjectValid( x, true )] with its
    result dropped. *)
Fixpoint isStateObjectValid (env : Env) (t : IOType) (stateObject : value)
    (toAssert : bool) (publicSchemaKeys privateSchemaKeys : list string)
    {struct t} : result bool :=
  let checkLevel :=
    fix checkLevel (schemaLevel : list (string * IOType)) (objectLevel : value)
        (exclude : option string) (valid : option bool) (keyList : list string)
        {struct schemaLevel} : result (option bool * list string) :=
      match schemaLevel with
      | [] => Ok (valid, keyList)
      | (key, fieldType) :: rest =>
          if match exclude with Some k => String.eqb key k | None => false end
          then checkLevel rest objectLevel exclude valid keyList
          else
            validKey <- hasOwnProperty objectLevel key ;;
            jsAssert env (negb toAssert || validKey)
              "key in state schema but not in the state object" ;;;
            fieldValue <- getProp objectLevel key ;;
            isStateObjectValid env fieldType fieldValue true [] [] ;;;
            checkLevel rest objectLevel exclude
              (if validKey then valid else Some false) (keyList ++ [key])
      end in
  match t with
  | mkIOType _ supertype _ stateSchema _ _ =>
      checked <-
        match stateSchema with
        | Some (CompositeSchema publicLevel privateLevel) =>
            level1 <- checkLevel publicLevel stateObject (Some "_private") None publicSchemaKeys ;;
            match privateLevel with
            | Some privateSchema =>
                privateObject <- getProp stateObject "_private" ;;
                level2 <- checkLevel privateSchema privateObject None (fst level1) privateSchemaKeys ;;
                Ok (fst level2, snd level1, snd level2)
            | None => Ok (fst level1, snd level1, privateSchemaKeys)
            end
        | Some (ValueSchema _ valueValidator) =>
            (if toAssert
             then validate env stateObject valueValidator "validation failed"
             else Ok tt) ;;;
            Ok (Some (valueValidator stateObject), publicSchemaKeys, privateSchemaKeys)
        | None => Ok (None, publicSchemaKeys, privateSchemaKeys)
        end ;;
      match checked with
      | (Some validSoFar, _, _) => Ok validSoFar
      | (None, publicKeys, privateKeys) =>
          let composite :=
            match stateSchema with
            | Some (CompositeSchema _ _) => true
            | _ => false
            end in
          match supertype with
          | Some super =>
              if negb composite
              then isStateObjectValid env super stateObject toAssert publicKeys privateKeys
              else Ok true
          | None =>
              if truthy stateObject && negb (isString stateObject) && negb (isArray stateObject)
              then rootCheck env stateObject toAssert publicKeys privateKeys
              else Ok true
          end
      end
  end.

(** [IOType.validateStateObject] *)
Definition validateStateObject (env : Env) (t : IOType) (stateObject : value) : result unit :=
  isStateObjectValid env t stateObject true [] [] ;;; Ok tt.

(** The [toStateObject] installed on the instance by the constructor, which
    wraps the function of the config (or the supertype's wrapped function, or
    the default serialization derived from a composite schema) between the
    validation of the core object and of the produced state object. The local
    function is one level of [StateSchema.defaultToStateObject]; the
    [_private] bucket is written after the public keys. *)
Fixpoint toStateObject (env : Env) (t : IOType) (coreObject : value) {struct t}
  : result value :=
  let toStateObjectForSchemaLevel :=
    fix level (schemaLevel : list (string * IOType)) {struct schemaLevel}
      : result (list (string * value)) :=
      match schemaLevel with
      | [] => Ok []
      | (stateKey, fieldType) :: rest =>
          (if assertEnabled env
           then has <- hasOwnProperty coreObject stateKey ;;
                jsAssert env has
                  "cannot get state because coreObject does not have expected schema key"
           else Ok tt) ;;;
          fieldValue <- getProp coreObject stateKey ;;
          fieldState <- toStateObject env fieldType fieldValue ;;
          others <- level rest ;;
          Ok ((stateKey, fieldState) :: others)
      end in
  match t with
  | mkIOType _ supertype validator stateSchema ownTo _ =>
      validate env coreObject validator "unexpected parameter to toStateObject" ;;;
      stateObject <-
        match ownTo, stateSchema with
        | None, Some (CompositeSchema publicLevel privateLevel) =>
            publicState <- toStateObjectForSchemaLevel publicLevel ;;
            match privateLevel with
            | Some privateSchema =>
                privateState <- toStateObjectForSchemaLevel privateSchema ;;
                Ok (VObj (publicState ++ [("_private", VObj privateState)]))
            | None => Ok (VObj publicState)
            end
        | Some configToStateObject, _ => configToStateObject env coreObject
        | None, _ =>
            match supertype with
            | Some super => toStateObject env super coreObject
            | None => Throw (TypeError "config.toStateObject is not a function")
            end
        end ;;
      (if (isSome ownTo || isSome stateSchema) && assertEnabled env
       then isStateObjectValid env t stateObject true [] [] ;;; Ok tt
       else Ok tt) ;;;
      Ok stateObject
  end.

(** [this.fromStateObject = config.fromStateObject], where the config
    defaults to the supertype's function. *)
Fixpoint fromStateObject (t : IOType) (stateObject : value) {struct t} : result value :=
  match t with
  | mkIOType _ supertype _ _ _ ownFrom =>
      match ownFrom, supertype with
      | Some configFromStateObject, _ => Ok (configFromStateObject stateObject)
      | None, Some super => fromStateObject super stateObject
      | None, None => Throw (TypeError "fromStateObject is not a function")
      end
  end.

(** *** The root of the hierarchy (bottom of IOType.js)

    The arguments of the assertion in [toStateObject] are evaluated before it
    is called: the condition reads [coreObject.phetioState], and the message
    is a template that reads [coreObject.tandem.phetioID], which is a
    TypeError for a core object without [tandem]. Without assertions neither
    is evaluated. *)
Definition ObjectIO : IOType := {|
  typeName := "ObjectIO";
  supertype := None;
  validator := fun _ => true;
  stateSchema := None;
  ownToStateObject := Some (fun env coreObject =>
    (if assertEnabled env
     then phetioState <- getProp coreObject "phetioState" ;;
          tandem <- getProp coreObject "tandem" ;;
          getProp tandem "phetioID" ;;;
          jsAssert env (negb (truthy phetioState)) "fell back to root serialization state"
     else Ok tt) ;;;
    Ok VNull);
  ownFromStateObject := Some (fun _ => VNull)
|}.

(** *** The constructor

    The config as the constructor reads it for the modelled fields. Every
    type built by the constructor gets a supertype: [config.supertype ||
    ObjectIO]; only ObjectIO itself, built while the module-level variable is
    still null, is a root. The assertions on the type name, documentation,
    methods and events do not touch these fields and are left out. *)
Record Config := mkConfig {
  configSupertype : option IOType;
  configValidator : Validator;
  configStateSchema : option StateSchema;
  configToStateObject : option (Env -> value -> result value);
  configFromStateObject : option (value -> value)
}.

Definition newIOType (ioTypeName : string) (config : Config) : IOType := {|
  typeName := ioTypeName;
  supertype := Some (default ObjectIO (configSupertype config));
  validator := configValidator config;
  stateSchema := configStateSchema config;
  ownToStateObject := configToStateObject config;
  ownFromStateObject := configFromStateObject config
|}.

(** [StateSchema.asValue] *)
Definition asValue (displayString : string) (v : Validator) : StateSchema :=
  ValueSchema displayString v.

(** [{ valueType: 'number' }] and [{ valueType: 'string' }] *)
Definition valueTypeNumber : Validator := isNumber.
Definition valueTypeString : Validator := isString.

(** *** types/ValueIO.js *)
Definition ValueIO : IOType :=
  newIOType "ValueIO" {|
    configSupertype := Some ObjectIO;
    configValidator := fun _ => true;
    configStateSchema := Some (asValue "*" (fun _ => true));
    configToStateObject := Some (fun _ coreObject => Ok coreObject);
    configFromStateObject := Some (fun stateObject => stateObject)
  |}.

(** *** types/StringIO.js *)
Definition StringIO : IOType :=
  newIOType "StringIO" {|
    configSupertype := Some ValueIO;
    configValidator := valueTypeString;
    configStateSchema := Some (asValue "string" valueTypeString);
    configToStateObject := None;
    configFromStateObject := None
  |}.

(** *** types/NumberIO.js *)
Module NumberIO.

Definition toStateObject (v : value) : value :=
  if strictEq v (VNum infinity) then VStr "POSITIVE_INFINITY"
  else if strictEq v (VNum neg_infinity) then VStr "NEGATIVE_INFINITY"
  else v.

Definition fromStateObject (stateObject : value) : value :=
  if strictEq stateObject (VStr "POSITIVE_INFINITY") then VNum infinity
  else if strictEq stateObject (VStr "NEGATIVE_INFINITY") then VNum neg_infinity
  else stateObject.

Definition isValidValue (v : value) : bool :=
  strictEq v (VStr "POSITIVE_INFINITY") ||
  strictEq v (VStr "NEGATIVE_INFINITY") ||
  (isNumber v && negb (match v with VNum x => is_nan x | _ => false end)).

Definition stateSchema : StateSchema :=
  asValue "'POSITIVE_INFINITY'|'NEGATIVE_INFINITY'|number" isValidValue.

Definition NumberIO : IOType :=
  newIOType "NumberIO" {|
    configSupertype := None;
    configValidator := valueTypeNumber;
    configStateSchema := Some stateSchema;
    configToStateObject := Some (fun _ v => Ok (toStateObject v));
    configFromStateObject := Some fromStateObject
  |}.

End NumberIO.

End IOTypes.

(** ** The naming tree and the registration buffer (Tandem.js) *)
Module Tandem.
Local Open Scope m_scope.

(** The classes of Tandem.js and DynamicTandem.js that differ in behaviour. *)
Inductive TandemClass := PlainTandem | RootTandem | DynamicTandem.

(** A Tandem instance. Instances live in a heap and are referred to by their
    address, so that "the same node" is the same address; [children] is the
    own-property map of the source. *)
Record TandemNode := mkTandem {
  tandemClass : TandemClass;
  parentTandem : option nat;
  name : string;
  phetioID : string;
  children : gmap string nat;
  required : bool;
  supplied : bool;
  isDisposed : bool
}.

(** An options object: a key that is absent is [None]. *)
Record Options := mkOptions {
  optRequired : option bool;
  optSupplied : option bool
}.

Definition noOptions : Options := mkOptions None None.

(** A PhetioObject, as far as the registry reads it: its identity and its
    [tandem] field. *)
Record PhetioObject := mkPhetioObject {
  objectId : nat;
  tandem : nat
}.

(** What a listener of [phetioObjectListeners] was called with. *)
Inductive Delivery :=
| AddPhetioObject (listener : nat) (phetioObject : PhetioObject)
| RemovePhetioObject (listener : nat) (phetioObject : PhetioObject).

(** The module-level state of Tandem.js together with the heap of nodes.
    [delivered] records the calls made on the listeners, oldest first. *)
Record State := mkState {
  heap : list TandemNode;
  launched : bool;
  bufferedPhetioObjects : list PhetioObject;
  phetioObjectListeners : list nat;
  delivered : list Delivery
}.

Definition setHeap (h : list TandemNode) (s : State) : State :=
  mkState h (launched s) (bufferedPhetioObjects s) (phetioObjectListeners s) (delivered s).
Definition setLaunched (b : bool) (s : State) : State :=
  mkState (heap s) b (bufferedPhetioObjects s) (phetioObjectListeners s) (delivered s).
Definition setBuffered (l : list PhetioObject) (s : State) : State :=
  mkState (heap s) (launched s) l (phetioObjectListeners s) (delivered s).
Definition setListeners (l : list nat) (s : State) : State :=
  mkState (heap s) (launched s) (bufferedPhetioObjects s) l (delivered s).
Definition addDelivered (l : list Delivery) (s : State) : State :=
  mkState (heap s) (launched s) (bufferedPhetioObjects s) (phetioObjectListeners s)
    (delivered s ++ l).

Definition getNode (t : nat) : M State TandemNode :=
  fun s =>
    match heap s !! t with
    | Some node => (Ok node, s)
    | None => (Throw (TypeError "not a Tandem"), s)
    end.

Definition updateNode (t : nat) (f : TandemNode -> TandemNode) : M State unit :=
  modify (fun s => setHeap (alter f t (heap s)) s).

Definition setChildren (c : gmap string nat) (n : TandemNode) : TandemNode :=
  mkTandem (tandemClass n) (parentTandem n) (name n) (phetioID n) c
    (required n) (supplied n) (isDisposed n).
Definition setDisposed (n : TandemNode) : TandemNode :=
  mkTandem (tandemClass n) (parentTandem n) (name n) (phetioID n) (children n)
    (required n) (supplied n) true.

(** *** Names *)
Definition isAlphaNumeric (c : Ascii.ascii) : bool :=
  let n := Ascii.nat_of_ascii c in
  ((48 <=? n) && (n <=? 57)) || ((65 <=? n) && (n <=? 90)) || ((97 <=? n) && (n <=? 122)).

(** [/^[a-zA-Z0-9[\],]+$/] for Tandem, [/^[a-zA-Z0-9_]+$/] for DynamicTandem *)
Definition termChar (cls : TandemClass) (c : Ascii.ascii) : bool :=
  let n := Ascii.nat_of_ascii c in
  match cls with
  | DynamicTandem => isAlphaNumeric c || (n =? 95)
  | _ => isAlphaNumeric c || (n =? 91) || (n =? 93) || (n =? 44)
  end.

Definition termRegexTest (cls : TandemClass) (name : string) : bool :=
  let cs := String.list_ascii_of_string name in
  negb (Nat.eqb (length cs) 0) && forallb (termChar cls) cs.

Definition METADATA_KEY : string := "_metadata".
Definition REQUIRED_TANDEM_NAME : string := "requiredTandem".
Definition OPTIONAL_TANDEM_NAME : string := "optionalTandem".
Definition TEST_TANDEM_NAME : string := "test".

(** Modelled from the spec: [window.phetio.PhetioIDUtils], which is not part
    of the sources at hand: "a node's phetioID is always the parent's phetioID
    plus a separator plus its own name", the path being dotted, and the two
    component names the root allows besides the ones Tandem.js declares. *)
Definition SEPARATOR : string := ".".
Definition append (phetioID componentName : string) : string :=
  phetioID +:+ SEPARATOR +:+ componentName.
Definition GLOBAL_COMPONENT_NAME : string := "global".
Definition GENERAL_COMPONENT_NAME : string := "general".

Definition endsWith (s suffix : string) : bool :=
  let n := String.length s in
  let k := String.length suffix in
  (k <=? n) && String.eqb (String.substring (n - k) k s) suffix.

(** *** Children

    [children] is a plain object used as a map from names to child tandems,
    and two names are special on such an object. A child stored under
    "hasOwnProperty" shadows the method of Object.prototype, so that
    [this.children.hasOwnProperty( name )] calls a Tandem and is a TypeError.
    An assignment to "__proto__" runs the setter of Object.prototype: it
    replaces the prototype of [children] by the child (whose own chain still
    ends in Object.prototype) and adds no own property. *)
Definition hasOwnChild {A} (children : gmap string A) (childName : string) : result bool :=
  if isSome (children !! "hasOwnProperty")
  then Throw (TypeError "this.children.hasOwnProperty is not a function")
  else Ok (isSome (children !! childName)).

Definition setChild {A} (childName : string) (child : A) (children : gmap string A)
  : gmap string A :=
  if String.eqb childName "__proto__" then children else <[childName := child]> children.

(** [hasChild] *)
Definition hasChild (t : nat) (childName : string) : M State bool :=
  node <- getNode t ;;
  liftR (hasOwnChild (children node) childName).

(** [addChild] and [removeChild]: [hasChild] is an argument of the assertion,
    and is called only where assertions are enabled. *)
Definition addChild (env : Env) (t : nat) (childName : string) (child : nat) : M State unit :=
  when (assertEnabled env)
    (has <- hasChild t childName ;;
     assertM env (negb has) "child already present") ;;;
  updateNode t (fun n => setChildren (setChild childName child (children n)) n).

Definition removeChild (env : Env) (t : nat) (childName : string) : M State unit :=
  when (assertEnabled env)
    (has <- hasChild t childName ;;
     assertM env has "child not present") ;;;
  updateNode t (fun n => setChildren (delete childName (children n)) n).

(** [getExtendedOptions]: [merge( { supplied, required } of this, options )] *)
Definition getExtendedOptions (node : TandemNode) (options : Options) : Options :=
  mkOptions (Some (default (required node) (optRequired options)))
            (Some (default (supplied node) (optSupplied options))).

(** The constructor of Tandem (and of DynamicTandem, which first asserts that
    it has a parent). The new instance is allocated at the end of the heap. *)
Definition newTandem (env : Env) (cls : TandemClass) (parent : option nat) (name : string)
    (options : Options) : M State nat :=
  assertM env (match cls with DynamicTandem => isSome parent | _ => true end)
    "DynamicTandem must have a parentTandem" ;;;
  assertM env (termRegexTest cls name) "name should match the regex pattern" ;;;
  assertM env (negb (String.eqb name METADATA_KEY)) "name cannot match Tandem.METADATA_KEY" ;;;
  id <-
    match parent with
    | Some p => parentNode <- getNode p ;; ret (append (phetioID parentNode) name)
    | None => ret name
    end ;;
  self <- gets (fun s => length (heap s)) ;;
  modify (fun s => setHeap (heap s ++ [mkTandem cls parent name id ∅ true true false]) s) ;;;
  match parent with
  | Some p =>
      when (assertEnabled env)
        (has <- hasChild p name ;;
         assertM env (negb has) "parent should not have child") ;;;
      addChild env p name self
  | None => ret tt
  end ;;;
  updateNode self (fun n =>
    mkTandem (tandemClass n) (parentTandem n) (Tandem.name n) (phetioID n) (children n)
      (default true (optRequired options)) (default true (optSupplied options)) false) ;;;
  ret self.

(** [Tandem.createTandem] *)
Definition createTandemBase (env : Env) (t : nat) (name : string) (options : Options)
  : M State nat :=
  node <- getNode t ;;
  let options := getExtendedOptions node options in
  has <- hasChild t name ;;
  if has then
    match children node !! name with
    | Some currentChild =>
        child <- getNode currentChild ;;
        assertM env (bool_decide (Some (required child) = optRequired options))
          "currentChild.required === options.required" ;;;
        assertM env (bool_decide (Some (supplied child) = optSupplied options))
          "currentChild.supplied === options.supplied" ;;;
        ret currentChild
    | None => throw (TypeError "no such child")
    end
  else newTandem env PlainTandem (Some t) name options.

(** The names RootTandem accepts. *)
Definition allowedOnRoot (name : string) : bool :=
  String.eqb name GLOBAL_COMPONENT_NAME ||
  String.eqb name REQUIRED_TANDEM_NAME ||
  String.eqb name OPTIONAL_TANDEM_NAME ||
  String.eqb name TEST_TANDEM_NAME ||
  String.eqb name GENERAL_COMPONENT_NAME ||
  endsWith name "Screen".

(** [createTandem], dispatched on the class: RootTandem checks the name
    against its allow-list when validation is on, then defers to Tandem. *)
Definition createTandem (env : Env) (t : nat) (name : string) (options : Options)
  : M State nat :=
  node <- getNode t ;;
  match tandemClass node with
  | RootTandem =>
      when (VALIDATION env)
        (assertM env (allowedOnRoot name) "tandem name not allowed on root") ;;;
      createTandemBase env t name options
  | _ => createTandemBase env t name options
  end.

(** *** Registration of PhetioObjects *)

Definition notifyListeners (mk : nat -> Delivery) : M State unit :=
  modify (fun s => addDelivered (map mk (phetioObjectListeners s)) s).

(** [Tandem.addPhetioObject], called on the tandem [t] *)
Definition addPhetioObject (env : Env) (t : nat) (phetioObject : PhetioObject) : M State unit :=
  if PHET_IO_ENABLED env then
    node <- getNode t ;;
    when (VALIDATION env)
      (assertM env (negb (required node && negb (supplied node)))
         "Tandem was required but not supplied") ;;;
    if negb (required node) && negb (supplied node) then ret tt
    else
      isLaunched <- gets launched ;;
      if negb isLaunched
      then modify (fun s => setBuffered (bufferedPhetioObjects s ++ [phetioObject]) s)
      else notifyListeners (fun listener => AddPhetioObject listener phetioObject)
  else ret tt.

(** [Tandem.dispose] *)
Definition dispose (env : Env) (t : nat) : M State unit :=
  node <- getNode t ;;
  assertM env (negb (isDisposed node)) "already disposed" ;;;
  match parentTandem node with
  | Some p => removeChild env p (name node)
  | None => throw (TypeError "Cannot read properties of null")
  end ;;;
  updateNode t setDisposed.

Definition sameObject (a b : PhetioObject) : bool :=
  Nat.eqb (objectId a) (objectId b).

(** [Tandem.removePhetioObject], called on the tandem [t] *)
Definition removePhetioObject (env : Env) (t : nat) (phetioObject : PhetioObject)
  : M State unit :=
  node <- getNode t ;;
  if negb (required node) && negb (supplied node) then ret tt
  else
    when (PHET_IO_ENABLED env)
      (isLaunched <- gets launched ;;
       if negb isLaunched then
         buffered <- gets bufferedPhetioObjects ;;
         assertM env (existsb (sameObject phetioObject) buffered) "should contain item" ;;;
         remaining <- liftR (arrayRemoveBy sameObject env buffered phetioObject) ;;
         modify (setBuffered remaining)
       else notifyListeners (fun listener => RemovePhetioObject listener phetioObject)) ;;;
    dispose env (tandem phetioObject).

(** [Tandem.addPhetioObjectListener] *)
Definition addPhetioObjectListener (listener : nat) : M State unit :=
  modify (fun s => setListeners (phetioObjectListeners s ++ [listener]) s).

(** The [while] loop of [Tandem.launch]: shift the first buffered object and
    register it through its own tandem, until the buffer is empty. *)
Fixpoint launchLoop (env : Env) (fuel : nat) : M State unit :=
  buffered <- gets bufferedPhetioObjects ;;
  match buffered with
  | [] => ret tt
  | phetioObject :: rest =>
      match fuel with
      | O => throw OutOfFuel
      | S fuel' =>
          modify (setBuffered rest) ;;;
          addPhetioObject env (tandem phetioObject) phetioObject ;;;
          launchLoop env fuel'
      end
  end.

(** [Tandem.launch] *)
Definition launch (env : Env) : M State unit :=
  isLaunched <- gets launched ;;
  assertM env (negb isLaunched) "Tandem cannot be launched twice" ;;;
  modify (setLaunched true) ;;;
  pending <- gets (fun s => length (bufferedPhetioObjects s)) ;;
  launchLoop env pending ;;;
  remaining <- gets (fun s => length (bufferedPhetioObjects s)) ;;
  assertM env (Nat.eqb remaining 0) "bufferedPhetioObjects should be empty".

(** [Tandem.unlaunch] (tests only) *)
Definition unlaunch : M State unit :=
  modify (setLaunched false) ;;;
  modify (setBuffered []).

(** A fresh module state: nothing launched, buffered or listening, and a heap
    holding one root node. *)
Definition rootNode (cls : TandemClass) (name : string) : TandemNode :=
  mkTandem cls None name name ∅ true true false.

Definition initialState (cls : TandemClass) (rootName : string) : State :=
  mkState [rootNode cls rootName] false [] [] [].

(** *** Scenarios *)

(** Registering a list of objects, each through its own tandem, oldest first. *)
Fixpoint registerAll (env : Env) (objs : list PhetioObject) : M State unit :=
  match objs with
  | [] => ret tt
  | o :: rest => addPhetioObject env (tandem o) o ;;; registerAll env rest
  end.

(** The object's tandem was supplied: the object is instrumented. *)
Definition instrumentedIn (h : list TandemNode) (o : PhetioObject) : Prop :=
  exists node, h !! tandem o = Some node /\ supplied node = true.

Definition deliveries (listeners : list nat) (o : PhetioObject) : list Delivery :=
  map (fun listener => AddPhetioObject listener o) listeners.

Definition fanOut (listeners : list nat) (objs : list PhetioObject) : list Delivery :=
  concat (map (deliveries listeners) objs).

(** A plain root node, and the flags of the name-collision scenario. *)
Definition rootState : State := initialState PlainTandem "root".
Definition requiredSupplied : Options := mkOptions (Some true) (Some true).
Definition optionalSupplied : Options := mkOptions (Some false) (Some true).

(** Two listeners, and four objects on the root tandem. *)
Definition listeningState : State :=
  snd ((addPhetioObjectListener 7 ;;; addPhetioObjectListener 8) rootState).
Definition threeObjects : list PhetioObject :=
  [mkPhetioObject 1 0; mkPhetioObject 2 0; mkPhetioObject 3 0].
Definition fourthObject : PhetioObject := mkPhetioObject 4 0.

End Tandem.

(** ** Dynamic element containers
    (PhetioDynamicElementContainer.js, PhetioGroup.js, PhetioCapsule.js) *)
Module Containers.
Local Open Scope m_scope.

(** The fields PhetioDynamicElementContainer declares on the instance.
    [instrumented] is [this.isPhetioInstrumented()]; elements are referred to
    by their address in the heap of PhetioObjects. *)
Record ContainerFields := mkFields {
  instrumented : bool;
  supportsDynamicState : bool;
  phetioDynamicElementName : string;
  archetype : option nat;
  notificationsDeferred : bool;
  deferredCreations : list nat;
  deferredDisposals : list nat
}.

Definition setDeferred (b : bool) (c : ContainerFields) : ContainerFields :=
  mkFields (instrumented c) (supportsDynamicState c) (phetioDynamicElementName c) (archetype c)
    b (deferredCreations c) (deferredDisposals c).
Definition setCreations (l : list nat) (c : ContainerFields) : ContainerFields :=
  mkFields (instrumented c) (supportsDynamicState c) (phetioDynamicElementName c) (archetype c)
    (notificationsDeferred c) l (deferredDisposals c).
Definition setDisposals (l : list nat) (c : ContainerFields) : ContainerFields :=
  mkFields (instrumented c) (supportsDynamicState c) (phetioDynamicElementName c) (archetype c)
    (notificationsDeferred c) (deferredCreations c) l.
Definition setArchetype (a : option nat) (c : ContainerFields) : ContainerFields :=
  mkFields (instrumented c) (supportsDynamicState c) (phetioDynamicElementName c) a
    (notificationsDeferred c) (deferredCreations c) (deferredDisposals c).

(** A subclass instance carries the fields of the base class. *)
Class Container (K : Type) := {
  fields : K -> ContainerFields;
  withFields : ContainerFields -> K -> K;
  fields_withFields : forall c s, fields (withFields c s) = c
}.

(** A PhetioObject made by the [createElement] factory: the component name of
    the tandem it was given, and its [isDisposed] flag. *)
Record Element := mkElement {
  tandemName : string;
  isDisposed : bool
}.

(** What [elementCreatedEmitter] or [elementDisposedEmitter] emitted. *)
Inductive Emitted :=
| ElementCreated (element : nat)
| ElementDisposed (element : nat).

(** The container instance, the heap of PhetioObjects its factory made, the
    emissions so far, oldest first, each with the container as its listeners
    saw it when they were called, and the [children] object of [this.tandem],
    with the class of the child tandem under each name. Every child is taken
    to be made with the options that [this.tandem.getExtendedOptions()] hands
    down, as the container makes them, so that the two assertions of
    [createTandem] on the flags of a child that exists compare these options
    with themselves. *)
Record World (K : Type) := mkWorld {
  self : K;
  objects : list Element;
  emissions : list (Emitted * K);
  tandemChildren : gmap string Tandem.TandemClass
}.
Arguments mkWorld {K} self objects emissions tandemChildren.
Arguments self {K} w.
Arguments objects {K} w.
Arguments emissions {K} w.
Arguments tandemChildren {K} w.

Definition notified {K} (w : World K) : list Emitted := map fst (emissions w).

(** [GROUP_SEPARATOR] of PhetioIDUtils, as the comments of DynamicTandem.js
    show it ("particles_7"). *)
Definition GROUP_SEPARATOR : string := "_".

Definition componentName (base : string) (index : nat) : string :=
  base +:+ GROUP_SEPARATOR +:+ indexKey index.

Section Base.
Context {K : Type} `{Container K}.

Definition setSelf (s : K) (w : World K) : World K :=
  mkWorld s (objects w) (emissions w) (tandemChildren w).
Definition setTandemChildren (children : gmap string Tandem.TandemClass) (w : World K) : World K :=
  mkWorld (self w) (objects w) (emissions w) children.
Definition updateFields (f : ContainerFields -> ContainerFields) : M (World K) unit :=
  modify (fun w => setSelf (withFields (f (fields (self w))) (self w)) w).
Definition getFields : M (World K) ContainerFields :=
  gets (fun w => fields (self w)).

(** [emitter.emit( element )] *)
Definition emit (e : Emitted) : M (World K) unit :=
  modify (fun w => mkWorld (self w) (objects w) (emissions w ++ [(e, self w)]) (tandemChildren w)).

(** The children of [this.tandem] once an element whose tandem is named
    [name] was disposed. PhetioObject.dispose calls
    [this.tandem.removePhetioObject( this )], which ends in [tandem.dispose]
    and [removeChild], if the element was initialized, and it was if PhET-iO
    is enabled and its tandem is supplied, as the tandem of the container
    is. *)
Definition childrenWithout (env : Env) (c : ContainerFields) (name : string)
    (children : gmap string Tandem.TandemClass) : gmap string Tandem.TandemClass :=
  if PHET_IO_ENABLED env && instrumented c then delete name children else children.

(** [element.dispose()]: PhetioObject.dispose, as far as the flag of the
    element goes, with the assertion on it, and the entry of the element's
    tandem in the children of the container's tandem, which [removeChild]
    deletes. The element is the factory's: what else its [dispose] does and
    asserts, on its own tandem too, is the element's. *)
Definition disposeObject (env : Env) (element : nat) : M (World K) unit :=
  fun w =>
    match objects w !! element with
    | None => (Throw (TypeError "not a PhetioObject"), w)
    | Some o =>
        (assertM env (negb (isDisposed o)) "PhetioObject can only be disposed once" ;;;
         modify (fun w => setTandemChildren
                            (childrenWithout env (fields (self w)) (tandemName o)
                               (tandemChildren w)) w) ;;;
         modify (fun w => mkWorld (self w)
                            (<[element := mkElement (tandemName o) true]> (objects w))
                            (emissions w) (tandemChildren w))) w
    end.

(** The world that [element.dispose()] leaves. *)
Definition withDisposed (env : Env) (element : nat) (o : Element) (w : World K) : World K :=
  mkWorld (self w) (<[element := mkElement (tandemName o) true]> (objects w)) (emissions w)
    (childrenWithout env (fields (self w)) (tandemName o) (tandemChildren w)).

Definition elementIsDisposed (element : nat) : M (World K) bool :=
  fun w =>
    match objects w !! element with
    | None => (Throw (TypeError "not a PhetioObject"), w)
    | Some o => (Ok (isDisposed o), w)
    end.

(** [this.tandem.hasChild( name )] *)
Definition tandemHasChild (name : string) : M (World K) bool :=
  children <- gets tandemChildren ;;
  liftR (Tandem.hasOwnChild children name).

(** The constructor of Tandem, or of DynamicTandem, called with [this.tandem]
    as parent, as far as the children of [this.tandem] go: the assertions on
    the name, the assertion that the parent has no such child, and
    [addChild]. *)
Definition newChildTandem (env : Env) (cls : Tandem.TandemClass) (name : string)
  : M (World K) unit :=
  assertM env (Tandem.termRegexTest cls name) "name should match the regex pattern" ;;;
  assertM env (negb (String.eqb name Tandem.METADATA_KEY))
    "name cannot match Tandem.METADATA_KEY" ;;;
  when (assertEnabled env)
    (has <- tandemHasChild name ;;
     assertM env (negb has) "parent should not have child") ;;;
  when (assertEnabled env)
    (has <- tandemHasChild name ;;
     assertM env (negb has) "child already present") ;;;
  modify (fun w => setTandemChildren (Tandem.setChild name cls (tandemChildren w)) w).

(** [this.tandem.createTandem( name, this.tandem.getExtendedOptions() )],
    with the class of the tandem it returns. *)
Definition createChildTandem (env : Env) (name : string) : M (World K) Tandem.TandemClass :=
  has <- tandemHasChild name ;;
  if has then
    children <- gets tandemChildren ;;
    match children !! name with
    | Some cls => ret cls
    | None => throw (TypeError "no such child")
    end
  else newChildTandem env Tandem.PlainTandem name ;;; ret Tandem.PlainTandem.

(** [createDynamicElement]. The tandem of the element is a new DynamicTandem
    under [this.tandem], or the child that [this.tandem] has under the name,
    which must then be a DynamicTandem. The factory [createElement] is an
    argument of the constructor: it is taken to return a new undisposed
    PhetioObject on the tandem it is given, instrumented, dynamic and of the
    container's parameter type, so that the checks made on its result pass.
    The container keeps the component name of the tandem. *)
Definition createDynamicElement (env : Env) (componentName : string) : M (World K) nat :=
  has <- tandemHasChild componentName ;;
  (if negb has
   then newChildTandem env Tandem.DynamicTandem componentName
   else
     cls <- createChildTandem env componentName ;;
     assertM env (match cls with Tandem.DynamicTandem => true | _ => false end)
       "createdObjectTandem should be an instance of DynamicTandem") ;;;
  address <- gets (fun w => length (objects w)) ;;
  modify (fun w => mkWorld (self w) (objects w ++ [mkElement componentName false]) (emissions w)
                     (tandemChildren w)) ;;;
  ret address.

(** The children of [this.tandem] once the tandem of an element named [name]
    was made, or found among them. *)
Definition childrenWith (name : string) (children : gmap string Tandem.TandemClass)
  : gmap string Tandem.TandemClass :=
  match children !! name with
  | Some _ => children
  | None => Tandem.setChild name Tandem.DynamicTandem children
  end.

(** The world that [createDynamicElement] leaves when it returns. *)
Definition withCreated (name : string) (w : World K) : World K :=
  mkWorld (self w) (objects w ++ [mkElement name false]) (emissions w)
    (childrenWith name (tandemChildren w)).

(** What [createDynamicElement] needs to get a tandem for an element named
    [name]: [this.tandem.hasChild] can be called, which it cannot once a
    child is named "hasOwnProperty"; and where assertions are enabled, a
    child of that name is a DynamicTandem, or else the name is neither
    [Tandem.METADATA_KEY] nor outside the term pattern of DynamicTandem. *)
Definition canCreateTandem (env : Env) (children : gmap string Tandem.TandemClass)
    (name : string) : bool :=
  negb (isSome (children !! "hasOwnProperty")) &&
  match children !! name with
  | Some Tandem.DynamicTandem => true
  | Some _ => negb (assertEnabled env)
  | None =>
      negb (assertEnabled env) ||
      (Tandem.termRegexTest Tandem.DynamicTandem name && negb (String.eqb name Tandem.METADATA_KEY))
  end.

(** The assertion of [disposeElement] on [fromStateSetting] passes. *)
Definition mayDispose (env : Env) (c : ContainerFields) (fromStateSetting : bool) : Prop :=
  assertEnabled env = true -> supportsDynamicState c = true -> isSettingPhetioState env = true ->
  fromStateSetting = true.

(** [PhetioDynamicElementContainer.disposeElement] *)
Definition disposeElementBase (env : Env) (element : nat) (fromStateSetting : bool)
  : M (World K) unit :=
  disposeObject env element ;;;
  c <- getFields ;;
  when (supportsDynamicState c && isSettingPhetioState env)
    (assertM env fromStateSetting
       "should not dispose a dynamic element while setting phet-io state") ;;;
  if notificationsDeferred c
  then updateFields (fun c => setDisposals (deferredDisposals c ++ [element]) c)
  else emit (ElementDisposed element).

(** [notifyElementCreated] *)
Definition notifyElementCreated (createdElement : nat) : M (World K) unit :=
  c <- getFields ;;
  if notificationsDeferred c
  then updateFields (fun c => setCreations (deferredCreations c ++ [createdElement]) c)
  else emit (ElementCreated createdElement).

(** [notifyElementCreatedWhileDeferred] *)
Definition notifyElementCreatedWhileDeferred (env : Env) (createdElement : nat)
  : M (World K) unit :=
  c <- getFields ;;
  assertM env (notificationsDeferred c)
    "should only be called when notifications are deferred" ;;;
  assertM env (existsb (Nat.eqb createdElement) (deferredCreations c))
    "createdElement should not have been already notified" ;;;
  emit (ElementCreated createdElement) ;;;
  c <- getFields ;;
  remaining <- liftR (arrayRemove env (deferredCreations c) createdElement) ;;
  updateFields (setCreations remaining).

(** [notifyElementDisposedWhileDeferred] *)
Definition notifyElementDisposedWhileDeferred (env : Env) (disposedElement : nat)
  : M (World K) unit :=
  c <- getFields ;;
  assertM env (notificationsDeferred c)
    "should only be called when notifications are deferred" ;;;
  assertM env (existsb (Nat.eqb disposedElement) (deferredDisposals c))
    "disposedElement should not have been already notified" ;;;
  emit (ElementDisposed disposedElement) ;;;
  c <- getFields ;;
  remaining <- liftR (arrayRemove env (deferredDisposals c) disposedElement) ;;
  updateFields (setDisposals remaining).

(** The two [while] loops of [setNotificationsDeferred]: notify the first
    queued element until the queue is empty. *)
Fixpoint flushCreations (env : Env) (fuel : nat) : M (World K) unit :=
  c <- getFields ;;
  match deferredCreations c with
  | [] => ret tt
  | first :: _ =>
      match fuel with
      | O => throw OutOfFuel
      | S fuel' => notifyElementCreatedWhileDeferred env first ;;; flushCreations env fuel'
      end
  end.

Fixpoint flushDisposals (env : Env) (fuel : nat) : M (World K) unit :=
  c <- getFields ;;
  match deferredDisposals c with
  | [] => ret tt
  | first :: _ =>
      match fuel with
      | O => throw OutOfFuel
      | S fuel' => notifyElementDisposedWhileDeferred env first ;;; flushDisposals env fuel'
      end
  end.

(** [setNotificationsDeferred] *)
Definition setNotificationsDeferred (env : Env) (deferred : bool) : M (World K) unit :=
  c <- getFields ;;
  assertM env (negb (Bool.eqb deferred (notificationsDeferred c)))
    "should not be the same as current value" ;;;
  when (negb deferred)
    (flushCreations env (length (deferredCreations c)) ;;;
     c' <- getFields ;;
     flushDisposals env (length (deferredDisposals c'))) ;;;
  c <- getFields ;;
  assertM env (Nat.eqb (length (deferredCreations c)) 0) "creations should be clear" ;;;
  assertM env (Nat.eqb (length (deferredDisposals c)) 0) "disposals should be clear" ;;;
  updateFields (setDeferred deferred).

(** [createArchetype]: none once the construction of the sim is complete;
    otherwise, when archetypes are wanted, the factory is run once on the
    tandem [this.tandem.createTandem( DYNAMIC_ARCHETYPE_NAME )]. *)
Definition DYNAMIC_ARCHETYPE_NAME : string := "archetype".

Definition createArchetype (env : Env) : M (World K) (option nat) :=
  if isConstructionComplete env then ret None
  else if PHET_IO_ENABLED env && createArchetypes env
  then
    createChildTandem env DYNAMIC_ARCHETYPE_NAME ;;;
    address <- gets (fun w => length (objects w)) ;;
    modify (fun w => mkWorld (self w) (objects w ++ [mkElement DYNAMIC_ARCHETYPE_NAME false])
                       (emissions w) (tandemChildren w)) ;;;
    ret (Some address)
  else ret None.

End Base.

(** The fields the constructor of PhetioDynamicElementContainer sets, for a
    container tandem named [tandemName] with the given suffix;
    [phetioDynamicElementName] is
    [name.slice( 0, name.length - suffix.length )], where a negative end
    counts from the end of the name. *)
Definition baseFields (isInstrumented : bool) (tandemName containerSuffix : string)
  : ContainerFields :=
  let n := String.length tandemName in
  let k := String.length containerSuffix in
  mkFields isInstrumented true
    (String.substring 0 (if k <=? n then n - k else n + n - k) tandemName)
    None false [] [].

(** *** PhetioGroup.js *)
Record PhetioGroup := mkGroup {
  groupFields : ContainerFields;
  _array : list nat;
  groupElementIndex : nat;
  countProperty : nat          (* this.countProperty.value *)
}.

#[export] Instance groupContainer : Container PhetioGroup := {|
  fields := groupFields;
  withFields c g := mkGroup c (_array g) (groupElementIndex g) (countProperty g);
  fields_withFields := fun _ _ => eq_refl
|}.

Abbreviation GroupWorld := (World PhetioGroup).

Definition updateGroup (f : PhetioGroup -> PhetioGroup) : M GroupWorld unit :=
  modify (fun w => setSelf (f (self w)) w).

Definition setArray (l : list nat) (g : PhetioGroup) : PhetioGroup :=
  mkGroup (groupFields g) l (groupElementIndex g) (countProperty g).
Definition setIndex (i : nat) (g : PhetioGroup) : PhetioGroup :=
  mkGroup (groupFields g) (_array g) i (countProperty g).
Definition setCount (n : nat) (g : PhetioGroup) : PhetioGroup :=
  mkGroup (groupFields g) (_array g) (groupElementIndex g) n.

(** The constructor, for a group whose tandem is named [tandemName] and has
    no children yet: the container as it is once constructed, with the
    archetype (if one is made) as the only PhetioObject of its factory so
    far, and with the tandem [options.tandem.createTandem( 'countProperty' )]
    that the constructor of PhetioGroup makes for [countProperty]. *)
Definition newPhetioGroup (env : Env) (isInstrumented : bool) (tandemName : string)
  : result GroupWorld :=
  bindR (if VALIDATION env
         then jsAssert env (Tandem.endsWith tandemName "Group")
                "PhetioDynamicElementContainer tandems should end with options.containerSuffix"
         else Ok tt)
    (fun _ =>
       let w := mkWorld (mkGroup (baseFields isInstrumented tandemName "Group") [] 0 0) [] [] ∅ in
       match (a <- createArchetype env ;;
              updateFields (setArchetype a) ;;;
              createChildTandem env "countProperty") w with
       | (Ok _, w') => Ok w'
       | (Throw e, _) => Throw e
       end).

(** [PhetioGroup.disposeElement] *)
Definition disposeGroupElement (env : Env) (element : nat) (fromStateSetting : bool)
  : M GroupWorld unit :=
  when (assertEnabled env)
    (disposed <- elementIsDisposed element ;;
     assertM env (negb disposed) "element already disposed") ;;;
  g <- gets self ;;
  remaining <- liftR (arrayRemove env (_array g) element) ;;
  updateGroup (setArray remaining) ;;;
  updateGroup (fun g => setCount (length (_array g)) g) ;;;
  disposeElementBase env element fromStateSetting.

(** The [while] loop of [PhetioGroup.clear]: dispose the first element until
    the array is empty. *)
Fixpoint clearLoop (env : Env) (fromStateSetting : bool) (fuel : nat) : M GroupWorld unit :=
  g <- gets self ;;
  match _array g with
  | [] => ret tt
  | first :: _ =>
      match fuel with
      | O => throw OutOfFuel
      | S fuel' =>
          disposeGroupElement env first fromStateSetting ;;;
          clearLoop env fromStateSetting fuel'
      end
  end.

(** [PhetioGroup.clear( { fromStateSetting, resetIndex } )] *)
Definition clearGroup (env : Env) (fromStateSetting resetIndex : bool) : M GroupWorld unit :=
  g <- gets self ;;
  clearLoop env fromStateSetting (length (_array g)) ;;;
  when resetIndex (updateGroup (setIndex 0)).

(** [PhetioGroup.createIndexedElement] *)
Definition createIndexedElement (env : Env) (index : nat) (fromStateSetting : bool)
  : M GroupWorld nat :=
  c <- getFields ;;
  when (VALIDATION env)
    (assertM env (instrumented c) "TODO: support uninstrumented PhetioGroups?") ;;;
  when (supportsDynamicState c && assertEnabled env && isSettingPhetioState env)
    (assertM env fromStateSetting
       "dynamic elements should only be created by the state engine when setting state.") ;;;
  groupElement <- createDynamicElement env (componentName (phetioDynamicElementName c) index) ;;
  updateGroup (fun g => setArray (_array g ++ [groupElement]) g) ;;;
  updateGroup (fun g => setCount (length (_array g)) g) ;;;
  notifyElementCreated groupElement ;;;
  ret groupElement.

(** [index + 1], and [index++], on a group index. The index is a double that
    holds an integer: below 2^53 the sum is exact; from 2^53 to 2^54 the
    doubles are the even numbers and the sum lies half way between two of
    them, so that it is rounded to the one with the even significand; from
    2^54 on it is rounded back to the index. *)
Definition addOne (index : nat) : nat :=
  if (N.of_nat index <? 2 ^ 53)%N then index + 1
  else if (N.of_nat index <? 2 ^ 54)%N
  then (if Nat.even (index / 2) then index else index + 2)
  else index.

(** [PhetioGroup.createNextElement]: the argument [this.groupElementIndex++]
    is evaluated before the call. *)
Definition createNextElement (env : Env) : M GroupWorld nat :=
  g <- gets self ;;
  updateGroup (setIndex (addOne (groupElementIndex g))) ;;;
  createIndexedElement env (groupElementIndex g) false.

(** [PhetioGroup.createCorrespondingGroupElement], given the index that
    [PhetioIDUtils.getGroupElementIndex] reads off the tandem name. *)
Definition createCorrespondingGroupElement (env : Env) (index : nat) : M GroupWorld nat :=
  g <- gets self ;;
  when (Nat.eqb (groupElementIndex g) index)
    (updateGroup (setIndex (addOne (groupElementIndex g)))) ;;;
  createIndexedElement env index false.

(** [addChildElement] of PhetioGroupIO, given the index read off the
    component name. *)
Definition addChildElement (env : Env) (index : nat) : M GroupWorld nat :=
  groupElement <- createIndexedElement env index true ;;
  updateGroup (fun g => setIndex (Nat.max (addOne index) (groupElementIndex g)) g) ;;;
  ret groupElement.

(** *** PhetioCapsule.js *)
Record PhetioCapsule := mkCapsule {
  capsuleFields : ContainerFields;
  element : option nat
}.

#[export] Instance capsuleContainer : Container PhetioCapsule := {|
  fields := capsuleFields;
  withFields c k := mkCapsule c (element k);
  fields_withFields := fun _ _ => eq_refl
|}.

Abbreviation CapsuleWorld := (World PhetioCapsule).

Definition setElement (e : option nat) : M CapsuleWorld unit :=
  modify (fun w => setSelf (mkCapsule (capsuleFields (self w)) e) w).

(** The constructor, for a capsule whose tandem is named [tandemName] and has
    no children yet. *)
Definition newPhetioCapsule (env : Env) (isInstrumented : bool) (tandemName : string)
  : result CapsuleWorld :=
  bindR (if VALIDATION env
         then jsAssert env (Tandem.endsWith tandemName "Capsule")
                "PhetioDynamicElementContainer tandems should end with options.containerSuffix"
         else Ok tt)
    (fun _ =>
       let w := mkWorld (mkCapsule (baseFields isInstrumented tandemName "Capsule") None) [] [] ∅ in
       match (a <- createArchetype env ;; updateFields (setArchetype a)) w with
       | (Ok _, w') => Ok w'
       | (Throw e, _) => Throw e
       end).

(** [PhetioCapsule.disposeElement] *)
Definition disposeCapsuleElement (env : Env) (fromStateSetting : bool) : M CapsuleWorld unit :=
  k <- gets self ;;
  assertM env (isSome (element k)) "cannot dispose if element is not defined" ;;;
  match element k with
  | Some e => disposeElementBase env e fromStateSetting
  | None => throw (TypeError "Cannot read properties of null (reading 'dispose')")
  end ;;;
  setElement None.

(** [PhetioCapsule.create]. The second assertion of the source is guarded by
    [_.hasIn( window, 'phet.joist.sim.' )], a path that ends in an empty key
    and is never present, so it does not run. *)
Definition create (env : Env) (fromStateSetting : bool) : M CapsuleWorld nat :=
  c <- getFields ;;
  assertM env (instrumented c) "TODO: support uninstrumented PhetioCapsules?" ;;;
  created <- createDynamicElement env (phetioDynamicElementName c) ;;
  setElement (Some created) ;;;
  notifyElementCreated created ;;;
  ret created.

(** [PhetioCapsule.getElement] *)
Definition getElement (env : Env) : M CapsuleWorld (option nat) :=
  k <- gets self ;;
  match element k with
  | None => create env false ;;; gets (fun w => element (self w))
  | Some _ => gets (fun w => element (self w))
  end.

(** [PhetioCapsule.clear( { fromStateSetting } )] *)
Definition clearCapsule (env : Env) (fromStateSetting : bool) : M CapsuleWorld unit :=
  k <- gets self ;;
  match element k with
  | Some _ => disposeCapsuleElement env fromStateSetting
  | None => ret tt
  end.

(** *** Call sequences and observations *)

(** The public calls on a group. *)
Inductive GroupOp :=
| CreateNextElement
| CreateIndexedElement (index : nat) (fromStateSetting : bool)
| CreateCorrespondingGroupElement (index : nat)
| AddChildElement (index : nat)
| DisposeElement (element : nat) (fromStateSetting : bool)
| Clear (fromStateSetting resetIndex : bool)
| SetNotificationsDeferred (deferred : bool)
| NotifyElementCreatedWhileDeferred (element : nat).

Definition runGroupOp (env : Env) (op : GroupOp) : M GroupWorld unit :=
  match op with
  | CreateNextElement => createNextElement env ;;; ret tt
  | CreateIndexedElement index fromStateSetting =>
      createIndexedElement env index fromStateSetting ;;; ret tt
  | CreateCorrespondingGroupElement index => createCorrespondingGroupElement env index ;;; ret tt
  | AddChildElement index => addChildElement env index ;;; ret tt
  | DisposeElement element fromStateSetting => disposeGroupElement env element fromStateSetting
  | Clear fromStateSetting resetIndex => clearGroup env fromStateSetting resetIndex
  | SetNotificationsDeferred deferred => setNotificationsDeferred env deferred
  | NotifyElementCreatedWhileDeferred element => notifyElementCreatedWhileDeferred env element
  end.

(** A caller may catch what a call throws and go on: the calls are run one
    after the other on the state the previous one left. *)
Fixpoint runGroupOps (env : Env) (ops : list GroupOp) (w : GroupWorld) : GroupWorld :=
  match ops with
  | [] => w
  | op :: rest => runGroupOps env rest (snd (runGroupOp env op w))
  end.

(** [n] calls of [createNextElement], with the elements they returned. *)
Fixpoint createMany (env : Env) (n : nat) : M GroupWorld (list nat) :=
  match n with
  | O => ret []
  | S k => e <- createNextElement env ;; rest <- createMany env k ;; ret (e :: rest)
  end.

(** The configuration of the container, which creating and disposing
    elements leave alone. *)
Definition sameConfiguration (w w' : GroupWorld) : Prop :=
  instrumented (groupFields (self w')) = instrumented (groupFields (self w)) /\
  phetioDynamicElementName (groupFields (self w')) = phetioDynamicElementName (groupFields (self w)) /\
  notificationsDeferred (groupFields (self w')) = notificationsDeferred (groupFields (self w)).

(** The children of the container's tandem are the tandems that its
    constructor made, under the names [reserved], and the tandems of its
    elements: none is named "hasOwnProperty", and every one but the
    constructor's is a DynamicTandem. *)
Definition elementChildren (reserved : list string) (children : gmap string Tandem.TandemClass)
  : Prop :=
  children !! "hasOwnProperty" = None /\
  forall name cls, children !! name = Some cls -> In name reserved \/ cls = Tandem.DynamicTandem.

(** The names of the tandems that the constructor of a group makes under the
    group's tandem, for the archetype and for [countProperty], and the one
    that the constructor of a capsule makes. *)
Definition groupReserved : list string := [DYNAMIC_ARCHETYPE_NAME; "countProperty"].
Definition capsuleReserved : list string := [DYNAMIC_ARCHETYPE_NAME].

(** A name that [createDynamicElement] of a capsule can use whatever elements
    the capsule made before: it is not the archetype's and not
    "hasOwnProperty", and where assertions are enabled it is a term of a
    DynamicTandem other than [Tandem.METADATA_KEY]. *)
Definition elementNameOK (env : Env) (name : string) : bool :=
  negb (String.eqb name DYNAMIC_ARCHETYPE_NAME) &&
  negb (String.eqb name "hasOwnProperty") &&
  (negb (assertEnabled env) ||
   (Tandem.termRegexTest Tandem.DynamicTandem name && negb (String.eqb name Tandem.METADATA_KEY))).

(** A group that can make elements under the names [componentName base i]:
    it is instrumented, the children of its tandem are those that its
    constructor made and those of its elements, and, where assertions are
    enabled, the characters of the prefix are those of a term of a
    DynamicTandem. *)
Definition groupReady (env : Env) (w : GroupWorld) : Prop :=
  instrumented (groupFields (self w)) = true /\
  elementChildren groupReserved (tandemChildren w) /\
  (assertEnabled env = true ->
   forallb (Tandem.termChar Tandem.DynamicTandem)
     (String.list_ascii_of_string (phetioDynamicElementName (groupFields (self w)))) = true).

(** The tandem name of the element at an address. *)
Definition elementName (w : GroupWorld) (e : nat) : option string :=
  tandemName <$> objects w !! e.

(** The count equals the length of the array, in the group and in every
    state of the group that a listener was shown. *)
Definition countConsistent (g : PhetioGroup) : Prop :=
  countProperty g = length (_array g).

Definition GroupInvariant (w : GroupWorld) : Prop :=
  countConsistent (self w) /\ Forall (fun em => countConsistent (snd em)) (emissions w).

(** The array and the count as [disposeElement] leaves them before the
    element itself is disposed. *)
Definition withoutElement (env : Env) (e : nat) (w : GroupWorld) : GroupWorld :=
  let remaining :=
    if existsb (Nat.eqb e) (_array (self w))
    then removeFirst (Nat.eqb e) (_array (self w))
    else removelast (_array (self w)) in
  setSelf (setCount (length remaining) (setArray remaining (self w))) w.





Definition undisposedIn (objs : list Element) (e : nat) : bool :=
  match objs !! e with
  | Some o => negb (isDisposed o)
  | None => false
  end.





(** *** Scenarios *)

(** A group on the tandem "particleGroup" and a capsule on the tandem
    "dialogCapsule", as their constructors leave them in a debug build that
    makes no archetypes. *)
Definition particleGroup : GroupWorld :=
  mkWorld (mkGroup (baseFields true "particleGroup" "Group") [] 0 0) [] []
    {["countProperty" := Tandem.PlainTandem]}.

Definition dialogCapsule : CapsuleWorld :=
  mkWorld (mkCapsule (baseFields true "dialogCapsule" "Capsule") None) [] [] ∅.


End Containers.

(** ** The API validator (phetioAPIValidation.js) *)
Module APIValidation.
Local Open Scope m_scope.

(** The object handed to [assertAPIError]. *)
Record APIError := mkAPIError {
  errorPhetioID : string;
  ruleInViolation : string;
  errorMessage : string
}.

(** The singleton: its two flags, and the error objects it has logged
    through [console.log( 'error data:', ... )], oldest first. *)
Record Validation := mkValidation {
  simHasStarted : bool;
  enabled : bool;
  logged : list APIError
}.

(** The constructor: [this.enabled = assert && Tandem.VALIDATION]. *)
Definition newValidation (env : Env) : Validation :=
  mkValidation false (assertEnabled env && VALIDATION env) [].

(** A schema document keyed by phetioID, each entry an object of metadata. *)
Definition Metadata := list (string * value).
Definition Schema := list (string * Metadata).

(** [s.indexOf( sub ) >= 0] *)
Fixpoint containsString (sub s : string) : bool :=
  String.prefix sub s ||
  match s with
  | EmptyString => false
  | String _ rest => containsString sub rest
  end.

Definition RULE_3 : string :=
  "3. Any schema entries in the overrides file must exist in the baseline file.".
Definition RULE_4 : string :=
  "4. Any schema entries in the overrides file must be different from its baseline counterpart.".
Definition RULE_8 : string :=
  "8. Any schema entries in the overrides file must be different from its baseline counterpart.".

(** [assertAPIError]: log the error object, then fail an assertion. *)
Definition assertAPIError (env : Env) (apiErrorObject : APIError) : M Validation unit :=
  modify (fun v => mkValidation (simHasStarted v) (enabled v) (logged v ++ [apiErrorObject])) ;;;
  assertM env false "PhET-iO API error".

(** The body of the inner loop of [validateOverridesFile], for one metadata
    key of an override and the baseline entry of the same phetioID. *)
Definition checkMetadataKey (env : Env) (phetioID : string) (baseline : Metadata)
    (metadataKey : string) (overrideValue : value) : M Validation unit :=
  when (negb (assocHas metadataKey baseline))
    (assertAPIError env
       (mkAPIError phetioID RULE_8 "phetioID metadata key not found in the baseline")) ;;;
  when (strictEq overrideValue (default VUndefined (assocGet metadataKey baseline)))
    (assertAPIError env
       (mkAPIError phetioID RULE_8
          "phetioID metadata override value is the same as the corresponding metadata value in the baseline.")).

Fixpoint checkMetadataKeys (env : Env) (phetioID : string) (baseline : Metadata)
    (override : Metadata) : M Validation unit :=
  match override with
  | [] => ret tt
  | (metadataKey, overrideValue) :: rest =>
      checkMetadataKey env phetioID baseline metadataKey overrideValue ;;;
      checkMetadataKeys env phetioID baseline rest
  end.

(** The body of the outer loop of [validateOverridesFile], for one entry of
    the overrides. *)
Definition checkOverride (env : Env) (entireBaseline : Schema) (phetioID : string)
    (override : Metadata) : M Validation unit :=
  let isArchetype := containsString Containers.DYNAMIC_ARCHETYPE_NAME phetioID in
  if negb (createArchetypes env) && negb (assocHas phetioID entireBaseline)
  then assertM env isArchetype "phetioID missing from the baseline that was not an archetype"
  else
    match assocGet phetioID entireBaseline with
    | None =>
        assertAPIError env
          (mkAPIError phetioID RULE_3 "phetioID expected in the baseline file but does not exist")
    | Some baseline =>
        when (Nat.eqb (length override) 0)
          (assertAPIError env
             (mkAPIError phetioID RULE_4 "no metadata keys found for this override.")) ;;;
        checkMetadataKeys env phetioID baseline override
    end.

(** [validateOverridesFile], over the baseline of the engine and the
    preloaded overrides. *)
Fixpoint validateOverridesFile (env : Env) (entireBaseline : Schema) (overrides : Schema)
  : M Validation unit :=
  match overrides with
  | [] => ret tt
  | (phetioID, override) :: rest =>
      checkOverride env entireBaseline phetioID override ;;;
      validateOverridesFile env entireBaseline rest
  end.

(** [onSimStarted] *)
Definition onSimStarted (env : Env) (entireBaseline overrides : Schema) : M Validation unit :=
  modify (fun v => mkValidation true (enabled v) (logged v)) ;;;
  v <- getState ;;
  when (enabled v && allScreensCreated env)
    (validateOverridesFile env entireBaseline overrides).

(** *** Violations and scenarios *)

(** A metadata key of an override is in violation when the baseline entry
    lacks it or holds a strictly equal value. *)
Definition keyViolates (baseline : Metadata) (entry : string * value) : bool :=
  negb (assocHas (fst entry) baseline) ||
  strictEq (snd entry) (default VUndefined (assocGet (fst entry) baseline)).

Definition KEY_NOT_FOUND (phetioID : string) : APIError :=
  mkAPIError phetioID RULE_8 "phetioID metadata key not found in the baseline".
Definition SAME_VALUE (phetioID : string) : APIError :=
  mkAPIError phetioID RULE_8
    "phetioID metadata override value is the same as the corresponding metadata value in the baseline.".
Definition NOT_IN_BASELINE (phetioID : string) : APIError :=
  mkAPIError phetioID RULE_3 "phetioID expected in the baseline file but does not exist".
Definition NO_METADATA_KEYS (phetioID : string) : APIError :=
  mkAPIError phetioID RULE_4 "no metadata keys found for this override.".

(** The log only grows. *)
Definition extends (v v' : Validation) : Prop := exists errs, logged v' = logged v ++ errs.

(** An override for an archetype, where the baseline (made without
    archetypes) has no such entry. *)
Definition archetypeOverrides : Schema :=
  [("sim.screen.model.particleGroup.archetype.visibleProperty", [("phetioReadOnly", VBool true)])].

End APIValidation.

(** ** Serialization and validation of state, continued
    (types/IOType.js, types/StateSchema.js, types/BooleanIO.js) *)
Module Serialization.
Import IOTypes.
Local Open Scope js_scope.

(** [IOType.getTypeHierarchy]: the type and its supertypes, up to the root. *)
Fixpoint getTypeHierarchy (t : IOType) : list IOType :=
  match t with
  | mkIOType _ supertype _ _ _ _ =>
      t :: match supertype with
           | Some super => getTypeHierarchy super
           | None => []
           end
  end.

(** [{ valueType: 'boolean' }] *)
Definition valueTypeBoolean : Validator :=
  fun v => match v with VBool _ => true | _ => false end.

(** *** types/BooleanIO.js *)
Definition BooleanIO : IOType :=
  newIOType "BooleanIO" {|
    configSupertype := Some ValueIO;
    configValidator := valueTypeBoolean;
    configStateSchema := Some (asValue "boolean" valueTypeBoolean);
    configToStateObject := None;
    configFromStateObject := None
  |}.

(** The [checkLevel] closure of [StateSchema.checkStateObjectValid], as
    [IOType.isStateObjectValid] runs it. *)
Definition checkLevel (env : Env) (toAssert : bool) :=
  fix checkLevel (schemaLevel : list (string * IOType)) (objectLevel : value)
      (exclude : option string) (valid : option bool) (keyList : list string)
      {struct schemaLevel} : result (option bool * list string) :=
    match schemaLevel with
    | [] => Ok (valid, keyList)
    | (key, fieldType) :: rest =>
        if match exclude with Some k => String.eqb key k | None => false end
        then checkLevel rest objectLevel exclude valid keyList
        else
          validKey <- hasOwnProperty objectLevel key ;;
          jsAssert env (negb toAssert || validKey)
            "key in state schema but not in the state object" ;;;
          fieldValue <- getProp objectLevel key ;;
          isStateObjectValid env fieldType fieldValue true [] [] ;;;
          checkLevel rest objectLevel exclude
            (if validKey then valid else Some false) (keyList ++ [key])
    end.

(** One level of [StateSchema.defaultToStateObject], as the [toStateObject]
    of an IO Type runs it on a core object. *)
Definition toStateObjectForSchemaLevel (env : Env) (coreObject : value) :=
  fix level (schemaLevel : list (string * IOType)) {struct schemaLevel}
    : result (list (string * value)) :=
    match schemaLevel with
    | [] => Ok []
    | (stateKey, fieldType) :: rest =>
        (if assertEnabled env
         then has <- hasOwnProperty coreObject stateKey ;;
              jsAssert env has
                "cannot get state because coreObject does not have expected schema key"
         else Ok tt) ;;;
        fieldValue <- getProp coreObject stateKey ;;
        fieldState <- toStateObject env fieldType fieldValue ;;
        others <- level rest ;;
        Ok ((stateKey, fieldState) :: others)
    end.

(** The core object of the serialization scenario: the two properties the
    schema [{ a: NumberIO, b: StringIO }] names, and one it does not. *)
Definition coreABC : value := VObj [("a", VNum 1); ("c", VBool true); ("b", VStr "hi")].

(** A type that gives a [toStateObject] but no [stateSchema] anywhere in its
    hierarchy, and whose state is an object. *)
Definition PointIO : IOType :=
  newIOType "PointIO" {|
    configSupertype := None;
    configValidator := fun _ => true;
    configStateSchema := None;
    configToStateObject := Some (fun _ coreObject => Ok coreObject);
    configFromStateObject := None
  |}.

End Serialization.

(** ** The tree of tandems (Tandem.js, DynamicTandem.js, and the tandem that
    PhetioDynamicElementContainer.createDynamicElement makes) *)
Module TandemTree.
Import Tandem.
Local Open Scope m_scope.

(** [Tandem.hasAncestor( ancestor )], where [ancestor] is a Tandem or null:
    [this.parentTandem === ancestor ||
     ( this.parentTandem && this.parentTandem.hasAncestor( ancestor ) )].
    The value of the expression is returned as it is: [true], or the [null]
    that the root's parent link contributes. *)
Fixpoint hasAncestor (fuel : nat) (h : list TandemNode) (t : nat) (ancestor : option nat)
  : result value :=
  match h !! t with
  | None => Throw (TypeError "not a Tandem")
  | Some node =>
      if bool_decide (parentTandem node = ancestor) then Ok (VBool true)
      else
        match parentTandem node with
        | None => Ok VNull
        | Some p =>
            match fuel with
            | O => Throw OutOfFuel
            | S fuel' => hasAncestor fuel' h p ancestor
            end
        end
  end.

(** [getArchetypalPhetioID], dispatched on the class: a DynamicTandem stands
    for the archetype of its container, any other tandem appends its own name
    to the archetypal phetioID of its parent. *)
Fixpoint getArchetypalPhetioID (env : Env) (fuel : nat) (h : list TandemNode) (t : nat)
  : result string :=
  match h !! t with
  | None => Throw (TypeError "not a Tandem")
  | Some node =>
      let ofParent :=
        match parentTandem node with
        | None => Throw (TypeError "Cannot read properties of null")
        | Some p =>
            match fuel with
            | O => Throw OutOfFuel
            | S fuel' => getArchetypalPhetioID env fuel' h p
            end
        end in
      match tandemClass node with
      | DynamicTandem =>
          (jsAssert env (isSome (parentTandem node)) "Group elements must be in a Group" ;;;
           parentID <- ofParent ;;
           Ok (append parentID Containers.DYNAMIC_ARCHETYPE_NAME))%js
      | _ =>
          match parentTandem node with
          | Some _ => (parentID <- ofParent ;; Ok (append parentID (name node)))%js
          | None => Ok (phetioID node)
          end
      end
  end.

(** The tandem that [PhetioDynamicElementContainer.createDynamicElement]
    makes for a new element of the container on tandem [t]. *)
Definition createDynamicElementTandem (env : Env) (t : nat) (componentName : string)
  : M State nat :=
  node <- getNode t ;;
  has <- hasChild t componentName ;;
  if negb has
  then newTandem env DynamicTandem (Some t) componentName (getExtendedOptions node noOptions)
  else
    created <- createTandem env t componentName (getExtendedOptions node noOptions) ;;
    child <- getNode created ;;
    assertM env (match tandemClass child with DynamicTandem => true | _ => false end)
      "createdObjectTandem should be an instance of DynamicTandem" ;;;
    ret created.

(** The calls that build and prune the tree. *)
Inductive TreeOp :=
| CallCreateTandem (t : nat) (name : string) (options : Options)
| CallCreateDynamicElementTandem (t : nat) (componentName : string)
| CallDispose (t : nat)
| CallRemovePhetioObject (t : nat) (phetioObject : PhetioObject).

Definition runTreeOp (env : Env) (op : TreeOp) : M State unit :=
  match op with
  | CallCreateTandem t name options => createTandem env t name options ;;; ret tt
  | CallCreateDynamicElementTandem t componentName =>
      createDynamicElementTandem env t componentName ;;; ret tt
  | CallDispose t => dispose env t
  | CallRemovePhetioObject t phetioObject => removePhetioObject env t phetioObject
  end.

(** A caller may catch what a call throws and go on. *)
Fixpoint runTreeOps (env : Env) (ops : list TreeOp) (s : State) : State :=
  match ops with
  | [] => s
  | op :: rest => runTreeOps env rest (snd (runTreeOp env op s))
  end.

(** What the constructor establishes for the node at address [i]: its parent
    was made before it and its phetioID extends the parent's by its name; and
    every entry of its [children] is a node that names it as parent and is
    filed under its own name. *)
Definition wellFormedNode (h : list TandemNode) (i : nat) (node : TandemNode) : Prop :=
  match parentTandem node with
  | Some p =>
      p < i /\ exists parent, h !! p = Some parent /\
                              phetioID node = append (phetioID parent) (name node)
  | None => phetioID node = name node
  end /\
  forall k c, children node !! k = Some c ->
    exists child, h !! c = Some child /\ parentTandem child = Some i /\ name child = k.

Definition wellFormed (s : State) : Prop :=
  forall i node, heap s !! i = Some node -> wellFormedNode (heap s) i node.

(** [ancestor] is reached from [t] by following parent links. *)
Inductive ancestorOf (h : list TandemNode) (ancestor : nat) : nat -> Prop :=
| ancestor_parent t node :
    h !! t = Some node -> parentTandem node = Some ancestor -> ancestorOf h ancestor t
| ancestor_further t node p :
    h !! t = Some node -> parentTandem node = Some p -> ancestorOf h ancestor p ->
    ancestorOf h ancestor t.

(** No DynamicTandem at [t] or above it. *)
Inductive staticPath (h : list TandemNode) : nat -> Prop :=
| static_root t node :
    h !! t = Some node -> parentTandem node = None -> tandemClass node <> DynamicTandem ->
    staticPath h t
| static_child t node p :
    h !! t = Some node -> parentTandem node = Some p -> tandemClass node <> DynamicTandem ->
    staticPath h p -> staticPath h t.

(** A change of a node that keeps its parent, its name and its phetioID. *)
Definition sameIdentity (f : TandemNode -> TandemNode) : Prop :=
  forall node, parentTandem (f node) = parentTandem node /\ name (f node) = name node /\
               phetioID (f node) = phetioID node.

(** The node a successful constructor call leaves at the end of the heap. *)
Definition constructed (cls : TandemClass) (parent : nat) (parentNode : TandemNode)
    (name : string) (options : Options) : TandemNode :=
  mkTandem cls (Some parent) name (append (phetioID parentNode) name) ∅
    (default true (optRequired options)) (default true (optSupplied options)) false.

Definition withChild (s : State) (cls : TandemClass) (t : nat) (node : TandemNode)
    (name : string) (options : Options) : State :=
  setHeap (<[t := setChildren (setChild name (length (heap s)) (children node)) node]> (heap s)
             ++ [constructed cls t node name options]) s.

(** The state [dispose] leaves: the entry is deleted from the parent, the
    node is flagged. *)
Definition disposed (s : State) (c : nat) (child : TandemNode) (p : nat) (parent : TandemNode)
  : State :=
  setHeap (<[c := setDisposed child]>
             (<[p := setChildren (delete (name child) (children parent)) parent]> (heap s))) s.

(** *** Scenarios *)

(** What the listeners hear when an object is removed after launch. *)
Definition removals (listeners : list nat) (o : PhetioObject) : list Delivery :=
  map (fun listener => RemovePhetioObject listener o) listeners.

(** Two listeners; the tandems root, root.general and root.general.model;
    one object on each of the two lower tandems, registered before launch. *)
Definition modelTree : State :=
  runTreeOps debugEnv
    [CallCreateTandem 0 "general" noOptions; CallCreateTandem 1 "model" noOptions] listeningState.
Definition generalObject : PhetioObject := mkPhetioObject 1 1.
Definition modelObject : PhetioObject := mkPhetioObject 2 2.
Definition registeredTree : State :=
  snd (registerAll debugEnv [generalObject; modelObject] modelTree).
Definition launchedTree : State := snd (launch debugEnv registeredTree).

(** A root that has the child "hasOwnProperty". *)
Definition shadowedRoot : State :=
  runTreeOps debugEnv [CallCreateTandem 0 "hasOwnProperty" noOptions] rootState.

(** An optional tandem that was not supplied, and a required one that was
    not supplied, under the root. *)
Definition optionalTree : State :=
  runTreeOps debugEnv
    [CallCreateTandem 0 "optionalTandem" (mkOptions (Some false) (Some false));
     CallCreateTandem 0 "requiredTandem" (mkOptions (Some true) (Some false))] rootState.

(** The tandems root, root.particleGroup, the dynamic element
    root.particleGroup.particle_0 and its child visibleProperty. *)
Definition groupTree : State :=
  runTreeOps debugEnv
    [CallCreateTandem 0 "particleGroup" noOptions;
     CallCreateDynamicElementTandem 1 "particle_0";
     CallCreateTandem 2 "visibleProperty" noOptions] rootState.

End TandemTree.

(** ** Scenarios on containers *)
Module ContainerScenarios.
Import Containers.



End ContainerScenarios.

(** ** Acceptable overrides (phetioAPIValidation.js) *)
Module Overrides.
Import APIValidation.

(** An entry of the overrides that [validateOverridesFile] passes over
    without an error: absent from the baseline where that is let through, or
    present with at least one metadata key and no key in violation. *)
Definition overrideAcceptable (env : Env) (entireBaseline : Schema)
    (entry : string * Metadata) : bool :=
  if negb (createArchetypes env) && negb (assocHas (fst entry) entireBaseline)
  then containsString Containers.DYNAMIC_ARCHETYPE_NAME (fst entry)
  else
    match assocGet (fst entry) entireBaseline with
    | None => false
    | Some baseline =>
        negb (Nat.eqb (length (snd entry)) 0) && negb (existsb (keyViolates baseline) (snd entry))
    end.

(** A baseline with one element, an override that changes one of its
    metadata values, and one that repeats the baseline's value. *)
Definition resistorBaseline : Schema :=
  [("ohmsLaw.ohmsLawScreen.model.resistanceProperty",
    [("phetioReadOnly", VBool false); ("phetioFeatured", VBool false)])].
Definition changingOverrides : Schema :=
  [("ohmsLaw.ohmsLawScreen.model.resistanceProperty", [("phetioFeatured", VBool true)])].
Definition repeatingOverrides : Schema :=
  [("ohmsLaw.ohmsLawScreen.model.resistanceProperty", [("phetioReadOnly", VBool false)])].

End Overrides.

(** * Properties *)

(** ** Running the state monad *)
Section MonadFacts.
Local Open Scope m_scope.

Lemma bindM_run {S A B} (m : M S A) (k : A -> M S B) s a s1 :
  m s = (Ok a, s1) -> bindM m k s = k a s1.
Proof. intros E. unfold bindM. rewrite E. reflexivity. Qed.

Lemma bindM_throw {S A B} (m : M S A) (k : A -> M S B) s e s1 :
  m s = (Throw e, s1) -> bindM m k s = (Throw e, s1).
Proof. intros E. unfold bindM. rewrite E. reflexivity. Qed.

Lemma bindM_Ok_inv {S A B} (m : M S A) (k : A -> M S B) s b s' :
  bindM m k s = (Ok b, s') -> exists a s1, m s = (Ok a, s1) /\ k a s1 = (Ok b, s').
Proof.
  unfold bindM. destruct (m s) as [[a|e] s1]; [eauto|discriminate].
Qed.

Lemma assertM_run {S} env cond msg (s : S) :
  assertM env cond msg s =
    (if assertEnabled env && negb cond then Throw (AssertionError msg) else Ok tt, s).
Proof. reflexivity. Qed.

Lemma assertM_true {S} env msg (s : S) : assertM env true msg s = (Ok tt, s).
Proof. rewrite assertM_run. rewrite andb_false_r. reflexivity. Qed.

Lemma assertM_Ok_inv {S} env cond msg (s s' : S) u :
  assertM env cond msg s = (Ok u, s') -> s' = s /\ assertM env cond msg s = (Ok tt, s).
Proof.
  rewrite assertM_run. destruct (assertEnabled env && negb cond); intros [= ]; subst; auto.
Qed.

Lemma when_assertM_pass {S} env (guard cond : bool) msg (s : S) :
  (guard = true -> assertEnabled env = true -> cond = true) ->
  when guard (assertM env cond msg) s = (Ok tt, s).
Proof.
  intros Hc. destruct guard; [|reflexivity]. cbn [when]. rewrite assertM_run.
  destruct (assertEnabled env); [|reflexivity]. rewrite (Hc eq_refl eq_refl). reflexivity.
Qed.

Lemma when_assertM_Ok_inv {S} env (guard cond : bool) msg (s s' : S) u :
  when guard (assertM env cond msg) s = (Ok u, s') -> s' = s.
Proof.
  destruct guard; cbn [when].
  - intros E. apply assertM_Ok_inv in E as [-> _]. reflexivity.
  - intros [= _ <-]. reflexivity.
Qed.

End MonadFacts.

(** ** Invariants of stateful calls *)
Section Preserves.
Context {S : Type} (P : S -> Prop).

(** [m] keeps the invariant [P], however it ends. *)
Definition preserves {A} (m : M S A) : Prop := forall s, P s -> P (snd (m s)).

Lemma preserves_ret {A} (a : A) : preserves (ret a).
Proof. intros s Hs; exact Hs. Qed.

Lemma preserves_throw {A} e : preserves (@throw S A e).
Proof. intros s Hs; exact Hs. Qed.

Lemma preserves_gets {A} (f : S -> A) : preserves (gets f).
Proof. intros s Hs; exact Hs. Qed.

Lemma preserves_liftR {A} (r : result A) : preserves (liftR r).
Proof. intros s Hs; exact Hs. Qed.

Lemma preserves_assertM env cond msg : preserves (assertM env cond msg).
Proof. intros s Hs; exact Hs. Qed.

Lemma preserves_modify (f : S -> S) : (forall s, P s -> P (f s)) -> preserves (modify f).
Proof. intros Hf s Hs; apply Hf; exact Hs. Qed.

Lemma preserves_bind {A B} (m : M S A) (k : A -> M S B) :
  preserves m -> (forall a, preserves (k a)) -> preserves (bindM m k).
Proof.
  intros Hm Hk s Hs. unfold bindM. specialize (Hm s Hs).
  destruct (m s) as [[a|e] s1]; cbn in *; [apply Hk; exact Hm|exact Hm].
Qed.

Lemma preserves_when (cond : bool) (m : M S unit) : preserves m -> preserves (when cond m).
Proof. intros Hm. destruct cond; [exact Hm|apply preserves_ret]. Qed.

End Preserves.

Ltac preserve_with tac :=
  repeat first
    [ solve [tac]
    | apply preserves_bind; [|intros ?]
    | apply preserves_ret | apply preserves_throw | apply preserves_gets
    | apply preserves_liftR | apply preserves_assertM | apply preserves_when
    | match goal with |- preserves _ (if ?b then _ else _) => destruct b end
    | match goal with |- preserves _ (match ?x with _ => _ end) => destruct x end ].



(** ** IO Types *)
Module IOTypesFacts.
Import IOTypes.
Local Open Scope js_scope.

(** The composite schema [{ a: NumberIO, b: StringIO }], declared by a type
    made with the constructor and, for comparison, carried by a type without
    a supertype (which the constructor never produces for a type with a
    schema: ObjectIO is the only root). *)
Definition abSchema : StateSchema :=
  CompositeSchema [("a", NumberIO.NumberIO); ("b", StringIO)] None.

Definition ABIO : IOType :=
  newIOType "ABIO" {|
    configSupertype := None;
    configValidator := fun _ => true;
    configStateSchema := Some abSchema;
    configToStateObject := None;
    configFromStateObject := None
  |}.

Definition rootABIO : IOType :=
  mkIOType "ABIO" None (fun _ => true) (Some abSchema) None None.

Definition stateAB : value := VObj [("a", VNum 1); ("b", VStr "hi")].
Definition stateABC : value := VObj [("a", VNum 1); ("b", VStr "hi"); ("c", VBool true)].
Definition stateA : value := VObj [("a", VNum 1)].

(** [Number.isFinite] *)
Definition isFiniteNumber (x : float) : bool :=
  negb (PrimFloat.eqb x infinity) && negb (PrimFloat.eqb x neg_infinity) && negb (is_nan x).

Lemma nan_not_eqb (x y : float) : is_nan x = true -> PrimFloat.eqb x y = false.
Proof.
  unfold is_nan. rewrite !FloatAxioms.eqb_spec. intros Hn.
  destruct (Prim2SF x) as [s| s | |s m e] eqn:E; simpl in *.
  - destruct s; discriminate.
  - destruct s; discriminate.
  - reflexivity.
  - exfalso. unfold SFeqb, SFcompare in Hn.
    rewrite Z.compare_refl in Hn.
    change (PosDef.Pos.compare_cont Eq m m) with (Pos.compare m m) in Hn.
    rewrite Pos.compare_refl in Hn. destruct s; discriminate.
Qed.

Lemma env_cases (P : Env -> Prop) :
  (forall v c s a k, P (mkEnv true true v c s a k)) ->
  (forall v c s a k, P (mkEnv true false v c s a k)) ->
  (forall v c s a k, P (mkEnv false true v c s a k)) ->
  (forall v c s a k, P (mkEnv false false v c s a k)) ->
  forall env, P env.
Proof. intros H1 H2 H3 H4 [[] [] v c s a k]; auto. Qed.

Ltac by_env := intros env; pattern env; apply env_cases; intros; reflexivity.

(** Every type the constructor makes has a supertype. *)
Lemma newIOType_has_supertype (name : string) (config : Config) :
  exists super, supertype (newIOType name config) = Some super.
Proof. eexists; reflexivity. Qed.

(** C1 (the code departs from the claim): for the composite schema
    [{ a: NumberIO, b: StringIO }] declared by a type made with the
    constructor, the state object [{ a: 1, b: "hi", c: true }] with the
    undeclared key [c] is accepted, in every build, like [{ a: 1, b: "hi" }];
    the walk to the root stops at a composite schema, so the closed-world
    check is not reached. A missing declared key is rejected. The same schema
    on a type without supertype would reject the extra key. *)
Theorem C1_extra_key_accepted_below_root :
  (forall env, isStateObjectValid env ABIO stateABC false [] [] = Ok true) /\
  (forall env, isStateObjectValid env ABIO stateAB false [] [] = Ok true) /\
  supertype ABIO = Some ObjectIO /\
  hasCompositeSchema ABIO = true /\
  isStateObjectValid productionEnv ABIO stateA false [] [] = Ok false /\
  isOk (isStateObjectValid debugEnv ABIO stateA false [] []) = false /\
  (forall env, isStateObjectValid env rootABIO stateABC false [] [] = Ok false) /\
  (forall env, isStateObjectValid env rootABIO stateAB false [] [] = Ok true).
Proof.
  repeat split; try reflexivity; by_env.
Qed.

(** C7: NumberIO writes the two infinities as their sentinel strings and
    every finite number as itself; reading back what was written gives the
    number that was written, the infinities included; [toStateObject( 5 )]
    is [5]. [toStateObject] is the function installed on the type (with its
    validation), in every build. *)
Theorem C7_NumberIO_round_trip :
  (forall env, toStateObject env NumberIO.NumberIO (VNum infinity) = Ok (VStr "POSITIVE_INFINITY")) /\
  (forall env, toStateObject env NumberIO.NumberIO (VNum neg_infinity) = Ok (VStr "NEGATIVE_INFINITY")) /\
  (forall env x, isFiniteNumber x = true ->
     toStateObject env NumberIO.NumberIO (VNum x) = Ok (VNum x) /\
     fromStateObject NumberIO.NumberIO (VNum x) = Ok (VNum x)) /\
  (forall env,
     (written <- toStateObject env NumberIO.NumberIO (VNum infinity) ;;
      fromStateObject NumberIO.NumberIO written) = Ok (VNum infinity)) /\
  (forall env,
     (written <- toStateObject env NumberIO.NumberIO (VNum neg_infinity) ;;
      fromStateObject NumberIO.NumberIO written) = Ok (VNum neg_infinity)) /\
  (forall env, toStateObject env NumberIO.NumberIO (VNum 5) = Ok (VNum 5)) /\
  strictEq (NumberIO.fromStateObject (NumberIO.toStateObject (VNum infinity))) (VNum infinity) = true /\
  strictEq (NumberIO.fromStateObject (NumberIO.toStateObject (VNum neg_infinity))) (VNum neg_infinity) = true /\
  strictEq (NumberIO.toStateObject (VNum 5)) (VNum 5) = true.
Proof.
  split; [by_env|]. split; [by_env|].
  split.
  { intros env x Hfin. unfold isFiniteNumber in Hfin.
    apply andb_prop in Hfin as [Hfin Hnan]. apply andb_prop in Hfin as [Hp Hn].
    apply negb_true_iff in Hp, Hn, Hnan.
    split; [|reflexivity].
    cbn. unfold validate, jsAssert, NumberIO.toStateObject, NumberIO.isValidValue. cbn.
    rewrite Hp, Hn, Hnan. cbn.
    destruct (assertEnabled env); reflexivity. }
  split; [by_env|]. split; [by_env|]. split; [by_env|].
  repeat split; reflexivity.
Qed.

(** C10: the schema of NumberIO accepts exactly the two sentinel strings and
    the numbers that are not NaN. [toStateObject] of the config passes NaN
    through unchanged, and the schema rejects it: validation answers false,
    and the [toStateObject] installed on the type, which validates what it
    produced when assertions are enabled, throws there and returns NaN
    otherwise. *)
Theorem C10_NumberIO_schema_rejects_NaN :
  (forall v, NumberIO.isValidValue v = true <->
     (v = VStr "POSITIVE_INFINITY" \/ v = VStr "NEGATIVE_INFINITY" \/
      exists x, v = VNum x /\ is_nan x = false)) /\
  stateSchema NumberIO.NumberIO = Some (ValueSchema "'POSITIVE_INFINITY'|'NEGATIVE_INFINITY'|number" NumberIO.isValidValue) /\
  (forall x, is_nan x = true ->
     NumberIO.toStateObject (VNum x) = VNum x /\
     NumberIO.isValidValue (NumberIO.toStateObject (VNum x)) = false /\
     (forall env, assertEnabled env = false ->
        toStateObject env NumberIO.NumberIO (VNum x) = Ok (VNum x) /\
        isStateObjectValid env NumberIO.NumberIO (VNum x) false [] [] = Ok false) /\
     (forall env, assertEnabled env = true ->
        isOk (toStateObject env NumberIO.NumberIO (VNum x)) = false /\
        isStateObjectValid env NumberIO.NumberIO (VNum x) false [] [] = Ok false)) /\
  is_nan nan = true.
Proof.
  split.
  { intros v; split.
    - unfold NumberIO.isValidValue. intros Hv.
      destruct v as [| |b|x|s|l|l]; cbn in Hv; try discriminate.
      + right; right. exists x. split; [reflexivity|].
        apply negb_true_iff in Hv. exact Hv.
      + apply orb_prop in Hv as [Hv|Hv]; [|discriminate].
        apply orb_prop in Hv as [Hv|Hv]; apply String.eqb_eq in Hv; subst; auto.
    - intros [->|[->|[x [-> Hx]]]]; try reflexivity.
      unfold NumberIO.isValidValue; cbn. rewrite Hx. reflexivity. }
  split; [reflexivity|].
  split; [|reflexivity].
  intros x Hx.
  assert (Hto : NumberIO.toStateObject (VNum x) = VNum x).
  { unfold NumberIO.toStateObject; cbn. rewrite !(nan_not_eqb x) by exact Hx. reflexivity. }
  assert (Hval : NumberIO.isValidValue (VNum x) = false).
  { unfold NumberIO.isValidValue; cbn. rewrite Hx. reflexivity. }
  split; [exact Hto|]. split; [rewrite Hto; exact Hval|].
  split; intros env Henv; cbn;
    unfold validate, jsAssert, NumberIO.toStateObject, NumberIO.isValidValue; cbn;
    rewrite ?(nan_not_eqb x) by exact Hx; rewrite ?Hx, ?Henv; cbn;
    rewrite ?Hx, ?Henv; split; reflexivity.
Qed.

End IOTypesFacts.

(** ** The naming tree *)
Module TandemFacts.
Import Tandem.
Local Open Scope m_scope.

Lemma getNode_run s t node : heap s !! t = Some node -> getNode t s = (Ok node, s).
Proof. intros E. unfold getNode. rewrite E. reflexivity. Qed.

Lemma getNode_Ok_inv s t node s' : getNode t s = (Ok node, s') -> s' = s /\ heap s !! t = Some node.
Proof. unfold getNode. destruct (heap s !! t); intros [= ]; subst; auto. Qed.

Lemma hasOwnChild_Ok {A} (c : gmap string A) nm :
  c !! "hasOwnProperty" = None -> hasOwnChild c nm = Ok (isSome (c !! nm)).
Proof. intros E. unfold hasOwnChild. rewrite E. reflexivity. Qed.

Lemma hasOwnChild_Ok_inv {A} (c : gmap string A) nm b :
  hasOwnChild c nm = Ok b -> c !! "hasOwnProperty" = None /\ b = isSome (c !! nm).
Proof.
  unfold hasOwnChild. destruct (c !! "hasOwnProperty"); cbn; [discriminate|].
  intros [= <-]. split; reflexivity.
Qed.

Lemma hasOwnChild_shadowed {A} (c : gmap string A) nm x :
  c !! "hasOwnProperty" = Some x ->
  hasOwnChild c nm = Throw (TypeError "this.children.hasOwnProperty is not a function").
Proof. intros E. unfold hasOwnChild. rewrite E. reflexivity. Qed.

Lemma setChild_lookup_ne {A} nm k (x : A) (c : gmap string A) :
  k <> nm -> setChild nm x c !! k = c !! k.
Proof.
  intros Hk. unfold setChild. destruct (String.eqb nm "__proto__"); [reflexivity|].
  apply lookup_insert_ne. congruence.
Qed.

Lemma delete_setChild {A} nm (x : A) (c : gmap string A) :
  c !! nm = None -> delete nm (setChild nm x c) = c.
Proof.
  intros Hc. unfold setChild. destruct (String.eqb nm "__proto__").
  - apply delete_id. exact Hc.
  - apply delete_insert_id. exact Hc.
Qed.

Lemma setChild_insert {A} nm (x : A) (c : gmap string A) :
  nm <> "__proto__" -> setChild nm x c = <[nm := x]> c.
Proof.
  intros Hnm. unfold setChild.
  destruct (String.eqb nm "__proto__") eqn:E; [apply String.eqb_eq in E; contradiction|reflexivity].
Qed.

Lemma hasChild_run s t node nm :
  heap s !! t = Some node -> hasChild t nm s = (hasOwnChild (children node) nm, s).
Proof. intros E. unfold hasChild. rewrite (bindM_run _ _ _ _ _ (getNode_run _ _ _ E)). reflexivity. Qed.

Lemma hasChild_Ok s t node nm :
  heap s !! t = Some node -> children node !! "hasOwnProperty" = None ->
  hasChild t nm s = (Ok (isSome (children node !! nm)), s).
Proof. intros E Hown. rewrite (hasChild_run _ _ _ _ E), (hasOwnChild_Ok _ _ Hown). reflexivity. Qed.

Lemma createTandemBase_existing env s t name options node c child :
  heap s !! t = Some node ->
  children node !! "hasOwnProperty" = None ->
  children node !! name = Some c ->
  heap s !! c = Some child ->
  createTandemBase env t name options s =
    (a1 <- assertM env (bool_decide (Some (required child) = optRequired (getExtendedOptions node options)))
          "currentChild.required === options.required" ;;
     a2 <- assertM env (bool_decide (Some (supplied child) = optSupplied (getExtendedOptions node options)))
          "currentChild.supplied === options.supplied" ;;
     ret c) s.
Proof.
  intros Ht Hown Hc Hchild. unfold createTandemBase.
  rewrite (bindM_run _ _ _ _ _ (getNode_run _ _ _ Ht)).
  rewrite (bindM_run _ _ _ _ _ (hasChild_Ok _ _ _ _ Ht Hown)).
  rewrite Hc. cbn [isSome].
  rewrite (bindM_run _ _ _ _ _ (getNode_run _ _ _ Hchild)). reflexivity.
Qed.

Lemma createTandemBase_new env s t name options node c s' :
  heap s !! t = Some node ->
  children node !! name = None ->
  createTandemBase env t name options s = (Ok c, s') ->
  children node !! "hasOwnProperty" = None /\
  c = length (heap s) /\
  heap s' !! t = Some (setChildren (setChild name c (children node)) node) /\
  heap s' !! c = Some (mkTandem PlainTandem (Some t) name (append (phetioID node) name) ∅
                         (default (required node) (optRequired options))
                         (default (supplied node) (optSupplied options)) false) /\
  length (heap s') = S (length (heap s)) /\
  (forall i, i <> t -> i < length (heap s) -> heap s' !! i = heap s !! i) /\
  s' = setHeap (heap s') s.
Proof.
  intros Ht Hc H.
  assert (Hlt : t < length (heap s)) by (eapply lookup_lt_Some; eauto).
  destruct (children node !! "hasOwnProperty") as [shadow|] eqn:Hown.
  { unfold createTandemBase in H.
    rewrite (bindM_run _ _ _ _ _ (getNode_run _ _ _ Ht)) in H.
    unfold bindM in H. rewrite (hasChild_run _ _ _ _ Ht) in H.
    rewrite (hasOwnChild_shadowed _ _ _ Hown) in H. discriminate H. }
  split; [reflexivity|].
  cbv [createTandemBase newTandem bindM getNode hasChild hasOwnChild addChild updateNode gets modify
       ret throw when assertM liftR jsAssert] in H.
  repeat (progress (cbn [heap setHeap isSome negb andb] in H;
                    rewrite ?andb_false_r, ?Ht, ?Hc, ?Hown, ?(lookup_app_l _ _ _ Hlt) in H)).
  destruct (assertEnabled env);
  repeat (progress (cbn [heap setHeap isSome negb andb] in H;
                    rewrite ?andb_false_r, ?Ht, ?Hc, ?Hown, ?(lookup_app_l _ _ _ Hlt) in H));
  repeat match type of H with
   | context [if ?b then Throw _ else Ok _] => destruct b; [discriminate H|]
   end;
  injection H as <- <-;
  cbn [heap setHeap];
  set (new0 := mkTandem PlainTandem (Some t) name (append (phetioID node) name) ∅ true true false);
  assert (Hlen : length (heap s ++ [new0]) = S (length (heap s)))
    by (rewrite length_app; cbn; lia).
  all: split; [reflexivity|].
  all: split;
    [rewrite list_lookup_alter_ne by lia;
     rewrite list_lookup_alter_eq; rewrite lookup_app_l by exact Hlt; rewrite Ht; reflexivity|].
  all: split;
    [rewrite list_lookup_alter_eq; rewrite list_lookup_alter_ne by lia;
     rewrite lookup_app_r by lia; rewrite Nat.sub_diag; reflexivity|].
  all: split; [rewrite !length_alter; exact Hlen|].
  all: split;
    [intros i Hi Hil; rewrite list_lookup_alter_ne by lia; rewrite list_lookup_alter_ne by lia;
     rewrite lookup_app_l by lia; reflexivity|].
  all: reflexivity.
Qed.

Lemma createTandemBase_unchanged env s t name options node c :
  heap s !! t = Some node ->
  children node !! name = Some c ->
  snd (createTandemBase env t name options s) = s.
Proof.
  intros Ht Hc.
  cbv [createTandemBase newTandem bindM getNode hasChild hasOwnChild addChild updateNode gets modify
       ret throw when assertM liftR jsAssert].
  repeat (progress (cbn [heap setHeap isSome negb andb]; rewrite ?Ht, ?Hc)).
  destruct (children node !! "hasOwnProperty"); cbn [isSome]; [reflexivity|].
  rewrite ?Hc. cbn [isSome].
  destruct (heap s !! c); [|reflexivity].
  repeat match goal with
   | |- context [if ?b then Throw _ else Ok _] => destruct b
   end; reflexivity.
Qed.

Lemma createTandem_unfold env s t name options node :
  heap s !! t = Some node ->
  createTandem env t name options s =
    if match tandemClass node with RootTandem => VALIDATION env && assertEnabled env && negb (allowedOnRoot name) | _ => false end
    then (Throw (AssertionError "tandem name not allowed on root"), s)
    else createTandemBase env t name options s.
Proof.
  intros Ht. unfold createTandem.
  rewrite (bindM_run _ _ _ _ _ (getNode_run _ _ _ Ht)).
  destruct (tandemClass node); try reflexivity.
  cbv [when bindM assertM liftR jsAssert ret]. fold (allowedOnRoot name).
  destruct (VALIDATION env), (assertEnabled env), (allowedOnRoot name); reflexivity.
Qed.

Lemma createTandemBase_new_regex env s t name options node c s' :
  heap s !! t = Some node ->
  children node !! name = None ->
  createTandemBase env t name options s = (Ok c, s') ->
  assertEnabled env = true ->
  termRegexTest PlainTandem name = true.
Proof.
  intros Ht Hc H Ha.
  destruct (termRegexTest PlainTandem name) eqn:Hre; [reflexivity|exfalso].
  unfold createTandemBase in H.
  rewrite (bindM_run _ _ _ _ _ (getNode_run _ _ _ Ht)) in H.
  unfold bindM at 1 in H. rewrite (hasChild_run _ _ _ _ Ht) in H.
  unfold hasOwnChild in H. destruct (children node !! "hasOwnProperty"); cbn [isSome] in H;
    [discriminate H|].
  rewrite Hc in H. cbn [isSome] in H.
  cbv [newTandem bindM assertM liftR jsAssert] in H. rewrite Ha, Hre in H. cbn in H.
  discriminate H.
Qed.

(** The two names that the children object does not keep like the others: a
    call that made the child "hasOwnProperty" cannot be repeated, in any
    build; and without assertions the child "__proto__" is made anew by every
    call. *)
Lemma createTandem_hasOwnProperty_twice env :
  exists s1,
    createTandem env 0 "hasOwnProperty" requiredSupplied rootState = (Ok 1, s1) /\
    createTandem env 0 "hasOwnProperty" requiredSupplied s1 =
      (Throw (TypeError "this.children.hasOwnProperty is not a function"), s1).
Proof.
  exists (snd (createTandem env 0 "hasOwnProperty" requiredSupplied rootState)).
  destruct env as [a p v c st al k]. destruct a; split; vm_compute; reflexivity.
Qed.

Lemma createTandem_proto_twice env :
  assertEnabled env = false ->
  exists s1 s2,
    createTandem env 0 "__proto__" requiredSupplied rootState = (Ok 1, s1) /\
    createTandem env 0 "__proto__" requiredSupplied s1 = (Ok 2, s2).
Proof.
  intros Ha.
  exists (snd (createTandem env 0 "__proto__" requiredSupplied rootState)).
  exists (snd (createTandem env 0 "__proto__" requiredSupplied
                 (snd (createTandem env 0 "__proto__" requiredSupplied rootState)))).
  destruct env as [a p v c st al k]. cbn in Ha. subst a. split; vm_compute; reflexivity.
Qed.

Lemma createTandem_again env s t name options c s' :
  name <> "hasOwnProperty" ->
  (assertEnabled env = false -> name <> "__proto__") ->
  createTandem env t name options s = (Ok c, s') ->
  createTandem env t name options s' = (Ok c, s') /\
  exists node child,
    heap s' !! t = Some node /\ children node !! name = Some c /\ heap s' !! c = Some child /\
    (forall node0, heap s !! t = Some node0 -> children node0 !! name = None ->
       phetioID child = append (phetioID node0) name /\ parentTandem child = Some t) /\
    forall options',
      assertEnabled env = true ->
      (default (required node) (optRequired options') <> required child \/
       default (supplied node) (optSupplied options') <> supplied child) ->
      exists message, createTandem env t name options' s' = (Throw (AssertionError message), s').
Proof.
  intros Hname Hproto H.
  destruct (heap s !! t) as [node|] eqn:Ht.
  2:{ unfold createTandem, bindM, getNode in H. rewrite Ht in H. discriminate. }
  rewrite (createTandem_unfold _ _ _ _ _ _ Ht) in H.
  destruct (match tandemClass node with RootTandem => _ | _ => false end) eqn:Hroot; [discriminate|].
  assert (Hex : exists node' child,
            heap s' !! t = Some node' /\ children node' !! "hasOwnProperty" = None /\
            children node' !! name = Some c /\
            heap s' !! c = Some child /\
            (children node !! name = None ->
               phetioID child = append (phetioID node) name /\ parentTandem child = Some t) /\
            tandemClass node' = tandemClass node /\
            createTandemBase env t name options s' = (Ok c, s')).
  { destruct (children node !! name) as [c0|] eqn:Hc.
    - pose proof (createTandemBase_unchanged env s t name options node c0 Ht Hc) as Hs.
      rewrite H in Hs. cbn in Hs. subst s'.
      destruct (children node !! "hasOwnProperty") as [shadow|] eqn:Hown.
      { exfalso. unfold createTandemBase in H.
        rewrite (bindM_run _ _ _ _ _ (getNode_run _ _ _ Ht)) in H.
        unfold bindM in H. rewrite (hasChild_run _ _ _ _ Ht) in H.
        rewrite (hasOwnChild_shadowed _ _ _ Hown) in H. discriminate H. }
      destruct (heap s !! c0) as [child|] eqn:Hchild.
      + exists node, child.
        rewrite (createTandemBase_existing _ _ _ _ _ _ _ _ Ht Hown Hc Hchild) in H.
        assert (c = c0).
        { cbv [bindM assertM liftR jsAssert ret] in H.
          repeat match type of H with
                 | context [if ?b then Throw _ else Ok _] => destruct b; [discriminate H|]
                 end.
          congruence. }
        subst c0. split; [assumption|]. split; [assumption|]. split; [assumption|].
        split; [assumption|].
        split; [intros; congruence|]. split; [reflexivity|].
        rewrite (createTandemBase_existing _ _ _ _ _ _ _ _ Ht Hown Hc Hchild). exact H.
      + exfalso. cbv [createTandemBase bindM getNode hasChild hasOwnChild liftR ret throw] in H.
        repeat (progress (cbn [isSome] in H; rewrite ?Ht, ?Hown, ?Hc, ?Hchild in H)). discriminate.
    - assert (Hnp : name <> "__proto__").
      { destruct (assertEnabled env) eqn:Ha; [|apply Hproto; reflexivity].
        pose proof (createTandemBase_new_regex _ _ _ _ _ _ _ _ Ht Hc H Ha) as Hre.
        intros ->. vm_compute in Hre. discriminate Hre. }
      destruct (createTandemBase_new _ _ _ _ _ _ _ _ Ht Hc H)
        as (Hown & -> & Ht' & Hc' & Hlen & Hother & Hs').
      rewrite (setChild_insert _ _ _ Hnp) in Ht'.
      assert (Hown' : children (setChildren (<[name := length (heap s)]> (children node)) node)
                        !! "hasOwnProperty" = None).
      { cbn. rewrite lookup_insert_ne by exact Hname. exact Hown. }
      eexists _, _. split; [exact Ht'|]. split; [exact Hown'|].
      split; [cbn; apply lookup_insert_eq|].
      split; [exact Hc'|]. split; [intros _; split; reflexivity|]. split; [reflexivity|].
      rewrite (createTandemBase_existing _ _ _ _ _ _ _ _ Ht' Hown' (lookup_insert_eq _ _ _) Hc').
      cbn. cbv [bindM assertM liftR jsAssert ret].
      rewrite !bool_decide_eq_true_2 by reflexivity.
      rewrite !andb_false_r. reflexivity. }
  destruct Hex as (node' & child & Ht' & Hown' & Hc' & Hchild' & Hpath & Hcls & Hagain).
  split.
  { rewrite (createTandem_unfold _ _ _ _ _ _ Ht'). rewrite Hcls, Hroot. exact Hagain. }
  exists node', child. split; [assumption|]. split; [assumption|]. split; [assumption|].
  split. { intros node0 Ht0 Hc0. injection Ht0 as <-. exact (Hpath Hc0). }
  intros options' Hassert Hdiff.
  rewrite (createTandem_unfold _ _ _ _ _ _ Ht'). rewrite Hcls, Hroot.
  rewrite (createTandemBase_existing _ _ _ _ _ _ _ _ Ht' Hown' Hc' Hchild').
  cbv [bindM assertM liftR jsAssert ret getExtendedOptions].
  cbn [optRequired optSupplied]. rewrite Hassert. cbn [andb].
  destruct (bool_decide (Some (required child) = Some (default (required node') (optRequired options')))) eqn:E1.
  - apply bool_decide_eq_true_1 in E1. injection E1 as E1.
    destruct (bool_decide (Some (supplied child) = Some (default (supplied node') (optSupplied options')))) eqn:E2.
    + apply bool_decide_eq_true_1 in E2. injection E2 as E2.
      exfalso. destruct Hdiff as [Hd|Hd]; apply Hd; congruence.
    + cbn. eexists; reflexivity.
  - cbn. eexists; reflexivity.
Qed.

(** C3 (the code departs from the claim): [createTandem] means to hand back
    the child that exists under a name, and does so for every name but two.
    [hasChild] asks [this.children.hasOwnProperty( name )], and [children] is
    keyed by the names themselves: once the child "hasOwnProperty" is made (a
    name the term regex accepts), the call on [children] finds the child in
    place of the method, and the second [createTandem] is a TypeError, in
    every build. Without assertions the name "__proto__" is accepted too, is
    never kept as an own property, and every call makes another node. For
    every other name: a call that returned a node, repeated with the same
    options, returns the same node and leaves the tree as it is; the node is
    the child registered under that name, and when the first call made it, its
    phetioID is the parent's phetioID, the separator and the name; and with
    assertions enabled, a further call whose required or supplied flag (after
    inheriting the parent's) differs from the child's fails its assertion. *)
Theorem C3_createTandem_idempotent :
  (forall env, exists s1,
     createTandem env 0 "hasOwnProperty" requiredSupplied rootState = (Ok 1, s1) /\
     createTandem env 0 "hasOwnProperty" requiredSupplied s1 =
       (Throw (TypeError "this.children.hasOwnProperty is not a function"), s1)) /\
  (forall env, assertEnabled env = false -> exists s1 s2,
     createTandem env 0 "__proto__" requiredSupplied rootState = (Ok 1, s1) /\
     createTandem env 0 "__proto__" requiredSupplied s1 = (Ok 2, s2)) /\
  (forall env s t name options c s',
     name <> "hasOwnProperty" ->
     (assertEnabled env = false -> name <> "__proto__") ->
     createTandem env t name options s = (Ok c, s') ->
     createTandem env t name options s' = (Ok c, s') /\
     exists node child,
       heap s' !! t = Some node /\ children node !! name = Some c /\ heap s' !! c = Some child /\
       (forall node0, heap s !! t = Some node0 -> children node0 !! name = None ->
          phetioID child = append (phetioID node0) name /\ parentTandem child = Some t) /\
       forall options',
         assertEnabled env = true ->
         (default (required node) (optRequired options') <> required child \/
          default (supplied node) (optSupplied options') <> supplied child) ->
         exists message, createTandem env t name options' s' = (Throw (AssertionError message), s')).
Proof.
  split; [exact createTandem_hasOwnProperty_twice|].
  split; [exact createTandem_proto_twice|].
  exact createTandem_again.
Qed.

(** The scenario of C3: [createTandem( "x", { required: true, supplied: true } )]
    on a root, again with the same flags, then with [required: false]. *)
Lemma C3_name_collision_witness :
  exists s1,
    createTandem debugEnv 0 "x" requiredSupplied rootState = (Ok 1, s1) /\
    createTandem debugEnv 0 "x" requiredSupplied s1 = (Ok 1, s1) /\
    exists message,
      createTandem debugEnv 0 "x" optionalSupplied s1 = (Throw (AssertionError message), s1).
Proof.
  exists (snd (createTandem debugEnv 0 "x" requiredSupplied rootState)).
  assert (H : createTandem debugEnv 0 "x" requiredSupplied rootState =
              (Ok 1, snd (createTandem debugEnv 0 "x" requiredSupplied rootState)))
    by (vm_compute; reflexivity).
  split; [exact H|].
  destruct C3_createTandem_idempotent as (_ & _ & Hgeneral).
  destruct (Hgeneral debugEnv _ _ "x" _ _ _ ltac:(discriminate) ltac:(discriminate) H)
    as (Hagain & node & child & Hnode & _ & Hchild & _ & Hmismatch).
  split; [exact Hagain|].
  apply Hmismatch; [reflexivity|].
  left. vm_compute in Hnode, Hchild.
  injection Hnode as <-. injection Hchild as <-. cbn. discriminate.
Defined.

Ltac tandem_run :=
  cbv [addPhetioObject notifyListeners launch bindM getNode gets modify ret throw when assertM liftR jsAssert].

Lemma addPhetioObject_buffered env s o :
  PHET_IO_ENABLED env = true -> launched s = false -> instrumentedIn (heap s) o ->
  addPhetioObject env (tandem o) o s = (Ok tt, setBuffered (bufferedPhetioObjects s ++ [o]) s).
Proof.
  intros Hio Hl (node & Hn & Hs). tandem_run.
  destruct (VALIDATION env);
  repeat (progress (cbv beta iota zeta; rewrite ?Hio, ?Hn, ?Hs, ?Hl, ?andb_false_r; cbn [negb andb orb]));
  reflexivity.
Qed.

Lemma addPhetioObject_launched env s o :
  PHET_IO_ENABLED env = true -> launched s = true -> instrumentedIn (heap s) o ->
  addPhetioObject env (tandem o) o s =
    (Ok tt, addDelivered (deliveries (phetioObjectListeners s) o) s).
Proof.
  intros Hio Hl (node & Hn & Hs). tandem_run.
  destruct (VALIDATION env);
  repeat (progress (cbv beta iota zeta; rewrite ?Hio, ?Hn, ?Hs, ?Hl, ?andb_false_r; cbn [negb andb orb]));
  reflexivity.
Qed.

Lemma registerAll_buffers env objs : forall s,
  PHET_IO_ENABLED env = true -> launched s = false -> Forall (instrumentedIn (heap s)) objs ->
  registerAll env objs s = (Ok tt, setBuffered (bufferedPhetioObjects s ++ objs) s).
Proof.
  induction objs as [|o objs IH]; intros s Hio Hl Hall.
  - cbn. unfold ret. rewrite app_nil_r. destruct s; reflexivity.
  - apply Forall_cons in Hall as [Ho Hrest]. cbn [registerAll].
    rewrite (bindM_run _ _ _ _ _ (addPhetioObject_buffered _ _ _ Hio Hl Ho)).
    rewrite IH; [|assumption|assumption|exact Hrest].
    cbn. rewrite <- app_assoc. reflexivity.
Qed.

Lemma launchLoop_flushes env objs : forall s fuel,
  PHET_IO_ENABLED env = true -> launched s = true ->
  bufferedPhetioObjects s = objs -> Forall (instrumentedIn (heap s)) objs ->
  length objs <= fuel ->
  launchLoop env fuel s =
    (Ok tt, addDelivered (fanOut (phetioObjectListeners s) objs) (setBuffered [] s)).
Proof.
  induction objs as [|o objs IH]; intros s fuel Hio Hl Hb Hall Hfuel.
  - destruct fuel; cbn; cbv [bindM gets ret]; rewrite Hb; cbn;
      unfold addDelivered, setBuffered; cbn; rewrite app_nil_r; destruct s; cbn in *; subst; reflexivity.
  - destruct fuel as [|fuel]; [cbn in Hfuel; lia|].
    apply Forall_cons in Hall as [Ho Hrest].
    cbn [launchLoop]. cbv [bindM gets modify]. rewrite Hb.
    set (s1 := setBuffered objs s).
    assert (E : addPhetioObject env (tandem o) o s1 =
                (Ok tt, addDelivered (deliveries (phetioObjectListeners s1) o) s1)).
    { apply addPhetioObject_launched; [assumption|exact Hl|exact Ho]. }
    rewrite E.
    rewrite IH; [|assumption|exact Hl|reflexivity|exact Hrest|cbn in Hfuel; lia].
    unfold addDelivered, setBuffered, fanOut; cbn. rewrite <- app_assoc. reflexivity.
Qed.

(** C4: with PhET-iO enabled, objects registered before [launch] (each
    through its own supplied tandem) pile up in the buffer in arrival order
    and no listener is called; [launch] then calls every listener once per
    buffered object, objects in arrival order, and empties the buffer; an
    object registered afterwards is delivered to every listener at once; and
    with assertions enabled a second [launch] fails its assertion. *)
Theorem C4_buffered_launch env s objs later :
  PHET_IO_ENABLED env = true ->
  launched s = false ->
  bufferedPhetioObjects s = [] ->
  Forall (instrumentedIn (heap s)) objs ->
  instrumentedIn (heap s) later ->
  exists s1 s2 s3,
    registerAll env objs s = (Ok tt, s1) /\
    delivered s1 = delivered s /\
    bufferedPhetioObjects s1 = objs /\
    launch env s1 = (Ok tt, s2) /\
    delivered s2 = delivered s ++ fanOut (phetioObjectListeners s) objs /\
    bufferedPhetioObjects s2 = [] /\
    launched s2 = true /\
    addPhetioObject env (tandem later) later s2 = (Ok tt, s3) /\
    delivered s3 = delivered s2 ++ deliveries (phetioObjectListeners s) later /\
    bufferedPhetioObjects s3 = [] /\
    (assertEnabled env = true ->
     launch env s2 = (Throw (AssertionError "Tandem cannot be launched twice"), s2)).
Proof.
  intros Hio Hl Hb Hall Hlater.
  pose proof (registerAll_buffers env objs s Hio Hl Hall) as Hreg.
  rewrite Hb in Hreg. cbn [app] in Hreg.
  set (s1 := setBuffered objs s) in *.
  set (s2 := addDelivered (fanOut (phetioObjectListeners s) objs) (setBuffered [] (setLaunched true s1))).
  assert (Hlaunch : launch env s1 = (Ok tt, s2)).
  { unfold launch. cbv [bindM gets modify assertM liftR jsAssert].
    change (launched s1) with (launched s). rewrite Hl. cbn [negb]. rewrite andb_false_r.
    erewrite (launchLoop_flushes env objs);
      [|assumption|reflexivity|reflexivity|exact Hall|cbn; lia].
    cbn. rewrite andb_false_r. reflexivity. }
  exists s1, s2, (addDelivered (deliveries (phetioObjectListeners s2) later) s2).
  split; [exact Hreg|]. split; [reflexivity|]. split; [reflexivity|].
  split; [exact Hlaunch|]. split; [reflexivity|]. split; [reflexivity|]. split; [reflexivity|].
  split; [apply addPhetioObject_launched; [assumption|reflexivity|exact Hlater]|].
  split; [reflexivity|]. split; [reflexivity|].
  intros Ha. unfold launch. cbv [bindM gets modify assertM liftR jsAssert].
  rewrite Ha. reflexivity.
Qed.

(** The scenario of C4: three objects registered before launch with two
    listeners, and a fourth after it. *)
Lemma C4_buffered_launch_witness :
  exists s1 s2 s3,
    registerAll debugEnv threeObjects listeningState = (Ok tt, s1) /\
    delivered s1 = delivered listeningState /\
    bufferedPhetioObjects s1 = threeObjects /\
    launch debugEnv s1 = (Ok tt, s2) /\
    delivered s2 =
      delivered listeningState ++ fanOut (phetioObjectListeners listeningState) threeObjects /\
    bufferedPhetioObjects s2 = [] /\
    launched s2 = true /\
    addPhetioObject debugEnv (tandem fourthObject) fourthObject s2 = (Ok tt, s3) /\
    delivered s3 = delivered s2 ++ deliveries (phetioObjectListeners listeningState) fourthObject /\
    bufferedPhetioObjects s3 = [] /\
    (assertEnabled debugEnv = true ->
     launch debugEnv s2 = (Throw (AssertionError "Tandem cannot be launched twice"), s2)).
Proof.
  apply (C4_buffered_launch debugEnv listeningState threeObjects fourthObject);
    try reflexivity.
  - repeat constructor; eexists; split; reflexivity.
  - eexists; split; reflexivity.
Defined.

End TandemFacts.

(** ** Strings *)
Module StringFacts.

Lemma substring_whole (s : string) : String.substring 0 (String.length s) s = s.
Proof. induction s as [|c s IH]; cbn; [reflexivity|]. f_equal. exact IH. Qed.

Lemma substring_append_suffix (p suffix : string) :
  String.substring (String.length p) (String.length suffix) (p +:+ suffix) = suffix.
Proof.
  induction p as [|c p IH].
  - change ("" +:+ suffix) with suffix. apply substring_whole.
  - change (String c p +:+ suffix) with (String c (p +:+ suffix)). cbn. exact IH.
Qed.

Lemma length_append (p q : string) :
  String.length (p +:+ q) = String.length p + String.length q.
Proof.
  induction p as [|c p IH]; [reflexivity|].
  change (String c p +:+ q) with (String c (p +:+ q)). cbn. f_equal. exact IH.
Qed.

Lemma endsWith_append (p suffix : string) : Tandem.endsWith (p +:+ suffix) suffix = true.
Proof.
  unfold Tandem.endsWith. rewrite length_append.
  apply andb_true_intro. split; [apply Nat.leb_le; lia|].
  replace (String.length p + String.length suffix - String.length suffix) with (String.length p) by lia.
  rewrite substring_append_suffix. apply String.eqb_refl.
Qed.

Lemma substring_prefix (p q : string) : String.substring 0 (String.length p) (p +:+ q) = p.
Proof.
  induction p as [|c p IH].
  - change ("" +:+ q) with q. destruct q; reflexivity.
  - change (String c p +:+ q) with (String c (p +:+ q)). cbn. f_equal. exact IH.
Qed.

Lemma list_ascii_of_string_app (a b : string) :
  String.list_ascii_of_string (a +:+ b) =
  String.list_ascii_of_string a ++ String.list_ascii_of_string b.
Proof.
  induction a as [|c a IH]; [reflexivity|].
  change (String c a +:+ b) with (String c (a +:+ b)). cbn. f_equal. exact IH.
Qed.

End StringFacts.

(** ** Names of the elements of a group *)
Module ComponentNameFacts.
Import Tandem Containers StringFacts.

Lemma digits_are_term_characters (u : Decimal.uint) :
  forallb (termChar DynamicTandem) (String.list_ascii_of_string (NilEmpty.string_of_uint u)) = true.
Proof. induction u; cbn; try reflexivity; exact IHu. Qed.

Lemma digits_come_before_letters (u : Decimal.uint) :
  forallb (fun c => Ascii.nat_of_ascii c <=? 57)
    (String.list_ascii_of_string (NilEmpty.string_of_uint u)) = true.
Proof. induction u; cbn; try reflexivity; exact IHu. Qed.

Lemma to_uint_nonnil i : Nat.to_uint i <> Decimal.Nil.
Proof.
  rewrite Unsigned.to_uint_alt. intros E. apply DecimalFacts.rev_nil_inv in E.
  destruct i as [|i].
  - rewrite Unsigned.to_lu_equiv in E. discriminate E.
  - rewrite Unsigned.to_lu_succ in E. destruct (Unsigned.to_lu i); discriminate E.
Qed.

Lemma indexKey_nonempty i : String.list_ascii_of_string (indexKey i) <> [].
Proof.
  unfold indexKey. destruct (Nat.to_uint i) eqn:E; try discriminate.
  exfalso. exact (to_uint_nonnil i E).
Qed.

(** A component name ends in a digit of the index. *)
Lemma componentName_last base i :
  exists l c,
    String.list_ascii_of_string (componentName base i) = l ++ [c] /\
    (Ascii.nat_of_ascii c <=? 57) = true.
Proof.
  destruct (exists_last (indexKey_nonempty i)) as (l & c & E).
  exists (String.list_ascii_of_string base ++ String.list_ascii_of_string GROUP_SEPARATOR ++ l), c.
  unfold componentName. rewrite !list_ascii_of_string_app, E. split.
  - rewrite <- !app_assoc. reflexivity.
  - pose proof (digits_come_before_letters (Nat.to_uint i)) as Hd.
    fold (indexKey i) in Hd. rewrite E, forallb_app in Hd.
    apply andb_prop in Hd as [_ Hd]. cbn in Hd. rewrite andb_true_r in Hd. exact Hd.
Qed.

Lemma componentName_not_a_word base i (word : string) l c :
  String.list_ascii_of_string word = l ++ [c] ->
  (Ascii.nat_of_ascii c <=? 57) = false ->
  String.eqb (componentName base i) word = false.
Proof.
  intros Hw Hc. apply String.eqb_neq. intros E.
  destruct (componentName_last base i) as (l' & c' & E' & Hc').
  rewrite E, Hw in E'. apply app_inj_tail in E' as [_ ->]. congruence.
Qed.

Lemma componentName_term base i :
  forallb (termChar DynamicTandem) (String.list_ascii_of_string base) = true ->
  termRegexTest DynamicTandem (componentName base i) = true.
Proof.
  intros Hbase. unfold termRegexTest, componentName, GROUP_SEPARATOR, indexKey.
  rewrite !list_ascii_of_string_app, !forallb_app.
  rewrite Hbase, digits_are_term_characters. rewrite !length_app.
  cbn. rewrite Nat.add_succ_r. reflexivity.
Qed.

(** The names of the elements of a group can be used whatever the group made
    before, provided that, where assertions are enabled, the characters of
    the prefix are those of a term of a DynamicTandem. *)
Lemma componentName_OK env base i :
  (assertEnabled env = true ->
   forallb (termChar DynamicTandem) (String.list_ascii_of_string base) = true) ->
  elementNameOK env (componentName base i) = true.
Proof.
  intros Hbase. unfold elementNameOK, DYNAMIC_ARCHETYPE_NAME, METADATA_KEY.
  rewrite (componentName_not_a_word base i "archetype"
             (String.list_ascii_of_string "archetyp") (Ascii.ascii_of_nat 101) eq_refl eq_refl).
  rewrite (componentName_not_a_word base i "hasOwnProperty"
             (String.list_ascii_of_string "hasOwnPropert") (Ascii.ascii_of_nat 121) eq_refl eq_refl).
  rewrite (componentName_not_a_word base i "_metadata"
             (String.list_ascii_of_string "_metadat") (Ascii.ascii_of_nat 97) eq_refl eq_refl).
  cbn [negb andb]. destruct (assertEnabled env); [|reflexivity].
  rewrite (componentName_term base i (Hbase eq_refl)). reflexivity.
Qed.

Lemma componentName_not_reserved base i : ~ In (componentName base i) groupReserved.
Proof.
  unfold groupReserved, DYNAMIC_ARCHETYPE_NAME.
  intros [E|[E|[]]]; symmetry in E; apply String.eqb_eq in E.
  - rewrite (componentName_not_a_word base i "archetype"
               (String.list_ascii_of_string "archetyp") (Ascii.ascii_of_nat 101)
               eq_refl eq_refl) in E. discriminate.
  - rewrite (componentName_not_a_word base i "countProperty"
               (String.list_ascii_of_string "countPropert") (Ascii.ascii_of_nat 121)
               eq_refl eq_refl) in E. discriminate.
Qed.

End ComponentNameFacts.

(** ** Dynamic element containers *)
Module ContainersFacts.
Import Containers.
Local Open Scope m_scope.

Section BaseFacts.
Context {K : Type} `{Container K}.

Ltac base_run :=
  cbv [notifyElementCreated notifyElementCreatedWhileDeferred notifyElementDisposedWhileDeferred
       disposeElementBase disposeObject emit updateFields getFields
       bindM gets modify ret throw when assertM liftR jsAssert arrayRemove arrayRemoveBy bindR].

Lemma existsb_head (x : nat) l : existsb (Nat.eqb x) (x :: l) = true.
Proof. cbn. rewrite Nat.eqb_refl. reflexivity. Qed.

Lemma removeFirst_head (x : nat) l : removeFirst (Nat.eqb x) (x :: l) = l.
Proof. cbn. rewrite Nat.eqb_refl. reflexivity. Qed.


Lemma notifyElementCreated_immediate (w : World K) e :
  notificationsDeferred (fields (self w)) = false ->
  notifyElementCreated e w =
    (Ok tt, mkWorld (self w) (objects w) (emissions w ++ [(ElementCreated e, self w)])
              (tandemChildren w)).
Proof. intros Hd. base_run. rewrite Hd. reflexivity. Qed.





Lemma disposeObject_run env (w : World K) e o :
  objects w !! e = Some o ->
  isDisposed o = false ->
  disposeObject env e w = (Ok tt, withDisposed env e o w).
Proof.
  intros Ho Hnd. unfold disposeObject. rewrite Ho.
  cbv [bindM assertM liftR jsAssert modify]. rewrite Hnd. cbn [negb].
  rewrite andb_false_r. reflexivity.
Qed.

Lemma self_withDisposed env e o (w : World K) : self (withDisposed env e o w) = self w.
Proof. reflexivity. Qed.

Lemma childrenWith_present name children cls :
  children !! name = Some cls -> childrenWith name children = children.
Proof. intros E. unfold childrenWith. rewrite E. reflexivity. Qed.

Lemma tandemHasChild_run name (w : World K) :
  tandemHasChild name w = (Tandem.hasOwnChild (tandemChildren w) name, w).
Proof. reflexivity. Qed.

(** [createDynamicElement] returns the address of a new element and leaves
    the world [withCreated], or throws and leaves the world as it was,
    according to [canCreateTandem]. *)
Lemma createDynamicElement_cases env name (w : World K) :
  if canCreateTandem env (tandemChildren w) name
  then createDynamicElement env name w = (Ok (length (objects w)), withCreated name w)
  else exists e, createDynamicElement env name w = (Throw e, w).
Proof.
  assert (Hsame : forall cls, tandemChildren w !! name = Some cls ->
            withCreated name w =
              mkWorld (self w) (objects w ++ [mkElement name false]) (emissions w)
                (tandemChildren w)).
  { intros cls E. unfold withCreated. rewrite (childrenWith_present _ _ _ E). reflexivity. }
  assert (Hnew : tandemChildren w !! name = None ->
            withCreated name w =
              mkWorld (self w) (objects w ++ [mkElement name false]) (emissions w)
                (Tandem.setChild name Tandem.DynamicTandem (tandemChildren w))).
  { intros E. unfold withCreated, childrenWith. rewrite E. reflexivity. }
  destruct (tandemChildren w !! "hasOwnProperty") as [own|] eqn:E0;
    destruct (tandemChildren w !! name) as [cls|] eqn:E;
    try rewrite (Hsame _ eq_refl); try rewrite (Hnew eq_refl); clear Hsame Hnew;
    cbv [createDynamicElement createChildTandem newChildTandem tandemHasChild canCreateTandem
         Tandem.hasOwnChild setTandemChildren
         bindM gets modify ret throw when assertM liftR jsAssert isSome];
    repeat (rewrite ?E0, ?E; cbv beta iota); cbn [negb andb orb];
    try (eexists; reflexivity).
  - destruct cls, (assertEnabled env); cbn [negb andb orb];
      repeat (rewrite ?E0, ?E; cbv beta iota); first [reflexivity | eexists; reflexivity].
  - destruct (assertEnabled env); cbn [negb andb orb];
      repeat (rewrite ?E0, ?E; cbv beta iota); [|reflexivity].
    destruct (Tandem.termRegexTest Tandem.DynamicTandem name); cbn [negb andb orb];
      repeat (rewrite ?E0, ?E; cbv beta iota); [|eexists; reflexivity].
    destruct (String.eqb name Tandem.METADATA_KEY); cbn [negb andb orb];
      repeat (rewrite ?E0, ?E; cbv beta iota); first [reflexivity | eexists; reflexivity].
Qed.

Lemma createDynamicElement_run env name (w : World K) :
  canCreateTandem env (tandemChildren w) name = true ->
  createDynamicElement env name w = (Ok (length (objects w)), withCreated name w).
Proof.
  intros Hcan. pose proof (createDynamicElement_cases env name w) as Hc.
  rewrite Hcan in Hc. exact Hc.
Qed.

Lemma createDynamicElement_refused env name (w : World K) :
  canCreateTandem env (tandemChildren w) name = false ->
  exists e, createDynamicElement env name w = (Throw e, w).
Proof.
  intros Hcan. pose proof (createDynamicElement_cases env name w) as Hc.
  rewrite Hcan in Hc. exact Hc.
Qed.

Lemma createDynamicElement_Ok_inv env name (w w1 : World K) a :
  createDynamicElement env name w = (Ok a, w1) ->
  canCreateTandem env (tandemChildren w) name = true /\
  a = length (objects w) /\ w1 = withCreated name w.
Proof.
  destruct (canCreateTandem env (tandemChildren w) name) eqn:Hcan.
  - rewrite (createDynamicElement_run _ _ _ Hcan). intros [= <- <-]. auto.
  - destruct (createDynamicElement_refused _ _ _ Hcan) as (e & ->). discriminate.
Qed.

Lemma createDynamicElement_state env name (w : World K) :
  snd (createDynamicElement env name w) =
    if canCreateTandem env (tandemChildren w) name then withCreated name w else w.
Proof.
  pose proof (createDynamicElement_cases env name w) as Hc.
  destruct (canCreateTandem env (tandemChildren w) name).
  - rewrite Hc. reflexivity.
  - destruct Hc as (e & ->). reflexivity.
Qed.

Lemma self_withCreated name (w : World K) : self (withCreated name w) = self w.
Proof. reflexivity. Qed.

Lemma disposeElementBase_run env (w : World K) e o fromStateSetting :
  objects w !! e = Some o ->
  isDisposed o = false ->
  mayDispose env (fields (self w)) fromStateSetting ->
  disposeElementBase env e fromStateSetting w =
    (if notificationsDeferred (fields (self w))
     then updateFields (fun c => setDisposals (deferredDisposals c ++ [e]) c)
     else emit (ElementDisposed e)) (withDisposed env e o w).
Proof.
  intros Ho Hnd Hmay. unfold disposeElementBase.
  rewrite (bindM_run _ _ _ _ _ (disposeObject_run env w e o Ho Hnd)).
  rewrite (bindM_run getFields _ (withDisposed env e o w) (fields (self (withDisposed env e o w)))
             (withDisposed env e o w) eq_refl).
  rewrite self_withDisposed.
  assert (Hguard : when (supportsDynamicState (fields (self w)) && isSettingPhetioState env)
                     (assertM env fromStateSetting
                        "should not dispose a dynamic element while setting phet-io state")
                     (withDisposed env e o w) = (Ok tt, withDisposed env e o w)).
  { unfold when, mayDispose in *.
    destruct (supportsDynamicState (fields (self w))), (isSettingPhetioState env); cbn [andb];
      try reflexivity.
    rewrite assertM_run. destruct (assertEnabled env); [|reflexivity].
    rewrite (Hmay eq_refl eq_refl eq_refl). reflexivity. }
  rewrite (bindM_run _ _ _ _ _ Hguard). reflexivity.
Qed.


End BaseFacts.


Section BasePreserves.
Context {K : Type} `{Container K} (P : World K -> Prop).
Hypothesis P_fields : forall c w, P w -> P (setSelf (withFields c (self w)) w).
Hypothesis P_emit : forall e w,
  P w -> P (mkWorld (self w) (objects w) (emissions w ++ [(e, self w)]) (tandemChildren w)).
Hypothesis P_objects : forall objs w, P w -> P (mkWorld (self w) objs (emissions w) (tandemChildren w)).
Hypothesis P_children : forall children w, P w -> P (setTandemChildren children w).

Lemma preserves_updateFields f : preserves P (updateFields f).
Proof. apply preserves_modify. intros w Hw. apply P_fields. exact Hw. Qed.

Lemma preserves_getFields : preserves P getFields.
Proof. apply preserves_gets. Qed.

Lemma preserves_emit e : preserves P (emit e).
Proof. apply preserves_modify. intros w Hw. apply P_emit. exact Hw. Qed.

Lemma preserves_disposeObject env e : preserves P (disposeObject env e).
Proof.
  intros w Hw. unfold disposeObject. destruct (objects w !! e); [|exact Hw].
  revert w Hw.
  change (preserves P
            (assertM env (negb (isDisposed e0)) "PhetioObject can only be disposed once" ;;;
             modify (fun w => setTandemChildren
                                (childrenWithout env (fields (self w)) (tandemName e0)
                                   (tandemChildren w)) w) ;;;
             modify (fun w => mkWorld (self w) (<[e := mkElement (tandemName e0) true]> (objects w))
                                (emissions w) (tandemChildren w)))).
  preserve_with fail.
  - apply preserves_modify. intros w Hw. apply P_children. exact Hw.
  - apply preserves_modify. intros w Hw. apply P_objects. exact Hw.
Qed.

Lemma preserves_tandemHasChild name : preserves P (tandemHasChild name).
Proof. unfold tandemHasChild. preserve_with fail. Qed.

Lemma preserves_newChildTandem env cls name : preserves P (newChildTandem env cls name).
Proof.
  unfold newChildTandem.
  preserve_with ltac:(apply preserves_tandemHasChild).
  apply preserves_modify. intros w Hw. apply P_children. exact Hw.
Qed.

Lemma preserves_createChildTandem env name : preserves P (createChildTandem env name).
Proof.
  unfold createChildTandem.
  apply preserves_bind; [apply preserves_tandemHasChild|intros has].
  destruct has.
  - apply preserves_bind; [apply preserves_gets|intros c].
    destruct (c !! name); [apply preserves_ret|apply preserves_throw].
  - preserve_with ltac:(apply preserves_newChildTandem).
Qed.

Lemma preserves_createDynamicElement env name : preserves P (createDynamicElement env name).
Proof.
  unfold createDynamicElement.
  apply preserves_bind; [apply preserves_tandemHasChild|intros has].
  apply preserves_bind.
  { destruct has; cbn [negb];
      preserve_with ltac:(first [apply preserves_newChildTandem | apply preserves_createChildTandem]). }
  intros _. preserve_with fail.
  apply preserves_modify. intros w Hw. apply P_objects. exact Hw.
Qed.

Lemma preserves_notifyElementCreated e : preserves P (notifyElementCreated e).
Proof.
  unfold notifyElementCreated. preserve_with ltac:(auto using preserves_getFields, preserves_updateFields, preserves_emit).
Qed.

Lemma preserves_disposeElementBase env e fs : preserves P (disposeElementBase env e fs).
Proof.
  unfold disposeElementBase. preserve_with ltac:(auto using preserves_getFields, preserves_updateFields, preserves_emit, preserves_disposeObject).
Qed.

Lemma preserves_notifyCreatedWhileDeferred env e :
  preserves P (notifyElementCreatedWhileDeferred env e).
Proof.
  unfold notifyElementCreatedWhileDeferred. preserve_with ltac:(auto using preserves_getFields, preserves_updateFields, preserves_emit).
Qed.

Lemma preserves_notifyDisposedWhileDeferred env e :
  preserves P (notifyElementDisposedWhileDeferred env e).
Proof.
  unfold notifyElementDisposedWhileDeferred. preserve_with ltac:(auto using preserves_getFields, preserves_updateFields, preserves_emit).
Qed.

Lemma preserves_flushCreations env fuel : preserves P (flushCreations env fuel).
Proof.
  induction fuel as [|fuel IH]; cbn [flushCreations]; preserve_with ltac:(auto using preserves_getFields, preserves_notifyCreatedWhileDeferred).
Qed.

Lemma preserves_flushDisposals env fuel : preserves P (flushDisposals env fuel).
Proof.
  induction fuel as [|fuel IH]; cbn [flushDisposals]; preserve_with ltac:(auto using preserves_getFields, preserves_notifyDisposedWhileDeferred).
Qed.

Lemma preserves_setNotificationsDeferred env b : preserves P (setNotificationsDeferred env b).
Proof.
  unfold setNotificationsDeferred. preserve_with ltac:(auto using preserves_getFields, preserves_updateFields, preserves_flushCreations,       preserves_flushDisposals).
Qed.

End BasePreserves.

Section GroupPreserves.

Lemma GroupInvariant_fields c (w : GroupWorld) :
  GroupInvariant w -> GroupInvariant (setSelf (withFields c (self w)) w).
Proof. intros [H1 H2]. split; [exact H1|exact H2]. Qed.

Lemma GroupInvariant_emit e (w : GroupWorld) :
  GroupInvariant w ->
  GroupInvariant (mkWorld (self w) (objects w) (emissions w ++ [(e, self w)]) (tandemChildren w)).
Proof.
  intros [H1 H2]. split; [exact H1|]. cbn. apply Forall_app. split; [exact H2|].
  constructor; [exact H1|constructor].
Qed.

Lemma GroupInvariant_objects objs (w : GroupWorld) :
  GroupInvariant w -> GroupInvariant (mkWorld (self w) objs (emissions w) (tandemChildren w)).
Proof. intros [H1 H2]. split; [exact H1|exact H2]. Qed.

Lemma GroupInvariant_children children (w : GroupWorld) :
  GroupInvariant w -> GroupInvariant (setTandemChildren children w).
Proof. intros [H1 H2]. split; [exact H1|exact H2]. Qed.

Lemma GroupInvariant_index i (w : GroupWorld) :
  GroupInvariant w -> GroupInvariant (setSelf (setIndex i (self w)) w).
Proof. intros [H1 H2]. split; [exact H1|exact H2]. Qed.

(** Writing the array and then the count, as both creation and disposal do,
    restores the invariant before anything else runs. *)
Lemma preserves_array_then_count {A} (f : PhetioGroup -> list nat) (k : M GroupWorld A) :
  preserves GroupInvariant k ->
  preserves GroupInvariant
    (updateGroup (fun g => setArray (f g) g) ;;;
     updateGroup (fun g => setCount (length (_array g)) g) ;;; k).
Proof.
  intros Hk w [H1 H2]. cbv [bindM updateGroup modify]. apply Hk.
  split; [reflexivity|exact H2].
Qed.

Lemma group_updateFields f : preserves GroupInvariant (updateFields f).
Proof. apply preserves_updateFields, GroupInvariant_fields. Qed.

Lemma group_notifyElementCreated e : preserves GroupInvariant (notifyElementCreated e).
Proof.
  apply preserves_notifyElementCreated;
    [apply GroupInvariant_fields|apply GroupInvariant_emit].
Qed.

Lemma group_disposeElementBase env e fs :
  preserves GroupInvariant (disposeElementBase env e fs).
Proof.
  apply preserves_disposeElementBase;
    [apply GroupInvariant_fields|apply GroupInvariant_emit|apply GroupInvariant_objects
    |apply GroupInvariant_children].
Qed.

Lemma group_createDynamicElement env name :
  preserves GroupInvariant (createDynamicElement env name).
Proof.
  apply preserves_createDynamicElement;
    [apply GroupInvariant_objects|apply GroupInvariant_children].
Qed.

Lemma group_setNotificationsDeferred env b :
  preserves GroupInvariant (setNotificationsDeferred env b).
Proof.
  apply preserves_setNotificationsDeferred;
    [apply GroupInvariant_fields|apply GroupInvariant_emit].
Qed.

Lemma group_notifyCreatedWhileDeferred env e :
  preserves GroupInvariant (notifyElementCreatedWhileDeferred env e).
Proof.
  apply preserves_notifyCreatedWhileDeferred;
    [apply GroupInvariant_fields|apply GroupInvariant_emit].
Qed.

Ltac group_leaf :=
  auto using preserves_getFields, group_updateFields, group_notifyElementCreated,
    group_disposeElementBase, group_createDynamicElement, group_setNotificationsDeferred,
    group_notifyCreatedWhileDeferred.

Lemma preserves_updateIndex f : preserves GroupInvariant (updateGroup (fun g => setIndex (f g) g)).
Proof. apply preserves_modify. intros w Hw. apply (GroupInvariant_index (f (self w))). exact Hw. Qed.

Lemma preserves_createIndexedElement env index fs :
  preserves GroupInvariant (createIndexedElement env index fs).
Proof.
  unfold createIndexedElement.
  apply preserves_bind; [group_leaf|intros c].
  apply preserves_bind; [preserve_with group_leaf|intros _].
  apply preserves_bind; [preserve_with group_leaf|intros _].
  apply preserves_bind; [group_leaf|intros e].
  apply (preserves_array_then_count (fun g => _array g ++ [e])).
  preserve_with group_leaf.
Qed.

Lemma preserves_disposeGroupElement env e fs :
  preserves GroupInvariant (disposeGroupElement env e fs).
Proof.
  unfold disposeGroupElement.
  apply preserves_bind; [|intros _].
  { apply preserves_when. unfold elementIsDisposed.
    apply preserves_bind; [|intros ?; apply preserves_assertM].
    intros w Hw. destruct (objects w !! e); exact Hw. }
  apply preserves_bind; [apply preserves_gets|intros g].
  apply preserves_bind; [apply preserves_liftR|intros remaining].
  apply (preserves_array_then_count (fun _ => remaining)).
  group_leaf.
Qed.

Lemma preserves_clearLoop env fs fuel : preserves GroupInvariant (clearLoop env fs fuel).
Proof.
  induction fuel as [|fuel IH]; cbn [clearLoop];
    preserve_with ltac:(auto using preserves_disposeGroupElement).
Qed.

Lemma preserves_runGroupOp env op : preserves GroupInvariant (runGroupOp env op).
Proof.
  destruct op; cbn [runGroupOp].
  - unfold createNextElement.
    preserve_with ltac:(auto using preserves_createIndexedElement).
    apply preserves_modify. intros w Hw. apply GroupInvariant_index. exact Hw.
  - preserve_with ltac:(auto using preserves_createIndexedElement).
  - unfold createCorrespondingGroupElement.
    preserve_with ltac:(auto using preserves_createIndexedElement).
    apply preserves_modify. intros w Hw. apply GroupInvariant_index. exact Hw.
  - unfold addChildElement.
    preserve_with ltac:(auto using preserves_createIndexedElement).
    apply preserves_modify. intros w Hw. apply GroupInvariant_index. exact Hw.
  - apply preserves_disposeGroupElement.
  - unfold clearGroup.
    preserve_with ltac:(auto using preserves_clearLoop).
    apply preserves_modify. intros w Hw. apply GroupInvariant_index. exact Hw.
  - group_leaf.
  - group_leaf.
Qed.

Lemma runGroupOps_invariant env ops : forall w,
  GroupInvariant w -> GroupInvariant (runGroupOps env ops w).
Proof.
  induction ops as [|op ops IH]; intros w Hw; cbn; [exact Hw|].
  apply IH. apply preserves_runGroupOp. exact Hw.
Qed.

End GroupPreserves.

(** *** The children of the container's tandem *)

Lemma elementNameOK_inv env name :
  elementNameOK env name = true ->
  name <> DYNAMIC_ARCHETYPE_NAME /\ name <> "hasOwnProperty" /\
  (assertEnabled env = true ->
   Tandem.termRegexTest Tandem.DynamicTandem name = true /\
   String.eqb name Tandem.METADATA_KEY = false).
Proof.
  unfold elementNameOK. intros H.
  apply andb_prop in H as [H H3]. apply andb_prop in H as [H1 H2].
  apply negb_true_iff in H1, H2. apply String.eqb_neq in H1, H2.
  split; [exact H1|]. split; [exact H2|]. intros Ha. rewrite Ha in H3. cbn [negb orb] in H3.
  apply andb_prop in H3 as [H3 H4]. apply negb_true_iff in H4. auto.
Qed.

Lemma elementChildren_empty reserved : elementChildren reserved ∅.
Proof.
  split; [apply lookup_empty|]. intros name cls E. rewrite lookup_empty in E. discriminate.
Qed.

Lemma elementChildren_reserved reserved name cls children :
  In name reserved -> name <> "hasOwnProperty" ->
  elementChildren reserved children ->
  elementChildren reserved (Tandem.setChild name cls children).
Proof.
  intros Hin Hne [Hown Hcls].
  unfold Tandem.setChild. destruct (String.eqb name "__proto__"); [split; assumption|].
  split.
  - rewrite lookup_insert_ne by exact Hne. exact Hown.
  - intros k cls' Hk. destruct (decide (k = name)) as [->|Hkn].
    + left. exact Hin.
    + rewrite lookup_insert_ne in Hk by congruence. exact (Hcls k cls' Hk).
Qed.

Lemma elementChildren_with reserved name children :
  name <> "hasOwnProperty" ->
  elementChildren reserved children -> elementChildren reserved (childrenWith name children).
Proof.
  intros Hne [Hown Hcls].
  unfold childrenWith. destruct (children !! name) eqn:E; [split; assumption|].
  unfold Tandem.setChild. destruct (String.eqb name "__proto__"); [split; assumption|].
  split.
  - rewrite lookup_insert_ne by exact Hne. exact Hown.
  - intros k cls Hk. destruct (decide (k = name)) as [->|Hkn].
    + rewrite lookup_insert_eq in Hk. injection Hk as <-. right. reflexivity.
    + rewrite lookup_insert_ne in Hk by congruence. exact (Hcls k cls Hk).
Qed.

Lemma elementChildren_delete reserved name children :
  elementChildren reserved children -> elementChildren reserved (delete name children).
Proof.
  intros [Hown Hcls]. split.
  - destruct (decide (name = "hasOwnProperty")) as [->|Hne].
    + apply lookup_delete_eq.
    + rewrite lookup_delete_ne by exact Hne. exact Hown.
  - intros k cls Hk. apply lookup_delete_Some in Hk as [_ Hk]. exact (Hcls k cls Hk).
Qed.

Lemma elementChildren_without reserved env c name children :
  elementChildren reserved children ->
  elementChildren reserved (childrenWithout env c name children).
Proof.
  intros Hch. unfold childrenWithout.
  destruct (PHET_IO_ENABLED env && instrumented c); [apply elementChildren_delete|]; exact Hch.
Qed.

Lemma canCreateTandem_reserved env reserved children name :
  elementChildren reserved children ->
  ~ In name reserved ->
  (assertEnabled env = true ->
   Tandem.termRegexTest Tandem.DynamicTandem name = true /\
   String.eqb name Tandem.METADATA_KEY = false) ->
  canCreateTandem env children name = true.
Proof.
  intros [Hown Hcls] Hnot Hterm.
  unfold canCreateTandem. rewrite Hown. cbn [isSome negb andb].
  destruct (children !! name) as [cls|] eqn:E.
  - destruct (Hcls name cls E) as [Hn| ->]; [contradiction|reflexivity].
  - destruct (assertEnabled env); [|reflexivity]. destruct (Hterm eq_refl) as [-> ->]. reflexivity.
Qed.

Lemma canCreateTandem_elementChildren env children name :
  elementChildren capsuleReserved children ->
  elementNameOK env name = true ->
  canCreateTandem env children name = true.
Proof.
  intros Hch Hok. apply elementNameOK_inv in Hok as (Harch & _ & Hterm).
  apply (canCreateTandem_reserved env capsuleReserved); [exact Hch| |exact Hterm].
  intros [E|[]]. apply Harch. symmetry. exact E.
Qed.

(** *** The constructors *)

Lemma createChildTandem_fresh {K} `{Container K} env name (w : World K) :
  tandemChildren w !! "hasOwnProperty" = None ->
  tandemChildren w !! name = None ->
  Tandem.termRegexTest Tandem.PlainTandem name = true ->
  String.eqb name Tandem.METADATA_KEY = false ->
  createChildTandem env name w =
    (Ok Tandem.PlainTandem,
     setTandemChildren (Tandem.setChild name Tandem.PlainTandem (tandemChildren w)) w).
Proof.
  intros E0 E Hre Hmeta.
  cbv [createChildTandem newChildTandem tandemHasChild Tandem.hasOwnChild
       bindM gets modify ret throw when assertM liftR jsAssert isSome].
  repeat (rewrite ?E0, ?E, ?Hre, ?Hmeta; cbv beta iota). cbn [negb andb].
  rewrite !andb_false_r.
  destruct (assertEnabled env); repeat (rewrite ?E0, ?E; cbv beta iota); reflexivity.
Qed.

Lemma createArchetype_fresh {K} `{Container K} env (w : World K) :
  tandemChildren w = ∅ ->
  createArchetype env w =
    if negb (isConstructionComplete env) && (PHET_IO_ENABLED env && createArchetypes env)
    then (Ok (Some (length (objects w))),
          mkWorld (self w) (objects w ++ [mkElement DYNAMIC_ARCHETYPE_NAME false]) (emissions w)
            (Tandem.setChild DYNAMIC_ARCHETYPE_NAME Tandem.PlainTandem ∅))
    else (Ok None, w).
Proof.
  intros Hch. unfold createArchetype.
  destruct (isConstructionComplete env); [reflexivity|]. cbn [negb andb].
  destruct (PHET_IO_ENABLED env && createArchetypes env); [|reflexivity].
  unfold bindM at 1.
  rewrite (createChildTandem_fresh env DYNAMIC_ARCHETYPE_NAME w)
    by (rewrite ?Hch; first [apply lookup_empty | reflexivity]).
  rewrite Hch. reflexivity.
Qed.

Lemma construct_group env isInstrumented name :
  (a <- createArchetype env ;;
   updateFields (setArchetype a) ;;;
   createChildTandem env "countProperty")
    (mkWorld (mkGroup (baseFields isInstrumented name "Group") [] 0 0) [] [] ∅) =
  (Ok Tandem.PlainTandem,
   if negb (isConstructionComplete env) && (PHET_IO_ENABLED env && createArchetypes env)
   then mkWorld
          (mkGroup (setArchetype (Some 0) (baseFields isInstrumented name "Group")) [] 0 0)
          [mkElement DYNAMIC_ARCHETYPE_NAME false] []
          (Tandem.setChild "countProperty" Tandem.PlainTandem
             (Tandem.setChild DYNAMIC_ARCHETYPE_NAME Tandem.PlainTandem ∅))
   else mkWorld (mkGroup (baseFields isInstrumented name "Group") [] 0 0) [] []
          (Tandem.setChild "countProperty" Tandem.PlainTandem ∅)).
Proof.
  unfold bindM at 1. rewrite createArchetype_fresh by reflexivity.
  destruct (negb _ && _).
  - unfold bindM, updateFields, modify.
    rewrite createChildTandem_fresh by (vm_compute; reflexivity). reflexivity.
  - unfold bindM, updateFields, modify.
    rewrite createChildTandem_fresh by (vm_compute; reflexivity). reflexivity.
Qed.

Lemma newPhetioGroup_Ok env isInstrumented name w0 :
  newPhetioGroup env isInstrumented name = Ok w0 ->
  w0 = (if negb (isConstructionComplete env) && (PHET_IO_ENABLED env && createArchetypes env)
        then mkWorld
               (mkGroup (setArchetype (Some 0) (baseFields isInstrumented name "Group")) [] 0 0)
               [mkElement DYNAMIC_ARCHETYPE_NAME false] []
               (Tandem.setChild "countProperty" Tandem.PlainTandem
                  (Tandem.setChild DYNAMIC_ARCHETYPE_NAME Tandem.PlainTandem ∅))
        else mkWorld (mkGroup (baseFields isInstrumented name "Group") [] 0 0) [] []
               (Tandem.setChild "countProperty" Tandem.PlainTandem ∅)).
Proof.
  unfold newPhetioGroup, bindR.
  destruct (if VALIDATION env then _ else _); [|discriminate].
  rewrite construct_group. intros [= <-]. reflexivity.
Qed.

Lemma newPhetioGroup_succeeds env isInstrumented name :
  Tandem.endsWith name "Group" = true ->
  exists w0, newPhetioGroup env isInstrumented name = Ok w0.
Proof.
  intros Hends. unfold newPhetioGroup. rewrite Hends. unfold jsAssert. cbn [negb].
  rewrite andb_false_r.
  replace (if VALIDATION env then Ok tt else Ok tt) with (@Ok unit tt)
    by (destruct (VALIDATION env); reflexivity).
  cbn [bindR]. rewrite construct_group. eexists; reflexivity.
Qed.

Lemma elementChildren_group_archetype :
  elementChildren groupReserved
    (Tandem.setChild "countProperty" Tandem.PlainTandem
       (Tandem.setChild DYNAMIC_ARCHETYPE_NAME Tandem.PlainTandem ∅)).
Proof.
  apply elementChildren_reserved; [right; left; reflexivity|discriminate|].
  apply elementChildren_reserved; [left; reflexivity|discriminate|].
  apply elementChildren_empty.
Qed.

Lemma elementChildren_group :
  elementChildren groupReserved (Tandem.setChild "countProperty" Tandem.PlainTandem ∅).
Proof.
  apply elementChildren_reserved; [right; left; reflexivity|discriminate|].
  apply elementChildren_empty.
Qed.

Lemma elementChildren_capsule_archetype :
  elementChildren capsuleReserved (Tandem.setChild DYNAMIC_ARCHETYPE_NAME Tandem.PlainTandem ∅).
Proof.
  apply elementChildren_reserved; [left; reflexivity|discriminate|].
  apply elementChildren_empty.
Qed.

Lemma newPhetioGroup_fresh env isInstrumented name w0 :
  newPhetioGroup env isInstrumented name = Ok w0 ->
  _array (self w0) = [] /\ groupElementIndex (self w0) = 0 /\ countProperty (self w0) = 0 /\
  instrumented (groupFields (self w0)) = isInstrumented /\
  notificationsDeferred (groupFields (self w0)) = false /\
  deferredCreations (groupFields (self w0)) = [] /\
  deferredDisposals (groupFields (self w0)) = [] /\
  emissions w0 = [] /\
  elementChildren groupReserved (tandemChildren w0) /\
  phetioDynamicElementName (groupFields (self w0)) =
    phetioDynamicElementName (baseFields isInstrumented name "Group") /\
  length (objects w0) =
    (if negb (isConstructionComplete env) && (PHET_IO_ENABLED env && createArchetypes env)
     then 1 else 0) /\
  isSome (archetype (groupFields (self w0))) =
    negb (isConstructionComplete env) && (PHET_IO_ENABLED env && createArchetypes env).
Proof.
  intros Hnew. rewrite (newPhetioGroup_Ok _ _ _ _ Hnew).
  destruct (negb _ && _);
    repeat match goal with |- _ /\ _ => split end; try reflexivity;
    [apply elementChildren_group_archetype|apply elementChildren_group].
Qed.

Lemma newPhetioGroup_invariant env isInstrumented name w0 :
  newPhetioGroup env isInstrumented name = Ok w0 -> GroupInvariant w0.
Proof.
  intros Hnew. rewrite (newPhetioGroup_Ok _ _ _ _ Hnew).
  destruct (negb _ && _); (split; [reflexivity|constructor]).
Qed.

Lemma newPhetioGroup_ready env name w0 :
  newPhetioGroup env true name = Ok w0 ->
  (assertEnabled env = true ->
   forallb (Tandem.termChar Tandem.DynamicTandem)
     (String.list_ascii_of_string (phetioDynamicElementName (groupFields (self w0)))) = true) ->
  groupReady env w0.
Proof.
  intros Hnew Hbase.
  destruct (newPhetioGroup_fresh _ _ _ _ Hnew) as (_ & _ & _ & Hi & _ & _ & _ & _ & Hch & _).
  split; [exact Hi|]. split; [exact Hch|exact Hbase].
Qed.

Lemma newPhetioCapsule_Ok env isInstrumented name w0 :
  newPhetioCapsule env isInstrumented name = Ok w0 ->
  w0 = (if negb (isConstructionComplete env) && (PHET_IO_ENABLED env && createArchetypes env)
        then mkWorld
               (mkCapsule (setArchetype (Some 0) (baseFields isInstrumented name "Capsule")) None)
               [mkElement DYNAMIC_ARCHETYPE_NAME false] []
               (Tandem.setChild DYNAMIC_ARCHETYPE_NAME Tandem.PlainTandem ∅)
        else mkWorld (mkCapsule (baseFields isInstrumented name "Capsule") None) [] [] ∅).
Proof.
  unfold newPhetioCapsule, bindR.
  destruct (if VALIDATION env then _ else _); [|discriminate].
  unfold bindM. rewrite createArchetype_fresh by reflexivity.
  destruct (negb _ && _); intros [= <-]; reflexivity.
Qed.

Lemma newPhetioCapsule_succeeds env isInstrumented name :
  Tandem.endsWith name "Capsule" = true ->
  exists w0, newPhetioCapsule env isInstrumented name = Ok w0.
Proof.
  intros Hends. unfold newPhetioCapsule. rewrite Hends. unfold jsAssert. cbn [negb].
  rewrite andb_false_r.
  replace (if VALIDATION env then Ok tt else Ok tt) with (@Ok unit tt)
    by (destruct (VALIDATION env); reflexivity).
  cbn [bindR]. unfold bindM. rewrite createArchetype_fresh by reflexivity.
  destruct (negb _ && _); eexists; reflexivity.
Qed.

Lemma newPhetioCapsule_fresh env isInstrumented name w0 :
  newPhetioCapsule env isInstrumented name = Ok w0 ->
  element (self w0) = None /\ emissions w0 = [] /\
  instrumented (capsuleFields (self w0)) = isInstrumented /\
  notificationsDeferred (capsuleFields (self w0)) = false /\
  elementChildren capsuleReserved (tandemChildren w0) /\
  phetioDynamicElementName (capsuleFields (self w0)) =
    phetioDynamicElementName (baseFields isInstrumented name "Capsule").
Proof.
  intros Hnew. rewrite (newPhetioCapsule_Ok _ _ _ _ Hnew).
  destruct (negb _ && _);
    repeat match goal with |- _ /\ _ => split end; try reflexivity;
    [apply elementChildren_capsule_archetype|apply elementChildren_empty].
Qed.

(** *** Groups *)

Ltac group_run :=
  cbv [createNextElement createIndexedElement disposeGroupElement elementIsDisposed
       notifyElementCreated disposeElementBase disposeObject emit
       updateGroup updateFields getFields
       bindM gets modify ret throw when assertM liftR jsAssert arrayRemove arrayRemoveBy bindR].

Lemma sameConfiguration_refl (w : GroupWorld) : sameConfiguration w w.
Proof. repeat split. Qed.

Lemma sameConfiguration_trans (w1 w2 w3 : GroupWorld) :
  sameConfiguration w1 w2 -> sameConfiguration w2 w3 -> sameConfiguration w1 w3.
Proof. intros (A & B & C) (D & E & F). repeat split; congruence. Qed.

Lemma groupReady_same env (w w' : GroupWorld) :
  groupReady env w -> sameConfiguration w w' ->
  elementChildren groupReserved (tandemChildren w') ->
  groupReady env w'.
Proof.
  intros (Hi & _ & Hbase) (A & B & _) Hch. split; [congruence|]. split; [exact Hch|].
  rewrite B. exact Hbase.
Qed.

Lemma groupReady_canCreate env (w : GroupWorld) index :
  groupReady env w ->
  canCreateTandem env (tandemChildren w)
    (componentName (phetioDynamicElementName (groupFields (self w))) index) = true.
Proof.
  intros (_ & Hch & Hbase).
  apply (canCreateTandem_reserved env groupReserved); [exact Hch| |].
  - apply ComponentNameFacts.componentName_not_reserved.
  - apply elementNameOK_inv. apply ComponentNameFacts.componentName_OK. exact Hbase.
Qed.

Lemma addOne_small index : (N.of_nat index < 2 ^ 53)%N -> addOne index = S index.
Proof.
  intros Hlt. unfold addOne. apply N.ltb_lt in Hlt. rewrite Hlt. apply Nat.add_1_r.
Qed.

(** What [createIndexedElement] does with the element that
    [createDynamicElement] returned. *)
Lemma element_joins_group (w1 : GroupWorld) e :
  exists w2,
    (updateGroup (fun g => setArray (_array g ++ [e]) g) ;;;
     updateGroup (fun g => setCount (length (_array g)) g) ;;;
     notifyElementCreated e ;;;
     ret e) w1 = (Ok e, w2) /\
    _array (self w2) = _array (self w1) ++ [e] /\
    objects w2 = objects w1 /\
    groupElementIndex (self w2) = groupElementIndex (self w1) /\
    countProperty (self w2) = S (length (_array (self w1))) /\
    tandemChildren w2 = tandemChildren w1 /\
    (notificationsDeferred (groupFields (self w1)) = false ->
     emissions w2 = emissions w1 ++ [(ElementCreated e, self w2)]) /\
    (notificationsDeferred (groupFields (self w1)) = true -> emissions w2 = emissions w1) /\
    sameConfiguration w1 w2.
Proof.
  destruct w1 as [[c arr idx cnt] objs ems ch]. destruct c as [ins sds nm arch def crs dss].
  destruct def; eexists; (split; [reflexivity|]); cbn; rewrite ?length_app; cbn;
    repeat split; try discriminate; lia.
Qed.

Lemma createIndexedElement_Ok_inv env index fs (w w' : GroupWorld) e :
  createIndexedElement env index fs w = (Ok e, w') ->
  let name := componentName (phetioDynamicElementName (groupFields (self w))) index in
  canCreateTandem env (tandemChildren w) name = true /\
  e = length (objects w) /\
  (updateGroup (fun g => setArray (_array g ++ [e]) g) ;;;
   updateGroup (fun g => setCount (length (_array g)) g) ;;;
   notifyElementCreated e ;;;
   ret e) (withCreated name w) = (Ok e, w').
Proof.
  intros Hrun name. unfold createIndexedElement in Hrun.
  apply bindM_Ok_inv in Hrun as (c & s0 & Hc & Hrun). injection Hc as <- <-.
  apply bindM_Ok_inv in Hrun as (u1 & s1 & H1 & Hrun). apply when_assertM_Ok_inv in H1 as ->.
  apply bindM_Ok_inv in Hrun as (u2 & s2 & H2 & Hrun). apply when_assertM_Ok_inv in H2 as ->.
  apply bindM_Ok_inv in Hrun as (e1 & s3 & H3 & Hrun).
  apply createDynamicElement_Ok_inv in H3 as (Hcan & -> & ->).
  split; [exact Hcan|].
  assert (He : e = length (objects w)).
  { destruct (element_joins_group (withCreated name w) (length (objects w))) as (w2 & Hj & _).
    fold name in Hrun. cbn [fields groupContainer] in Hrun.
    rewrite Hj in Hrun. injection Hrun as <- _. reflexivity. }
  split; [exact He|]. subst e. exact Hrun.
Qed.

Lemma createIndexedElement_spec env index fs (w : GroupWorld) :
  groupReady env w ->
  (isSettingPhetioState env = true -> fs = true) ->
  let name := componentName (phetioDynamicElementName (groupFields (self w))) index in
  exists w',
    createIndexedElement env index fs w = (Ok (length (objects w)), w') /\
    _array (self w') = _array (self w) ++ [length (objects w)] /\
    objects w' = objects w ++ [mkElement name false] /\
    groupElementIndex (self w') = groupElementIndex (self w) /\
    countProperty (self w') = S (length (_array (self w))) /\
    groupReady env w' /\
    sameConfiguration w w'.
Proof.
  intros Hready Hfs name.
  pose proof (groupReady_canCreate env w index Hready) as Hcan. fold name in Hcan.
  destruct (element_joins_group (withCreated name w) (length (objects w)))
    as (w' & Hrun & Harr & Hobj & Hidx & Hcnt & Hchildren & _ & _ & Hcfg).
  assert (Hcfg' : sameConfiguration w w').
  { apply (sameConfiguration_trans w (withCreated name w) w'); [|exact Hcfg]. repeat split. }
  exists w'. split.
  { destruct Hready as (Hins & _ & _).
    unfold createIndexedElement.
    rewrite (bindM_run getFields _ w (fields (self w)) w eq_refl). cbv beta.
    cbn [fields groupContainer].
    rewrite (bindM_run _ _ w tt w (when_assertM_pass env _ _ _ w (fun _ _ => Hins))).
    rewrite (bindM_run _ _ w tt w
               (when_assertM_pass env _ _ _ w
                  (fun Hg _ => Hfs (proj2 (andb_prop _ _ Hg))))).
    rewrite (bindM_run _ _ w _ _ (createDynamicElement_run env name w Hcan)).
    exact Hrun. }
  split; [exact Harr|]. split; [exact Hobj|]. split; [exact Hidx|]. split; [exact Hcnt|].
  split; [|exact Hcfg'].
  apply (groupReady_same env w w' Hready Hcfg'). rewrite Hchildren.
  change (elementChildren groupReserved (childrenWith name (tandemChildren w))).
  destruct Hready as (_ & Hch & Hbase).
  apply elementChildren_with; [|exact Hch].
  apply (elementNameOK_inv env). apply ComponentNameFacts.componentName_OK. exact Hbase.
Qed.

Lemma createNextElement_spec env (w : GroupWorld) :
  groupReady env w ->
  isSettingPhetioState env = false ->
  exists w',
    createNextElement env w = (Ok (length (objects w)), w') /\
    _array (self w') = _array (self w) ++ [length (objects w)] /\
    objects w' = objects w ++
      [mkElement (componentName (phetioDynamicElementName (groupFields (self w)))
                    (groupElementIndex (self w))) false] /\
    groupElementIndex (self w') = addOne (groupElementIndex (self w)) /\
    countProperty (self w') = S (length (_array (self w))) /\
    groupReady env w' /\
    sameConfiguration w w'.
Proof.
  intros Hready Hs.
  set (w1 := setSelf (setIndex (addOne (groupElementIndex (self w))) (self w)) w).
  destruct (createIndexedElement_spec env (groupElementIndex (self w)) false w1)
    as (w' & Hrun & Harr & Hobj & Hidx' & Hcnt & Hready' & Hcfg).
  { exact Hready. }
  { intros E. congruence. }
  exists w'. split; [exact Hrun|]. split; [exact Harr|]. split; [exact Hobj|].
  split; [exact Hidx'|]. split; [exact Hcnt|].
  split; [exact Hready'|exact Hcfg].
Qed.

Lemma disposeGroupElement_as_base env (w : GroupWorld) e fs o :
  objects w !! e = Some o -> isDisposed o = false ->
  existsb (Nat.eqb e) (_array (self w)) = true ->
  disposeGroupElement env e fs w = disposeElementBase env e fs (withoutElement env e w).
Proof.
  intros Ho Hnd Hin. unfold disposeGroupElement.
  assert (H1 : when (assertEnabled env)
                 (disposed <- elementIsDisposed e ;;
                  assertM env (negb disposed) "element already disposed") w = (Ok tt, w)).
  { destruct (assertEnabled env) eqn:Ha; [|reflexivity].
    cbv [when bindM elementIsDisposed assertM liftR jsAssert]. rewrite Ho, Hnd, Ha. reflexivity. }
  rewrite (bindM_run _ _ w tt w H1).
  cbv [bindM gets liftR arrayRemove arrayRemoveBy bindR jsAssert updateGroup modify].
  unfold withoutElement. rewrite Hin. cbn [negb]. rewrite andb_false_r. reflexivity.
Qed.

Lemma disposeGroupElement_spec env (w : GroupWorld) e o fs :
  objects w !! e = Some o ->
  isDisposed o = false ->
  existsb (Nat.eqb e) (_array (self w)) = true ->
  (isSettingPhetioState env = true -> fs = true) ->
  exists w',
    disposeGroupElement env e fs w = (Ok tt, w') /\
    _array (self w') = removeFirst (Nat.eqb e) (_array (self w)) /\
    objects w' = <[e := mkElement (tandemName o) true]> (objects w) /\
    groupElementIndex (self w') = groupElementIndex (self w) /\
    countProperty (self w') = length (_array (self w')) /\
    tandemChildren w' =
      childrenWithout env (groupFields (self w)) (tandemName o) (tandemChildren w) /\
    (notificationsDeferred (groupFields (self w)) = false ->
     notified w' = notified w ++ [ElementDisposed e]) /\
    sameConfiguration w w'.
Proof.
  intros Ho Hd Hin Hfs.
  rewrite (disposeGroupElement_as_base env w e fs o Ho Hd Hin).
  assert (Ho' : objects (withoutElement env e w) !! e = Some o) by exact Ho.
  rewrite (disposeElementBase_run env _ e o fs Ho' Hd)
    by (intros _ _ Hs; exact (Hfs Hs)).
  unfold withoutElement. rewrite Hin.
  destruct w as [[c arr idx cnt] objs ems ch]. destruct c as [ins sds nm arch def crs dss].
  destruct def; eexists; (split; [reflexivity|]);
    repeat match goal with |- _ /\ _ => split end; try reflexivity; try discriminate;
    try solve [repeat split].
  intros _. unfold notified. cbn. rewrite map_app. reflexivity.
Qed.

Lemma groupReady_disposed env (w w' : GroupWorld) c name :
  groupReady env w -> sameConfiguration w w' ->
  tandemChildren w' = childrenWithout env c name (tandemChildren w) ->
  groupReady env w'.
Proof.
  intros Hready Hcfg Hch. apply (groupReady_same env w w' Hready Hcfg).
  rewrite Hch. apply elementChildren_without. destruct Hready as (_ & H & _). exact H.
Qed.

(** C9: after any sequence of calls on a constructed group, whatever they
    returned or threw, [countProperty] equals the length of the array, and it
    did so in every state of the group that a creation or disposal listener
    was shown. [createIndexedElement], when it notifies at once, shows its
    listeners the array with the new element at its end and the count one
    higher; [disposeElement] is the base disposal (which disposes the element
    and then notifies) run on the group whose array has lost the element and
    whose count is the new length. *)
Theorem C9_count_matches_array env isInstrumented name w0 ops :
  newPhetioGroup env isInstrumented name = Ok w0 ->
  let w := runGroupOps env ops w0 in
  countProperty (self w) = length (_array (self w)) /\
  Forall (fun em => countProperty (snd em) = length (_array (snd em))) (emissions w) /\
  (forall index fs e w',
     notificationsDeferred (groupFields (self w)) = false ->
     createIndexedElement env index fs w = (Ok e, w') ->
     exists seen,
       emissions w' = emissions w ++ [(ElementCreated e, seen)] /\
       _array seen = _array (self w) ++ [e] /\
       countProperty seen = S (length (_array (self w))) /\
       self w' = seen) /\
  (forall e fs o,
     objects w !! e = Some o -> isDisposed o = false ->
     existsb (Nat.eqb e) (_array (self w)) = true ->
     disposeGroupElement env e fs w = disposeElementBase env e fs (withoutElement env e w) /\
     objects (withoutElement env e w) !! e = Some o /\
     countProperty (self (withoutElement env e w)) =
       length (_array (self (withoutElement env e w))) /\
     _array (self (withoutElement env e w)) = removeFirst (Nat.eqb e) (_array (self w)) /\
     forall w',
       notificationsDeferred (groupFields (self w)) = false ->
       disposeGroupElement env e fs w = (Ok tt, w') ->
       emissions w' = emissions w ++ [(ElementDisposed e, self (withoutElement env e w))]).
Proof.
  intros Hnew w.
  assert (Hinv : GroupInvariant w).
  { apply runGroupOps_invariant. eapply newPhetioGroup_invariant. exact Hnew. }
  destruct Hinv as [Hcount Hems].
  split; [exact Hcount|]. split; [exact Hems|].
  clear Hcount Hems. generalize w. clear. intros w. split.
  - intros index fs e w' Hd Hrun.
    apply createIndexedElement_Ok_inv in Hrun as (_ & _ & Hrun).
    destruct (element_joins_group
                (withCreated (componentName (phetioDynamicElementName (groupFields (self w))) index) w)
                e) as (w2 & Hj & Harr & _ & _ & Hcnt & _ & Hem & _).
    rewrite Hj in Hrun. injection Hrun as <-.
    exists (self w2). split; [exact (Hem Hd)|]. split; [exact Harr|]. split; [exact Hcnt|reflexivity].
  - intros e fs o Ho Hnd Hin.
    split; [exact (disposeGroupElement_as_base env w e fs o Ho Hnd Hin)|].
    split; [exact Ho|].
    unfold withoutElement. rewrite Hin.
    split; [reflexivity|]. split; [reflexivity|].
    intros w' Hd Hrun.
    rewrite (disposeGroupElement_as_base env w e fs o Ho Hnd Hin) in Hrun.
    unfold disposeElementBase in Hrun.
    assert (Ho' : objects (withoutElement env e w) !! e = Some o) by exact Ho.
    rewrite (bindM_run _ _ _ _ _ (disposeObject_run env _ e o Ho' Hnd)) in Hrun.
    apply bindM_Ok_inv in Hrun as (c & s0 & Hc & Hrun). injection Hc as <- <-.
    apply bindM_Ok_inv in Hrun as (u & s1 & Hg & Hrun). apply when_assertM_Ok_inv in Hg as ->.
    unfold withoutElement in Hrun. rewrite Hin in Hrun.
    rewrite Hd in Hrun. injection Hrun as <-. reflexivity.
Qed.

Lemma createMany_spec env n : forall (w : GroupWorld),
  groupReady env w ->
  isSettingPhetioState env = false ->
  countProperty (self w) = length (_array (self w)) ->
  (N.of_nat (groupElementIndex (self w) + n) <= 2 ^ 53)%N ->
  exists w',
    createMany env n w = (Ok (seq (length (objects w)) n), w') /\
    _array (self w') = _array (self w) ++ seq (length (objects w)) n /\
    objects w' = objects w ++
      map (fun i => mkElement (componentName (phetioDynamicElementName (groupFields (self w))) i) false)
          (seq (groupElementIndex (self w)) n) /\
    groupElementIndex (self w') = groupElementIndex (self w) + n /\
    countProperty (self w') = length (_array (self w')) /\
    groupReady env w' /\
    sameConfiguration w w'.
Proof.
  induction n as [|n IH]; intros w Hready Hs Hc Hbound.
  - exists w. cbn. rewrite !app_nil_r, Nat.add_0_r.
    repeat match goal with |- _ /\ _ => split end; try reflexivity; try assumption.
    apply sameConfiguration_refl.
  - destruct (createNextElement_spec env w Hready Hs)
      as (w1 & Hrun & Harr & Hobj & Hidx & Hcnt & Hready1 & Hi1 & Hn1 & Hd1).
    rewrite addOne_small in Hidx by lia.
    destruct (IH w1) as (w2 & Hrun2 & Harr2 & Hobj2 & Hidx2 & Hcnt2 & Hready2 & Hi2 & Hn2 & Hd2).
    { exact Hready1. }
    { exact Hs. }
    { rewrite Hcnt, Harr, length_app. cbn. lia. }
    { rewrite Hidx. replace (S (groupElementIndex (self w)) + n)
        with (groupElementIndex (self w) + S n) by lia. exact Hbound. }
    exists w2. split.
    { cbn [createMany]. cbv [bindM ret]. rewrite Hrun. fold (createMany env n).
      rewrite Hrun2.
      rewrite Hobj, length_app. cbn. rewrite Nat.add_1_r. reflexivity. }
    split.
    { rewrite Harr2, Harr, Hobj, length_app. cbn. rewrite <- app_assoc, Nat.add_1_r. reflexivity. }
    split.
    { rewrite Hobj2, Hobj, Hidx, Hn1. cbn. rewrite <- app_assoc. reflexivity. }
    split; [rewrite Hidx2, Hidx; lia|].
    split; [exact Hcnt2|].
    split; [exact Hready2|].
    repeat split; congruence.
Qed.

Lemma indexKey_inj i j : indexKey i = indexKey j -> i = j.
Proof.
  unfold indexKey. intros E.
  assert (E' : NilEmpty.uint_of_string (NilEmpty.string_of_uint (Nat.to_uint i)) =
               NilEmpty.uint_of_string (NilEmpty.string_of_uint (Nat.to_uint j)))
    by (rewrite E; reflexivity).
  rewrite !NilEmpty.usu in E'. injection E' as E'.
  apply Unsigned.to_uint_inj. exact E'.
Qed.

Lemma string_app_inv_head (s a b : string) : s +:+ a = s +:+ b -> a = b.
Proof.
  induction s as [|c s IH]; cbn; intros E; [exact E|].
  injection E as E. apply IH. exact E.
Qed.

Lemma componentName_inj base i j : componentName base i = componentName base j -> i = j.
Proof.
  unfold componentName. intros E.
  apply string_app_inv_head in E. apply string_app_inv_head in E.
  apply indexKey_inj. exact E.
Qed.

Lemma length_removeFirst (x : nat) l :
  existsb (Nat.eqb x) l = true -> S (length (removeFirst (Nat.eqb x) l)) = length l.
Proof.
  induction l as [|y l IH]; cbn; [discriminate|].
  destruct (Nat.eqb x y); cbn; [reflexivity|]. intros Hin. rewrite IH by exact Hin. reflexivity.
Qed.

Lemma existsb_seq x a n : a <= x < a + n -> existsb (Nat.eqb x) (seq a n) = true.
Proof.
  intros Hx. apply existsb_exists. exists x. split; [apply in_seq; exact Hx|apply Nat.eqb_refl].
Qed.

(** C5: on a constructed, instrumented group outside state setting, whose
    element names are terms of a DynamicTandem where assertions check them
    (every character of the prefix is a letter, a digit or an underscore),
    and for [N] below 2^53, up to where the counter is exact: [N] calls of
    [createNextElement] return, and the array then holds exactly the [N]
    elements made, named base_0 ... base_(N-1) in this order; disposing the
    element of index [k < N] and creating one more gives a new element named
    base_N, a name different from base_k, and [N] elements again. *)
Theorem C5_indices_never_reused env name w0 N k :
  newPhetioGroup env true name = Ok w0 ->
  isSettingPhetioState env = false ->
  (assertEnabled env = true ->
   forallb (Tandem.termChar Tandem.DynamicTandem)
     (String.list_ascii_of_string (phetioDynamicElementName (groupFields (self w0)))) = true) ->
  (N.of_nat N < 2 ^ 53)%N ->
  k < N ->
  let base := phetioDynamicElementName (groupFields (self w0)) in
  exists created w,
    createMany env N w0 = (Ok created, w) /\
    _array (self w) = created /\
    length created = N /\
    countProperty (self w) = N /\
    map (elementName w) created = map (fun i => Some (componentName base i)) (seq 0 N) /\
    exists ek w1 fresh w2,
      created !! k = Some ek /\
      elementName w ek = Some (componentName base k) /\
      disposeGroupElement env ek false w = (Ok tt, w1) /\
      createNextElement env w1 = (Ok fresh, w2) /\
      elementName w2 fresh = Some (componentName base N) /\
      componentName base N <> componentName base k /\
      elementName w fresh = None /\
      length (_array (self w2)) = N /\
      countProperty (self w2) = N.
Proof.
  intros Hnew Hs Hbase HN Hk base.
  destruct (newPhetioGroup_fresh _ _ _ _ Hnew) as (Harr0 & Hidx0 & Hcnt0 & Hins0 & _).
  pose proof (newPhetioGroup_ready env name w0 Hnew Hbase) as Hready0.
  destruct (createMany_spec env N w0 Hready0 Hs)
    as (w & Hrun & Harr & Hobj & Hidx & Hcnt & Hready & Hi & Hn & Hd).
  { rewrite Hcnt0, Harr0. reflexivity. }
  { rewrite Hidx0. cbn [Nat.add]. apply N.lt_le_incl. exact HN. }
  rewrite Harr0 in Harr. cbn [app] in Harr. rewrite Hidx0 in Hobj, Hidx. cbn in Hidx.
  fold base in Hobj.
  set (a0 := length (objects w0)) in *.
  assert (Hname : forall i, i < N -> objects w !! (a0 + i) = Some (mkElement (componentName base i) false)).
  { intros i Hi'. rewrite Hobj. rewrite lookup_app_r by (unfold a0; lia).
    replace (a0 + i - length (objects w0)) with i by (unfold a0; lia).
    rewrite list_lookup_fmap. rewrite lookup_seq_lt by exact Hi'. reflexivity. }
  assert (Hlenw : length (objects w) = a0 + N).
  { rewrite Hobj, length_app, length_map, length_seq. reflexivity. }
  exists (seq a0 N), w. split; [exact Hrun|]. split; [exact Harr|].
  split; [apply length_seq|]. split; [rewrite Hcnt, Harr; apply length_seq|].
  split.
  { assert (Hseq : seq a0 N = map (Nat.add a0) (seq 0 N)).
    { pose proof (fmap_add_seq a0 0 N) as E. rewrite Nat.add_0_r in E. symmetry. exact E. }
    rewrite Hseq, map_map. apply map_ext_in. intros i Hi'. apply in_seq in Hi'.
    unfold elementName. rewrite Hname by lia. reflexivity. }
  assert (Hin : existsb (Nat.eqb (a0 + k)) (_array (self w)) = true).
  { rewrite Harr. apply existsb_seq. lia. }
  destruct (disposeGroupElement_spec env w (a0 + k) _ false (Hname k Hk) eq_refl Hin)
    as (w1 & Hrun1 & Harr1 & Hobj1 & Hidx1 & Hcnt1 & Hch1 & _ & Hcfg1).
  { intros E. congruence. }
  pose proof (groupReady_disposed env w w1 _ _ Hready Hcfg1 Hch1) as Hready1.
  destruct Hcfg1 as (Hi1 & Hn1 & Hd1).
  destruct (createNextElement_spec env w1 Hready1 Hs)
    as (w2 & Hrun2 & Harr2 & Hobj2 & Hidx2 & Hcnt2 & _ & Hi2 & Hn2 & Hd2).
  assert (Hlen1 : length (objects w1) = a0 + N).
  { rewrite Hobj1, length_insert. exact Hlenw. }
  exists (a0 + k), w1, (a0 + N), w2.
  split; [apply lookup_seq_lt; exact Hk|].
  split; [unfold elementName; rewrite Hname by exact Hk; reflexivity|].
  split; [exact Hrun1|].
  split; [rewrite <- Hlen1; exact Hrun2|].
  split.
  { unfold elementName. rewrite Hobj2. rewrite lookup_app_r by lia.
    rewrite Hlen1, Nat.sub_diag. cbn. rewrite Hn1, Hn, Hidx1, Hidx. reflexivity. }
  split.
  { intros E. apply componentName_inj in E. lia. }
  split.
  { unfold elementName. rewrite lookup_ge_None_2 by lia. reflexivity. }
  assert (Hlen2 : length (_array (self w2)) = N).
  { rewrite Harr2, length_app, Harr1. cbn.
    pose proof (length_removeFirst _ _ Hin) as Hl. rewrite Harr, length_seq in Hl.
    rewrite Harr in *. lia. }
  split; [exact Hlen2|].
  rewrite Hcnt2, Harr1.
  pose proof (length_removeFirst _ _ Hin) as Hl. rewrite Harr, length_seq in Hl. rewrite Harr. lia.
Qed.

(** *** Capsules *)


(** What [create] does with the element that [createDynamicElement]
    returned. *)
Lemma element_fills_capsule (w1 : CapsuleWorld) e :
  exists w2,
    (setElement (Some e) ;;; notifyElementCreated e ;;; ret e) w1 = (Ok e, w2) /\
    element (self w2) = Some e /\
    objects w2 = objects w1 /\
    instrumented (capsuleFields (self w2)) = instrumented (capsuleFields (self w1)) /\
    notificationsDeferred (capsuleFields (self w2)) =
      notificationsDeferred (capsuleFields (self w1)) /\
    phetioDynamicElementName (capsuleFields (self w2)) =
      phetioDynamicElementName (capsuleFields (self w1)) /\
    tandemChildren w2 = tandemChildren w1 /\
    (notificationsDeferred (capsuleFields (self w1)) = false ->
     notified w2 = notified w1 ++ [ElementCreated e]).
Proof.
  destruct w1 as [[c el] objs ems ch]. destruct c as [ins sds nm arch def crs dss].
  destruct def; eexists; (split; [reflexivity|]);
    repeat match goal with |- _ /\ _ => split end; try reflexivity; try discriminate;
    try solve [repeat split].
  intros _. unfold notified. cbn. rewrite map_app. reflexivity.
Qed.

Lemma create_Ok_inv env fs (w w' : CapsuleWorld) e :
  create env fs w = (Ok e, w') ->
  let name := phetioDynamicElementName (capsuleFields (self w)) in
  canCreateTandem env (tandemChildren w) name = true /\
  e = length (objects w) /\
  (setElement (Some e) ;;; notifyElementCreated e ;;; ret e) (withCreated name w) = (Ok e, w').
Proof.
  intros Hrun name. unfold create in Hrun.
  apply bindM_Ok_inv in Hrun as (c & s0 & Hc & Hrun). injection Hc as <- <-.
  apply bindM_Ok_inv in Hrun as (u1 & s1 & H1 & Hrun). apply assertM_Ok_inv in H1 as [-> _].
  apply bindM_Ok_inv in Hrun as (e1 & s3 & H3 & Hrun).
  apply createDynamicElement_Ok_inv in H3 as (Hcan & -> & ->).
  split; [exact Hcan|].
  assert (He : e = length (objects w)).
  { destruct (element_fills_capsule (withCreated name w) (length (objects w))) as (w2 & Hj & _).
    fold name in Hrun. cbn [fields capsuleContainer] in Hrun.
    rewrite Hj in Hrun. injection Hrun as <- _. reflexivity. }
  split; [exact He|]. subst e. exact Hrun.
Qed.

Lemma create_spec env fs (w : CapsuleWorld) :
  instrumented (capsuleFields (self w)) = true ->
  let name := phetioDynamicElementName (capsuleFields (self w)) in
  canCreateTandem env (tandemChildren w) name = true ->
  exists w',
    create env fs w = (Ok (length (objects w)), w') /\
    element (self w') = Some (length (objects w)) /\
    objects w' = objects w ++ [mkElement name false] /\
    instrumented (capsuleFields (self w')) = true /\
    notificationsDeferred (capsuleFields (self w')) =
      notificationsDeferred (capsuleFields (self w)) /\
    phetioDynamicElementName (capsuleFields (self w')) = name /\
    tandemChildren w' = childrenWith name (tandemChildren w) /\
    (notificationsDeferred (capsuleFields (self w)) = false ->
     notified w' = notified w ++ [ElementCreated (length (objects w))]).
Proof.
  intros Hins name Hcan.
  destruct (element_fills_capsule (withCreated name w) (length (objects w)))
    as (w' & Hrun & Hel & Hobj & Hi & Hd & Hn & Hch & Hem).
  exists w'. split.
  { unfold create.
    rewrite (bindM_run getFields _ w (fields (self w)) w eq_refl). cbv beta.
    cbn [fields capsuleContainer].
    rewrite Hins. rewrite (bindM_run _ _ w tt w (assertM_true env _ w)).
    rewrite (bindM_run _ _ w _ _ (createDynamicElement_run env name w Hcan)).
    exact Hrun. }
  split; [exact Hel|]. split; [exact Hobj|]. split; [rewrite Hi; exact Hins|].
  split; [exact Hd|]. split; [exact Hn|]. split; [exact Hch|exact Hem].
Qed.



Lemma clearCapsule_empty env fs (w : CapsuleWorld) :
  element (self w) = None -> clearCapsule env fs w = (Ok tt, w).
Proof. intros Hel. unfold clearCapsule. cbv [bindM gets]. rewrite Hel. reflexivity. Qed.

Lemma disposeCapsuleElement_empty env fs (w : CapsuleWorld) :
  element (self w) = None ->
  exists e, disposeCapsuleElement env fs w = (Throw e, w) /\
    (assertEnabled env = true -> e = AssertionError "cannot dispose if element is not defined").
Proof.
  intros Hel.
  cbv [disposeCapsuleElement bindM gets assertM liftR jsAssert throw isSome]. rewrite Hel.
  destruct (assertEnabled env); eexists; (split; [reflexivity|]); [reflexivity|discriminate].
Qed.

Lemma getElement_held env (w : CapsuleWorld) e :
  element (self w) = Some e -> getElement env w = (Ok (Some e), w).
Proof. intros Hel. unfold getElement. cbv [bindM gets]. rewrite Hel. cbn. rewrite Hel. reflexivity. Qed.

Lemma getElement_empty env (w w' : CapsuleWorld) e :
  element (self w) = None ->
  create env false w = (Ok e, w') ->
  element (self w') = Some e ->
  getElement env w = (Ok (Some e), w').
Proof.
  intros Hel Hrun Hel'. unfold getElement. cbv [bindM gets]. rewrite Hel, Hrun, Hel'. reflexivity.
Qed.


Lemma undisposedIn_Some objs e :
  undisposedIn objs e = true -> exists o, objs !! e = Some o /\ isDisposed o = false.
Proof.
  unfold undisposedIn. destruct (objs !! e) as [o|]; [|discriminate].
  intros H. exists o. split; [reflexivity|]. destruct (isDisposed o); [discriminate|reflexivity].
Qed.








(** The scenario of C9: two elements created, the first disposed, one more
    created. *)
Lemma C9_count_matches_array_witness :
  let w := runGroupOps debugEnv
             [CreateNextElement; CreateNextElement; DisposeElement 0 false; CreateNextElement]
             particleGroup in
  countProperty (self w) = length (_array (self w)) /\
  Forall (fun em => countProperty (snd em) = length (_array (snd em))) (emissions w) /\
  _array (self w) = [1; 2] /\
  length (emissions w) = 4.
Proof.
  destruct (C9_count_matches_array debugEnv true "particleGroup" particleGroup
              [CreateNextElement; CreateNextElement; DisposeElement 0 false; CreateNextElement]
              ltac:(vm_compute; reflexivity))
    as (Hcount & Hseen & _).
  split; [exact Hcount|]. split; [exact Hseen|]. split; vm_compute; reflexivity.
Defined.

(** The scenario of C5: three elements, the one of index 1 disposed, a
    fourth created. *)
Lemma C5_indices_never_reused_witness :
  exists created w ek w1 fresh w2,
    createMany debugEnv 3 particleGroup = (Ok created, w) /\
    _array (self w) = created /\
    map (elementName w) created = [Some "particle_0"; Some "particle_1"; Some "particle_2"] /\
    created !! 1 = Some ek /\
    disposeGroupElement debugEnv ek false w = (Ok tt, w1) /\
    createNextElement debugEnv w1 = (Ok fresh, w2) /\
    elementName w2 fresh = Some "particle_3" /\
    length (_array (self w2)) = 3.
Proof.
  destruct (C5_indices_never_reused debugEnv "particleGroup" particleGroup 3 1
              ltac:(vm_compute; reflexivity) eq_refl ltac:(intros _; vm_compute; reflexivity)
              ltac:(reflexivity) ltac:(lia))
    as (created & w & Hrun & Harr & _ & _ & Hnames & ek & w1 & fresh & w2 &
        Hk & _ & Hdispose & Hcreate & Hfresh & _ & _ & Hlen & _).
  exists created, w, ek, w1, fresh, w2.
  split; [exact Hrun|]. split; [exact Harr|]. split; [exact Hnames|]. split; [exact Hk|].
  split; [exact Hdispose|]. split; [exact Hcreate|]. split; [exact Hfresh|exact Hlen].
Defined.


End ContainersFacts.

(** ** The API validator *)
Module APIValidationFacts.
Import APIValidation.
Local Open Scope m_scope.

Lemma extends_refl v : extends v v.
Proof. exists []. rewrite app_nil_r. reflexivity. Qed.

Lemma extends_trans v1 v2 v3 : extends v1 v2 -> extends v2 v3 -> extends v1 v3.
Proof. intros [a Ha] [b Hb]. exists (a ++ b). rewrite Hb, Ha, app_assoc. reflexivity. Qed.

Lemma extends_In v v' err : extends v v' -> In err (logged v) -> In err (logged v').
Proof. intros [a Ha] Hin. rewrite Ha. apply in_or_app. left. exact Hin. Qed.

Ltac api_run :=
  cbv [checkOverride checkMetadataKey assertAPIError
       bindM gets modify ret throw when assertM liftR jsAssert].

Lemma assertAPIError_run env err v :
  assertAPIError env err v =
    (if assertEnabled env then Throw (AssertionError "PhET-iO API error") else Ok tt,
     mkValidation (simHasStarted v) (enabled v) (logged v ++ [err])).
Proof. api_run. cbn. destruct (assertEnabled env); reflexivity. Qed.

Lemma checkMetadataKey_extends env phetioID baseline key val v :
  extends v (snd (checkMetadataKey env phetioID baseline key val v)).
Proof.
  api_run. cbn.
  destruct (assocHas key baseline), (strictEq val _), (assertEnabled env); cbn;
    first [apply extends_refl | eexists; cbn; rewrite <- ?app_assoc; reflexivity].
Qed.

Lemma checkMetadataKeys_extends env phetioID baseline override : forall v,
  extends v (snd (checkMetadataKeys env phetioID baseline override v)).
Proof.
  induction override as [|[key val] rest IH]; intros v; cbn; [apply extends_refl|].
  unfold bindM. pose proof (checkMetadataKey_extends env phetioID baseline key val v) as H1.
  destruct (checkMetadataKey env phetioID baseline key val v) as [[u|e] v1]; cbn in *;
    [|exact H1].
  eapply extends_trans; [exact H1|apply IH].
Qed.

Lemma checkMetadataKey_Ok env phetioID baseline key val v :
  (assertEnabled env = true -> keyViolates baseline (key, val) = false) ->
  fst (checkMetadataKey env phetioID baseline key val v) = Ok tt.
Proof.
  unfold keyViolates. cbn. intros Hok. api_run. cbn.
  destruct (assertEnabled env); [specialize (Hok eq_refl)|].
  - apply orb_false_iff in Hok as [H1 H2]. apply negb_false_iff in H1. rewrite H1, H2. reflexivity.
  - destruct (assocHas key baseline), (strictEq val _); reflexivity.
Qed.

Lemma checkMetadataKeys_Ok env phetioID baseline override : forall v,
  (assertEnabled env = true -> existsb (keyViolates baseline) override = false) ->
  fst (checkMetadataKeys env phetioID baseline override v) = Ok tt.
Proof.
  induction override as [|[key val] rest IH]; intros v Hok; cbn; [reflexivity|].
  unfold bindM.
  pose proof (checkMetadataKey_Ok env phetioID baseline key val v) as H1.
  destruct (checkMetadataKey env phetioID baseline key val v) as [[u|e] v1]; cbn in *.
  - apply IH. intros Ha. specialize (Hok Ha). apply orb_false_iff in Hok as [_ H]. exact H.
  - assert (Throw e = Ok tt); [|discriminate].
    apply H1. intros Ha. specialize (Hok Ha). apply orb_false_iff in Hok as [H _]. exact H.
Qed.

Lemma checkMetadataKeys_app env phetioID baseline pre post v :
  checkMetadataKeys env phetioID baseline (pre ++ post) v =
    (checkMetadataKeys env phetioID baseline pre ;;;
     checkMetadataKeys env phetioID baseline post) v.
Proof.
  revert v. induction pre as [|[key val] pre IH]; intros v; cbn; [reflexivity|].
  unfold bindM. destruct (checkMetadataKey env phetioID baseline key val v) as [[u|e] v1];
    [|reflexivity].
  rewrite IH. reflexivity.
Qed.

Lemma assocHas_get {A} key (l : list (string * A)) :
  assocHas key l = isSome (assocGet key l).
Proof. unfold assocHas. destruct (assocGet key l); reflexivity. Qed.

(** What processing the keys of an override up to and including a violating
    key leaves in the log. *)
Lemma checkMetadataKeys_reports env phetioID baseline pre key val post v err :
  (assertEnabled env = true -> existsb (keyViolates baseline) pre = false) ->
  (forall v1, In err (logged (snd (checkMetadataKey env phetioID baseline key val v1))) /\
              (assertEnabled env = true ->
               isOk (fst (checkMetadataKey env phetioID baseline key val v1)) = false)) ->
  In err (logged (snd (checkMetadataKeys env phetioID baseline (pre ++ (key, val) :: post) v))) /\
  (assertEnabled env = true ->
   isOk (fst (checkMetadataKeys env phetioID baseline (pre ++ (key, val) :: post) v)) = false).
Proof.
  intros Hpre Hkey. rewrite checkMetadataKeys_app. unfold bindM.
  pose proof (checkMetadataKeys_Ok env phetioID baseline pre v Hpre) as HpreOk.
  destruct (checkMetadataKeys env phetioID baseline pre v) as [[u|e] v1]; cbn in HpreOk;
    [|discriminate].
  cbn [checkMetadataKeys]. unfold bindM.
  destruct (Hkey v1) as [Hin Hthrow].
  pose proof (checkMetadataKeys_extends env phetioID baseline post) as Hpost.
  destruct (checkMetadataKey env phetioID baseline key val v1) as [[u'|e'] v2]; cbn in *.
  - split; [eapply extends_In; [apply Hpost|exact Hin]|].
    intros Ha. specialize (Hthrow Ha). discriminate.
  - split; [exact Hin|reflexivity].
Qed.

(** C8 (amended): for an entry of the overrides that the loop reaches: when
    its phetioID is absent from the baseline and archetypes are created, the
    API error of rule 3 is logged (and thrown with assertions); when
    archetypes are not created, nothing is logged, and a plain assertion
    fails unless the phetioID contains "archetype". When the phetioID is in
    the baseline: an override without keys logs the error of rule 4; a
    metadata key that the baseline entry lacks logs "key not found", and one
    whose value is strictly equal to the baseline's logs "same value",
    provided that with assertions enabled no earlier key of the entry was in
    violation (the first violation throws). *)
Theorem C8_override_entry_violations env entireBaseline phetioID override v :
  let outcome := checkOverride env entireBaseline phetioID override v in
  (assocHas phetioID entireBaseline = false -> createArchetypes env = true ->
     logged (snd outcome) = logged v ++ [NOT_IN_BASELINE phetioID] /\
     (assertEnabled env = true -> isOk (fst outcome) = false)) /\
  (assocHas phetioID entireBaseline = false -> createArchetypes env = false ->
     logged (snd outcome) = logged v /\
     fst outcome =
       if assertEnabled env && negb (containsString "archetype" phetioID)
       then Throw (AssertionError "phetioID missing from the baseline that was not an archetype")
       else Ok tt) /\
  (forall baseline, assocGet phetioID entireBaseline = Some baseline ->
     (override = [] ->
        logged (snd outcome) = logged v ++ [NO_METADATA_KEYS phetioID] /\
        (assertEnabled env = true -> isOk (fst outcome) = false)) /\
     (forall pre key val post,
        override = pre ++ (key, val) :: post ->
        (assertEnabled env = true -> existsb (keyViolates baseline) pre = false) ->
        (assocHas key baseline = false ->
           In (KEY_NOT_FOUND phetioID) (logged (snd outcome)) /\
           (assertEnabled env = true -> isOk (fst outcome) = false)) /\
        (forall baselineValue,
           assocGet key baseline = Some baselineValue ->
           strictEq val baselineValue = true ->
           In (SAME_VALUE phetioID) (logged (snd outcome)) /\
           (assertEnabled env = true -> isOk (fst outcome) = false)))).
Proof.
  intros outcome. subst outcome. split; [|split].
  - intros Hhas Harch. unfold checkOverride. rewrite Harch, Hhas. cbn [negb andb].
    rewrite assocHas_get in Hhas. destruct (assocGet phetioID entireBaseline); [discriminate|].
    rewrite assertAPIError_run. cbn. split; [reflexivity|]. intros ->. reflexivity.
  - intros Hhas Harch. unfold checkOverride. rewrite Harch, Hhas. cbn [negb andb].
    cbv [assertM liftR jsAssert]. cbn. split; reflexivity.
  - intros baseline Hbase.
    assert (Hhas : assocHas phetioID entireBaseline = true)
      by (rewrite assocHas_get, Hbase; reflexivity).
    unfold checkOverride. rewrite Hhas, andb_false_r, Hbase. split.
    + intros ->. cbn [length Nat.eqb when checkMetadataKeys]. unfold bindM.
      rewrite assertAPIError_run. destruct (assertEnabled env); cbn; split; auto; discriminate.
    + intros pre key val post -> Hpre.
      assert (Hlen : Nat.eqb (length (pre ++ (key, val) :: post)) 0 = false).
      { rewrite length_app. cbn. apply Nat.eqb_neq. lia. }
      rewrite Hlen. cbn [when]. unfold bindM at 1. cbn [ret].
      split.
      * intros Habsent. apply checkMetadataKeys_reports; [exact Hpre|].
        intros v1. unfold checkMetadataKey. rewrite Habsent. cbn [negb when]. unfold bindM.
        rewrite assertAPIError_run. destruct (assertEnabled env); cbn.
        -- split; [apply in_or_app; right; left; reflexivity|reflexivity].
        -- split; [|discriminate].
           cbv [when]. destruct (strictEq val _); cbn.
           ++ apply in_or_app; left. apply in_or_app; right; left; reflexivity.
           ++ apply in_or_app; right; left; reflexivity.
      * intros baselineValue Hval Heq. apply checkMetadataKeys_reports; [exact Hpre|].
        intros v1. unfold checkMetadataKey. rewrite assocHas_get, Hval. cbn -[assertAPIError strictEq bindM].
        rewrite Heq. cbv [bindM ret when]. rewrite assertAPIError_run.
        destruct (assertEnabled env); cbn;
          (split; [apply in_or_app; right; left; reflexivity|auto; discriminate]).
Qed.

(** The claim of C8 fails as stated: an override whose phetioID is absent from
    the baseline is not reported when archetypes are not created and the
    phetioID contains "archetype". *)
Lemma C8_archetype_override_not_reported :
  validateOverridesFile debugEnv [] archetypeOverrides (newValidation debugEnv) =
    (Ok tt, newValidation debugEnv).
Proof. vm_compute. reflexivity. Qed.

End APIValidationFacts.


(** ** The tree of tandems and the registry *)
Module TandemTreeFacts.
Import Tandem TandemTree TandemFacts StringFacts.
Local Open Scope m_scope.

Lemma lookup_alter_identity f i (h : list TandemNode) j node' :
  sameIdentity f -> alter f i h !! j = Some node' ->
  exists node, h !! j = Some node /\ parentTandem node' = parentTandem node /\
               name node' = name node /\ phetioID node' = phetioID node /\
               (j <> i -> node' = node) /\ (j = i -> node' = f node).
Proof.
  intros Hf Hl. destruct (decide (j = i)) as [->|Hne].
  - rewrite list_lookup_alter_eq in Hl. destruct (h !! i) as [node|] eqn:E; [|discriminate].
    injection Hl as <-. exists node. destruct (Hf node) as (? & ? & ?). repeat split; auto. congruence.
  - rewrite list_lookup_alter_ne in Hl by congruence. exists node'. repeat split; auto. congruence.
Qed.

Lemma lookup_alter_Some_identity f i (h : list TandemNode) j node :
  sameIdentity f -> h !! j = Some node ->
  exists node', alter f i h !! j = Some node' /\ parentTandem node' = parentTandem node /\
               name node' = name node /\ phetioID node' = phetioID node.
Proof.
  intros Hf Hl. destruct (decide (j = i)) as [->|Hne].
  - rewrite list_lookup_alter_eq, Hl. cbn. eexists; split; [reflexivity|]. apply Hf.
  - rewrite list_lookup_alter_ne by congruence. eauto.
Qed.

Lemma wellFormed_alter f i s :
  wellFormed s -> sameIdentity f ->
  (forall node k c, heap s !! i = Some node -> children (f node) !! k = Some c ->
     exists child, heap s !! c = Some child /\ parentTandem child = Some i /\ name child = k) ->
  wellFormed (setHeap (alter f i (heap s)) s).
Proof.
  intros Hwf Hf Hch j node' Hj. cbn [heap setHeap] in *.
  destruct (lookup_alter_identity _ _ _ _ _ Hf Hj) as (node & Hnode & Hp & Hn & Hid & Hne & Heq).
  destruct (Hwf _ _ Hnode) as [Hparent Hchildren]. split.
  - rewrite Hp, Hn, Hid. destruct (parentTandem node) as [p|]; [|exact Hparent].
    destruct Hparent as (Hlt & parent & Hpl & Hpid). split; [exact Hlt|].
    destruct (lookup_alter_Some_identity f i _ _ _ Hf Hpl) as (parent' & Hpl' & _ & _ & Hpid').
    exists parent'. split; [exact Hpl'|]. congruence.
  - intros k c Hkc.
    assert (Hold : exists child, heap s !! c = Some child /\ parentTandem child = Some j /\ name child = k).
    { destruct (decide (j = i)) as [->|Hji].
      - rewrite (Heq eq_refl) in Hkc. eapply Hch; eauto.
      - rewrite (Hne Hji) in Hkc. eapply Hchildren; eauto. }
    destruct Hold as (child & Hc & Hcp & Hcn).
    destruct (lookup_alter_Some_identity f i _ _ _ Hf Hc) as (child' & Hc' & Hcp' & Hcn' & _).
    exists child'. split; [exact Hc'|]. split; congruence.
Qed.

Lemma wellFormed_append s node :
  wellFormed s -> children node = ∅ ->
  match parentTandem node with
  | Some p => exists parent, heap s !! p = Some parent /\
                             phetioID node = append (phetioID parent) (name node)
  | None => phetioID node = name node
  end ->
  wellFormed (setHeap (heap s ++ [node]) s).
Proof.
  intros Hwf Hempty Hparent j node' Hj. cbn [heap setHeap] in *.
  destruct (decide (j < length (heap s))) as [Hlt|Hge].
  - rewrite lookup_app_l in Hj by exact Hlt.
    destruct (Hwf _ _ Hj) as [Hp Hc]. split.
    + destruct (parentTandem node') as [p|]; [|exact Hp].
      destruct Hp as (Hpj & parent & Hpl & Hpid). split; [exact Hpj|].
      exists parent. split; [|exact Hpid]. apply lookup_app_l_Some. exact Hpl.
    + intros k c Hkc. destruct (Hc _ _ Hkc) as (child & Hcl & ?).
      exists child. split; [apply lookup_app_l_Some; exact Hcl|assumption].
  - rewrite lookup_app_r in Hj by lia.
    destruct (j - length (heap s)) as [|d] eqn:Hd; [|destruct d; discriminate].
    injection Hj as <-. assert (j = length (heap s)) by lia. subst j. split.
    + destruct (parentTandem node) as [p|]; [|exact Hparent].
      destruct Hparent as (parent & Hpl & Hpid).
      split; [eapply lookup_lt_Some; exact Hpl|].
      exists parent. split; [apply lookup_app_l_Some; exact Hpl|exact Hpid].
    + intros k c Hkc. rewrite Hempty in Hkc. rewrite lookup_empty in Hkc. discriminate.
Qed.

Lemma wellFormed_setHeap_same s : wellFormed s -> wellFormed (setHeap (heap s) s).
Proof. intros H. exact H. Qed.

Lemma bind_assertM_run {S B} env cond msg (k : unit -> M S B) s :
  bindM (assertM env cond msg) k s =
    if assertEnabled env && negb cond then (Throw (AssertionError msg), s) else k tt s.
Proof. cbv [bindM assertM liftR jsAssert]. destruct (assertEnabled env && negb cond); reflexivity. Qed.

Lemma sameIdentity_setChildren g : sameIdentity (fun n => setChildren (g n) n).
Proof. intros node. repeat split. Qed.

Lemma sameIdentity_setDisposed : sameIdentity setDisposed.
Proof. intros node. repeat split. Qed.

Lemma preserves_updateFlags self r su d :
  preserves wellFormed (updateNode self (fun n =>
    mkTandem (tandemClass n) (parentTandem n) (name n) (phetioID n) (children n) r su d)).
Proof.
  intros s Hwf. cbn. apply wellFormed_alter; [exact Hwf|intros node; repeat split|].
  intros node k c Hn Hc. cbn in Hc. destruct (Hwf _ _ Hn) as [_ Hch]. eauto.
Qed.

(** The assertions on [hasChild] leave the state alone, whatever they do. *)
Lemma hasChild_guard_state env t nm (f : bool -> bool) msg s :
  snd (when (assertEnabled env) (has <- hasChild t nm ;; assertM env (f has) msg) s) = s.
Proof.
  unfold when. destruct (assertEnabled env); [|reflexivity].
  cbv [bindM hasChild getNode liftR assertM]. destruct (heap s !! t); [|reflexivity].
  destruct (hasOwnChild _ _); [|reflexivity]. destruct (jsAssert _ _ _); reflexivity.
Qed.

Lemma hasChild_guard_run env t nm (f : bool -> bool) msg s node :
  heap s !! t = Some node ->
  (assertEnabled env = true -> children node !! "hasOwnProperty" = None) ->
  when (assertEnabled env) (has <- hasChild t nm ;; assertM env (f has) msg) s =
    if assertEnabled env && negb (f (isSome (children node !! nm)))
    then (Throw (AssertionError msg), s) else (Ok tt, s).
Proof.
  intros Ht Hown. unfold when. destruct (assertEnabled env) eqn:Ha; [|reflexivity].
  rewrite (bindM_run _ _ _ _ _ (hasChild_Ok _ _ _ _ Ht (Hown eq_refl))).
  cbv [assertM liftR jsAssert]. rewrite Ha. cbn [andb].
  destruct (f (isSome (children node !! nm))); reflexivity.
Qed.

Lemma preserves_addChild env p childName self :
  forall s, wellFormed s ->
    (exists child, heap s !! self = Some child /\ parentTandem child = Some p /\ name child = childName) ->
    wellFormed (snd (addChild env p childName self s)).
Proof.
  intros s Hwf (child & Hself & Hcp & Hcn). unfold addChild, bindM.
  pose proof (hasChild_guard_state env p childName negb "child already present" s) as Hg.
  cbv beta in Hg.
  destruct (when _ _ s) as [[u|e] s1]; cbn in Hg; subst s1; [|exact Hwf].
  cbn. apply wellFormed_alter; [exact Hwf|apply sameIdentity_setChildren|].
  intros node k c Hn Hc. cbn in Hc. unfold setChild in Hc.
  destruct (Hwf _ _ Hn) as [_ Hch].
  destruct (String.eqb childName "__proto__"); [eauto|].
  destruct (decide (k = childName)) as [->|Hne].
  - rewrite lookup_insert_eq in Hc. injection Hc as <-. eauto.
  - rewrite lookup_insert_ne in Hc by congruence. eauto.
Qed.

Lemma bindM_snd {S A B} (P : S -> Prop) (m : M S A) (k : A -> M S B) s :
  P (snd (m s)) -> (forall a, preserves P (k a)) -> P (snd (bindM m k s)).
Proof.
  intros Hm Hk. unfold bindM. destruct (m s) as [[a|e] s']; cbn in *; [apply Hk; exact Hm|exact Hm].
Qed.

Lemma preserves_newTandem env cls parent name options :
  preserves wellFormed (newTandem env cls parent name options).
Proof.
  intros s Hwf. unfold newTandem.
  rewrite !bind_assertM_run.
  repeat match goal with |- context [if ?b then (Throw _, _) else _] => destruct b; [exact Hwf|] end.
  destruct parent as [p|].
  - destruct (heap s !! p) as [pn|] eqn:Hp.
    2:{ cbv [bindM getNode]. rewrite Hp. exact Hwf. }
    erewrite bindM_run.
    2:{ erewrite bindM_run by (apply getNode_run; exact Hp). reflexivity. }
    erewrite bindM_run by reflexivity.
    erewrite bindM_run by reflexivity.
    set (new0 := mkTandem cls (Some p) name (append (phetioID pn) name) ∅ true true false).
    set (s1 := setHeap (heap s ++ [new0]) s).
    assert (Hwf1 : wellFormed s1).
    { apply wellFormed_append; [exact Hwf|reflexivity|]. cbn. eauto. }
    assert (Hp1 : heap s1 !! p = Some pn).
    { cbn. apply lookup_app_l_Some. exact Hp. }
    assert (Hself : heap s1 !! length (heap s) = Some new0).
    { cbn. rewrite lookup_app_r by lia. rewrite Nat.sub_diag. reflexivity. }
    apply bindM_snd.
    + unfold bindM at 1.
      pose proof (hasChild_guard_state env p name negb "parent should not have child" s1) as Hg.
      cbv beta in Hg.
      destruct (when _ _ s1) as [[u|e] s2]; cbn in Hg; subst s2; [|exact Hwf1].
      apply preserves_addChild; [exact Hwf1|]. exists new0. auto.
    + intros _. apply preserves_bind; [apply preserves_updateFlags|intros; apply preserves_ret].
  - erewrite bindM_run by reflexivity.
    erewrite bindM_run by reflexivity.
    erewrite bindM_run by reflexivity.
    apply bindM_snd.
    + cbn. apply wellFormed_append; [exact Hwf|reflexivity|reflexivity].
    + intros _. apply preserves_bind; [apply preserves_updateFlags|intros; apply preserves_ret].
Qed.

Lemma wellFormed_state s s' : heap s' = heap s -> wellFormed s -> wellFormed s'.
Proof. unfold wellFormed. intros ->. auto. Qed.

Lemma preserves_getNode t : preserves wellFormed (getNode t).
Proof. intros s H. unfold getNode. destruct (heap s !! t); exact H. Qed.

Lemma preserves_hasChild t nm : preserves wellFormed (hasChild t nm).
Proof.
  apply preserves_bind; [apply preserves_getNode|intros; apply preserves_liftR].
Qed.

Lemma preserves_createTandemBase env t name options :
  preserves wellFormed (createTandemBase env t name options).
Proof.
  unfold createTandemBase.
  preserve_with ltac:(first [apply preserves_getNode | apply preserves_hasChild | apply preserves_newTandem]).
Qed.

Lemma preserves_createTandem env t name options :
  preserves wellFormed (createTandem env t name options).
Proof.
  unfold createTandem.
  preserve_with ltac:(first [apply preserves_getNode | apply preserves_createTandemBase]).
Qed.

Lemma preserves_createDynamicElementTandem env t componentName :
  preserves wellFormed (createDynamicElementTandem env t componentName).
Proof.
  unfold createDynamicElementTandem.
  preserve_with ltac:(first [apply preserves_getNode | apply preserves_hasChild
                            | apply preserves_newTandem | apply preserves_createTandem]).
Qed.

Lemma preserves_removeChild env p childName : preserves wellFormed (removeChild env p childName).
Proof.
  unfold removeChild.
  preserve_with ltac:(first [apply preserves_hasChild]).
  intros s Hwf. cbn. apply wellFormed_alter; [exact Hwf|apply sameIdentity_setChildren|].
  intros node k c Hn Hc. cbn in Hc.
  apply lookup_delete_Some in Hc as [_ Hc]. destruct (Hwf _ _ Hn) as [_ Hch]. eauto.
Qed.

Lemma preserves_dispose env t : preserves wellFormed (dispose env t).
Proof.
  unfold dispose.
  preserve_with ltac:(first [apply preserves_getNode | apply preserves_removeChild]).
  intros s Hwf. cbn. apply wellFormed_alter; [exact Hwf|apply sameIdentity_setDisposed|].
  intros node k c Hn Hc. cbn in Hc. destruct (Hwf _ _ Hn) as [_ Hch]. eauto.
Qed.

Lemma preserves_removePhetioObject env t o : preserves wellFormed (removePhetioObject env t o).
Proof.
  unfold removePhetioObject, notifyListeners.
  preserve_with ltac:(first [apply preserves_getNode | apply preserves_dispose
                            | apply preserves_modify; intros ? Hs; exact Hs]).
Qed.

Lemma preserves_runTreeOp env op : preserves wellFormed (runTreeOp env op).
Proof.
  destruct op; cbn [runTreeOp].
  - apply preserves_bind; [apply preserves_createTandem|intros; apply preserves_ret].
  - apply preserves_bind; [apply preserves_createDynamicElementTandem|intros; apply preserves_ret].
  - apply preserves_dispose.
  - apply preserves_removePhetioObject.
Qed.

Lemma wellFormed_initialState cls rootName : wellFormed (initialState cls rootName).
Proof.
  intros i node Hi. destruct i as [|i]; [|destruct i; discriminate].
  injection Hi as <-. split; [reflexivity|]. intros k c Hc. cbn in Hc.
  rewrite lookup_empty in Hc. discriminate.
Qed.

Lemma runTreeOps_wellFormed env ops : forall s, wellFormed s -> wellFormed (runTreeOps env ops s).
Proof.
  induction ops as [|op ops IH]; intros s Hwf; [exact Hwf|].
  cbn [runTreeOps]. apply IH. apply preserves_runTreeOp. exact Hwf.
Qed.

(** X1: Whatever calls of [createTandem], of the constructor of DynamicTandem
    (through [createDynamicElement]), of [dispose] and of
    [removePhetioObject] are made on a tree that started as a single root,
    and whether they returned or threw, every node keeps what its constructor
    gave it: its parent was made before it, its phetioID is the phetioID of
    its parent, the separator and its own name (its own name for the root),
    and every entry of its [children] is a node that has it as parent and is
    filed under its own name. *)
Theorem tree_stays_well_formed env cls rootName ops :
  wellFormed (runTreeOps env ops (initialState cls rootName)).
Proof.
  apply runTreeOps_wellFormed. apply wellFormed_initialState.
Qed.

Lemma heap_after_construct (h : list TandemNode) t node (f g : TandemNode -> TandemNode) new0 :
  h !! t = Some node ->
  alter g (length h) (alter f t (h ++ [new0])) = <[t := f node]> h ++ [g new0].
Proof.
  intros Ht.
  assert (Hlt : t < length h) by (eapply lookup_lt_Some; eauto).
  apply list_eq. intros i.
  destruct (decide (i = length h)) as [->|Hi].
  - rewrite list_lookup_alter_eq. rewrite list_lookup_alter_ne by lia.
    rewrite !lookup_app_r by (rewrite ?length_insert; lia).
    rewrite length_insert, Nat.sub_diag. reflexivity.
  - rewrite list_lookup_alter_ne by lia.
    destruct (decide (i = t)) as [->|Hit].
    + rewrite list_lookup_alter_eq. rewrite !lookup_app_l by (rewrite ?length_insert; lia).
      rewrite Ht. rewrite list_lookup_insert_eq by lia. reflexivity.
    + rewrite list_lookup_alter_ne by lia.
      destruct (decide (i < length h)).
      * rewrite !lookup_app_l by (rewrite ?length_insert; lia).
        rewrite list_lookup_insert_ne by lia. reflexivity.
      * rewrite !lookup_app_r by (rewrite ?length_insert; lia). rewrite length_insert.
        destruct (i - length h) as [|k] eqn:E; [lia|reflexivity].
Qed.

Lemma newTandem_run env cls s t node name options :
  heap s !! t = Some node ->
  children node !! "hasOwnProperty" = None ->
  children node !! name = None ->
  newTandem env cls (Some t) name options s =
    if assertEnabled env && negb (termRegexTest cls name)
    then (Throw (AssertionError "name should match the regex pattern"), s)
    else if assertEnabled env && negb (negb (String.eqb name METADATA_KEY))
    then (Throw (AssertionError "name cannot match Tandem.METADATA_KEY"), s)
    else (Ok (length (heap s)), withChild s cls t node name options).
Proof.
  intros Ht Hown Hc.
  assert (Hlt : t < length (heap s)) by (eapply lookup_lt_Some; eauto).
  unfold newTandem. rewrite !bind_assertM_run.
  replace (assertEnabled env && negb (match cls with DynamicTandem => isSome (Some t) | _ => true end))
    with false by (destruct cls; cbn; rewrite andb_false_r; reflexivity).
  destruct (assertEnabled env && negb (termRegexTest cls name)); [reflexivity|].
  destruct (assertEnabled env && negb (negb (String.eqb name METADATA_KEY))); [reflexivity|].
  cbv [bindM getNode hasChild hasOwnChild addChild updateNode gets modify ret throw when assertM
       liftR jsAssert].
  destruct (assertEnabled env);
  repeat (progress (cbn [heap setHeap isSome negb andb];
                    rewrite ?andb_false_r, ?Ht, ?Hc, ?Hown, ?(lookup_app_l _ _ _ Hlt))).
  all: f_equal; unfold withChild, constructed; destruct s as [h l b ls d]; cbn [heap setHeap] in *.
  all: unfold setHeap; cbn; f_equal.
  all: apply (heap_after_construct h t node
                (fun n => setChildren (setChild name (length h) (children n)) n)); exact Ht.
Qed.

Lemma createTandemBase_fresh env s t node name options :
  heap s !! t = Some node ->
  children node !! "hasOwnProperty" = None ->
  children node !! name = None ->
  createTandemBase env t name options s =
    newTandem env PlainTandem (Some t) name (getExtendedOptions node options) s.
Proof.
  intros Ht Hown Hc. unfold createTandemBase.
  rewrite (bindM_run _ _ _ _ _ (getNode_run _ _ _ Ht)).
  rewrite (bindM_run _ _ _ _ _ (hasChild_Ok _ _ _ name Ht Hown)).
  rewrite Hc. reflexivity.
Qed.

(** With a child named "hasOwnProperty", [createTandem] is a TypeError for
    every name, on any tandem but a root that refuses the name first. *)
Lemma createTandemBase_shadowed env s t node name options shadow :
  heap s !! t = Some node ->
  children node !! "hasOwnProperty" = Some shadow ->
  createTandemBase env t name options s =
    (Throw (TypeError "this.children.hasOwnProperty is not a function"), s).
Proof.
  intros Ht Hown. unfold createTandemBase.
  rewrite (bindM_run _ _ _ _ _ (getNode_run _ _ _ Ht)).
  unfold bindM. rewrite (hasChild_run _ _ _ name Ht).
  rewrite (hasOwnChild_shadowed _ _ _ Hown). reflexivity.
Qed.

(** X2: With assertions enabled, a fresh name that the term regex rejects is
    refused and the tree is left as it was, on a tandem that has no child
    named "hasOwnProperty". With such a child, [hasChild] is a TypeError
    before the name is looked at, for every name and in every build, and the
    tree is left as it was all the same. *)
Theorem createTandem_rejects_invalid_name env s t node name options :
  heap s !! t = Some node ->
  (assertEnabled env = true ->
   children node !! "hasOwnProperty" = None ->
   children node !! name = None ->
   termRegexTest PlainTandem name = false ->
   exists message, createTandem env t name options s = (Throw (AssertionError message), s)) /\
  (tandemClass node <> RootTandem ->
   isSome (children node !! "hasOwnProperty") = true ->
   createTandem env t name options s =
     (Throw (TypeError "this.children.hasOwnProperty is not a function"), s)).
Proof.
  intros Ht. split.
  2:{ intros Hcls Hown. destruct (children node !! "hasOwnProperty") as [shadow|] eqn:E;
        [|discriminate Hown].
      rewrite (createTandem_unfold _ _ _ _ _ _ Ht).
      destruct (tandemClass node); try contradiction;
        apply (createTandemBase_shadowed _ _ _ _ _ _ _ Ht E). }
  intros Ha Hown Hc Hre.
  rewrite (createTandem_unfold _ _ _ _ _ _ Ht).
  destruct (match tandemClass node with RootTandem => _ | _ => false end); [eauto|].
  rewrite (createTandemBase_fresh _ _ _ _ _ _ Ht Hown Hc).
  rewrite (newTandem_run _ _ _ _ _ _ _ Ht Hown Hc). rewrite Ha, Hre. cbn. eauto.
Qed.

(** The scenario of X2: the name "model.particle", with the separator in it,
    on a root; and the name "model" on a root that has the child
    "hasOwnProperty". *)
Lemma createTandem_rejects_invalid_name_witness :
  (exists message,
     createTandem debugEnv 0 "model.particle" noOptions rootState =
       (Throw (AssertionError message), rootState)) /\
  createTandem debugEnv 0 "model" noOptions shadowedRoot =
    (Throw (TypeError "this.children.hasOwnProperty is not a function"), shadowedRoot).
Proof.
  split.
  - apply (createTandem_rejects_invalid_name debugEnv rootState 0 (rootNode PlainTandem "root")
             "model.particle" noOptions eq_refl); reflexivity.
  - refine (proj2 (createTandem_rejects_invalid_name debugEnv shadowedRoot 0 _ "model" noOptions
                     _) _ _); [vm_compute; reflexivity|discriminate|reflexivity].
Defined.

(** X3: The root of a validated build, with assertions enabled, refuses every
    name outside its list and leaves the tree as it was; a name that ends in
    "Screen" is on the list, and is handled as on any other tandem. *)
Theorem root_allows_only_listed_names env s t node options :
  heap s !! t = Some node ->
  tandemClass node = RootTandem ->
  VALIDATION env = true ->
  assertEnabled env = true ->
  (forall name, allowedOnRoot name = false ->
     exists message, createTandem env t name options s = (Throw (AssertionError message), s)) /\
  (forall name, allowedOnRoot name = true ->
     createTandem env t name options s = createTandemBase env t name options s) /\
  (forall prefix, allowedOnRoot (prefix +:+ "Screen") = true).
Proof.
  intros Ht Hcls Hv Ha. split; [|split].
  - intros name Hn. rewrite (createTandem_unfold _ _ _ _ _ _ Ht). rewrite Hcls, Hv, Ha, Hn.
    eexists. reflexivity.
  - intros name Hn. rewrite (createTandem_unfold _ _ _ _ _ _ Ht). rewrite Hcls, Hv, Ha, Hn. reflexivity.
  - intros prefix. unfold allowedOnRoot. rewrite endsWith_append. rewrite !orb_true_r. reflexivity.
Qed.

(** The scenario of X3: the root of the sim, named "ohmsLaw". *)
Lemma root_allows_only_listed_names_witness :
  (forall name, allowedOnRoot name = false ->
     exists message,
       createTandem debugEnv 0 name noOptions (initialState RootTandem "ohmsLaw") =
         (Throw (AssertionError message), initialState RootTandem "ohmsLaw")) /\
  (forall name, allowedOnRoot name = true ->
     createTandem debugEnv 0 name noOptions (initialState RootTandem "ohmsLaw") =
       createTandemBase debugEnv 0 name noOptions (initialState RootTandem "ohmsLaw")) /\
  (forall prefix, allowedOnRoot (prefix +:+ "Screen") = true).
Proof.
  apply (root_allows_only_listed_names debugEnv (initialState RootTandem "ohmsLaw") 0
           (rootNode RootTandem "ohmsLaw")); reflexivity.
Defined.

Lemma alter_insert_Some {A} (f : A -> A) i (l : list A) x :
  l !! i = Some x -> alter f i l = <[i := f x]> l.
Proof.
  intros Hl. apply list_eq. intros j. destruct (decide (j = i)) as [->|Hne].
  - rewrite list_lookup_alter_eq, Hl. rewrite list_lookup_insert_eq by (eapply lookup_lt_Some; eauto).
    reflexivity.
  - rewrite list_lookup_alter_ne by congruence. rewrite list_lookup_insert_ne by congruence. reflexivity.
Qed.

Lemma removeChild_run env s p parent childName :
  heap s !! p = Some parent ->
  (assertEnabled env = true -> children parent !! "hasOwnProperty" = None) ->
  removeChild env p childName s =
    if assertEnabled env && negb (isSome (children parent !! childName))
    then (Throw (AssertionError "child not present"), s)
    else (Ok tt, setHeap (<[p := setChildren (delete childName (children parent)) parent]> (heap s)) s).
Proof.
  intros Hparent Hown. unfold removeChild.
  pose proof (hasChild_guard_run env p childName (fun b => b) "child not present" s parent
                Hparent Hown) as Hg.
  cbv beta in Hg.
  destruct (assertEnabled env && negb (isSome (children parent !! childName))).
  - rewrite (bindM_throw _ _ _ _ _ Hg). reflexivity.
  - rewrite (bindM_run _ _ _ _ _ Hg). cbv [updateNode modify].
    rewrite (alter_insert_Some _ _ _ _ Hparent). reflexivity.
Qed.

(** With assertions enabled, a child cannot be disposed while its parent has
    a child named "hasOwnProperty": the assertion of [removeChild] calls
    [hasChild]. *)
Lemma removeChild_shadowed env s p parent childName shadow :
  heap s !! p = Some parent ->
  assertEnabled env = true ->
  children parent !! "hasOwnProperty" = Some shadow ->
  removeChild env p childName s =
    (Throw (TypeError "this.children.hasOwnProperty is not a function"), s).
Proof.
  intros Hparent Ha Hown. unfold removeChild, when. rewrite Ha.
  cbv [bindM]. rewrite (hasChild_run _ _ _ _ Hparent).
  rewrite (hasOwnChild_shadowed _ _ _ Hown). reflexivity.
Qed.

Lemma dispose_run env s c child p parent :
  heap s !! c = Some child ->
  parentTandem child = Some p ->
  heap s !! p = Some parent ->
  p <> c ->
  (assertEnabled env = true -> children parent !! "hasOwnProperty" = None) ->
  dispose env c s =
    if assertEnabled env && negb (negb (isDisposed child))
    then (Throw (AssertionError "already disposed"), s)
    else if assertEnabled env && negb (isSome (children parent !! name child))
    then (Throw (AssertionError "child not present"), s)
    else (Ok tt, disposed s c child p parent).
Proof.
  intros Hc Hp Hparent Hne Hown. unfold dispose.
  rewrite (bindM_run _ _ _ _ _ (getNode_run _ _ _ Hc)).
  rewrite bind_assertM_run. destruct (assertEnabled env && negb (negb (isDisposed child))); [reflexivity|].
  rewrite Hp. unfold bindM. rewrite (removeChild_run _ _ _ _ _ Hparent Hown).
  destruct (assertEnabled env && negb _); [reflexivity|]. unfold disposed, updateNode, modify.
  cbn [heap setHeap]. f_equal.
  rewrite (alter_insert_Some _ c _ child); [reflexivity|].
  rewrite list_lookup_insert_ne by congruence. exact Hc.
Qed.


Lemma createTandem_fresh_inv env s t node name options c s1 :
  heap s !! t = Some node ->
  children node !! name = None ->
  createTandem env t name options s = (Ok c, s1) ->
  children node !! "hasOwnProperty" = None /\
  (assertEnabled env = true -> name <> "__proto__") /\
  c = length (heap s) /\
  s1 = withChild s PlainTandem t node name (getExtendedOptions node options) /\
  (forall s', heap s' !! t = Some node ->
     createTandem env t name options s' =
       (Ok (length (heap s')), withChild s' PlainTandem t node name (getExtendedOptions node options))).
Proof.
  intros Ht Hc H.
  rewrite (createTandem_unfold _ _ _ _ _ _ Ht) in H.
  destruct (match tandemClass node with RootTandem => _ | _ => false end) eqn:Hroot; [discriminate|].
  assert (Hown : children node !! "hasOwnProperty" = None).
  { destruct (children node !! "hasOwnProperty") as [shadow|] eqn:E; [exfalso|reflexivity].
    rewrite (createTandemBase_shadowed _ _ _ _ _ _ _ Ht E) in H. discriminate H. }
  rewrite (createTandemBase_fresh _ _ _ _ _ _ Ht Hown Hc) in H.
  rewrite (newTandem_run _ _ _ _ _ _ _ Ht Hown Hc) in H.
  destruct (assertEnabled env && negb (termRegexTest PlainTandem name)) eqn:E1; [discriminate|].
  destruct (assertEnabled env && negb (negb (String.eqb name METADATA_KEY))) eqn:E2; [discriminate|].
  injection H as <- <-. split; [exact Hown|].
  split.
  { intros Ha ->. rewrite Ha in E1. vm_compute in E1. discriminate E1. }
  split; [reflexivity|]. split; [reflexivity|].
  intros s' Ht'.
  rewrite (createTandem_unfold _ _ _ _ _ _ Ht'). rewrite Hroot.
  rewrite (createTandemBase_fresh _ _ _ _ _ _ Ht' Hown Hc).
  rewrite (newTandem_run _ _ _ _ _ _ _ Ht' Hown Hc). rewrite E1, E2. reflexivity.
Qed.

Lemma withChild_lookups s cls t node name options :
  heap s !! t = Some node ->
  heap (withChild s cls t node name options) !! t =
    Some (setChildren (setChild name (length (heap s)) (children node)) node) /\
  heap (withChild s cls t node name options) !! length (heap s) =
    Some (constructed cls t node name options) /\
  length (heap (withChild s cls t node name options)) = S (length (heap s)) /\
  t <> length (heap s).
Proof.
  intros Ht. assert (Hlt : t < length (heap s)) by (eapply lookup_lt_Some; eauto).
  unfold withChild. cbn [heap setHeap]. repeat split.
  - rewrite lookup_app_l by (rewrite length_insert; exact Hlt).
    apply list_lookup_insert_eq. exact Hlt.
  - rewrite lookup_app_r by (rewrite length_insert; lia).
    rewrite length_insert, Nat.sub_diag. reflexivity.
  - rewrite length_app, length_insert. cbn. lia.
  - lia.
Qed.

(** X4: A child that was just made can be disposed; its name is then free
    again on the parent, which looks as it did before the child was made; a
    second [dispose] fails its assertion; and [createTandem] with the same
    name makes a new node with the same phetioID instead of handing back the
    disposed one. With assertions enabled the name is not "hasOwnProperty":
    that child could not be disposed, since [removeChild] asserts
    [hasChild]. *)
Theorem dispose_releases_name env s t node name options c s1 :
  heap s !! t = Some node ->
  children node !! name = None ->
  (assertEnabled env = true -> name <> "hasOwnProperty") ->
  createTandem env t name options s = (Ok c, s1) ->
  exists s2 old c' s3 fresh,
    dispose env c s1 = (Ok tt, s2) /\
    heap s2 !! t = Some node /\
    heap s2 !! c = Some old /\ isDisposed old = true /\
    (assertEnabled env = true ->
     dispose env c s2 = (Throw (AssertionError "already disposed"), s2)) /\
    createTandem env t name options s2 = (Ok c', s3) /\
    c' <> c /\
    heap s3 !! c' = Some fresh /\ isDisposed fresh = false /\
    phetioID fresh = phetioID old /\
    heap s3 !! c = Some old.
Proof.
  intros Ht Hc Hname H.
  destruct (createTandem_fresh_inv _ _ _ _ _ _ _ _ Ht Hc H) as (Hown & Hnp & -> & -> & Hagain).
  set (opts := getExtendedOptions node options) in *.
  destruct (withChild_lookups s PlainTandem t node name opts Ht) as (Ht1 & Hc1 & Hlen1 & Hne).
  set (s1 := withChild s PlainTandem t node name opts) in *.
  set (child := constructed PlainTandem t node name opts) in *.
  set (node1 := setChildren (setChild name (length (heap s)) (children node)) node) in *.
  assert (Hlt : t < length (heap s)) by (eapply lookup_lt_Some; eauto).
  set (s2 := disposed s1 (length (heap s)) child t node1).
  assert (Hown1 : assertEnabled env = true -> children node1 !! "hasOwnProperty" = None).
  { intros Ha. cbn [children node1 setChildren].
    rewrite setChild_lookup_ne by (intros E; apply (Hname Ha); congruence). exact Hown. }
  assert (Hd : dispose env (length (heap s)) s1 = (Ok tt, s2)).
  { rewrite (dispose_run env s1 _ child t node1 Hc1 eq_refl Ht1 Hne Hown1).
    cbn [isDisposed child constructed negb]. rewrite andb_false_r.
    destruct (assertEnabled env) eqn:Ha; [|reflexivity].
    cbn [Tandem.name children node1 setChildren child constructed].
    rewrite (setChild_insert _ _ _ (Hnp eq_refl)). rewrite lookup_insert_eq. reflexivity. }
  assert (Ht2 : heap s2 !! t = Some node).
  { unfold s2, disposed. cbn [heap setHeap].
    rewrite list_lookup_insert_ne by lia.
    rewrite list_lookup_insert_eq by (rewrite Hlen1; lia).
    cbn [Tandem.name child constructed children node1 setChildren].
    rewrite delete_setChild by exact Hc. destruct node; reflexivity. }
  assert (Hc2 : heap s2 !! length (heap s) = Some (setDisposed child)).
  { unfold s2, disposed. cbn [heap setHeap].
    apply list_lookup_insert_eq. rewrite length_insert, Hlen1. lia. }
  assert (Hlen2 : length (heap s2) = S (length (heap s))).
  { unfold s2, disposed. cbn [heap setHeap]. rewrite !length_insert. exact Hlen1. }
  destruct (withChild_lookups s2 PlainTandem t node name opts Ht2) as (Ht3 & Hc3 & Hlen3 & _).
  exists s2, (setDisposed child), (length (heap s2)), (withChild s2 PlainTandem t node name opts),
    (constructed PlainTandem t node name opts).
  split; [exact Hd|]. split; [exact Ht2|]. split; [exact Hc2|]. split; [reflexivity|].
  split.
  { intros Ha. unfold dispose.
    rewrite (bindM_run _ _ _ _ _ (getNode_run _ _ _ Hc2)).
    rewrite bind_assertM_run. rewrite Ha. reflexivity. }
  split; [apply Hagain; exact Ht2|].
  split; [lia|]. split; [exact Hc3|]. split; [reflexivity|]. split; [reflexivity|].
  unfold withChild. cbn [heap setHeap].
  rewrite lookup_app_l by (rewrite length_insert; lia).
  rewrite list_lookup_insert_ne by lia. exact Hc2.
Qed.

(** The scenario of X4: the child "model" of a root is made, disposed and made
    again. *)
Lemma dispose_releases_name_witness :
  exists s1 s2 old c' s3 fresh,
    createTandem debugEnv 0 "model" noOptions rootState = (Ok 1, s1) /\
    dispose debugEnv 1 s1 = (Ok tt, s2) /\
    heap s2 !! 0 = Some (rootNode PlainTandem "root") /\
    heap s2 !! 1 = Some old /\ isDisposed old = true /\
    (assertEnabled debugEnv = true ->
     dispose debugEnv 1 s2 = (Throw (AssertionError "already disposed"), s2)) /\
    createTandem debugEnv 0 "model" noOptions s2 = (Ok c', s3) /\
    c' <> 1 /\
    heap s3 !! c' = Some fresh /\ isDisposed fresh = false /\
    phetioID fresh = phetioID old /\
    heap s3 !! 1 = Some old.
Proof.
  exists (snd (createTandem debugEnv 0 "model" noOptions rootState)).
  assert (H : createTandem debugEnv 0 "model" noOptions rootState =
              (Ok 1, snd (createTandem debugEnv 0 "model" noOptions rootState)))
    by (vm_compute; reflexivity).
  destruct (dispose_releases_name debugEnv rootState 0 (rootNode PlainTandem "root") "model"
              noOptions 1 _ eq_refl eq_refl ltac:(discriminate) H)
    as (s2 & old & c' & s3 & fresh & Hrest).
  exists s2, old, c', s3, fresh. split; [exact H|]. exact Hrest.
Defined.

Lemma removeFirst_middle {A} (same : A -> bool) pre x post :
  existsb same pre = false -> same x = true ->
  removeFirst same (pre ++ x :: post) = pre ++ post /\
  existsb same (pre ++ x :: post) = true.
Proof.
  intros Hpre Hx. induction pre as [|y pre IH]; cbn in *.
  - rewrite Hx. auto.
  - apply orb_false_elim in Hpre as [Hy Hpre]. rewrite Hy. cbn.
    destruct (IH Hpre) as [-> ->]. auto.
Qed.

Lemma sameObject_refl o : sameObject o o = true.
Proof. apply Nat.eqb_refl. Qed.

Lemma instrumentedIn_disposed s c child p parent x :
  heap s !! c = Some child -> heap s !! p = Some parent ->
  instrumentedIn (heap s) x -> instrumentedIn (heap (disposed s c child p parent)) x.
Proof.
  intros Hc Hp (node & Hn & Hs). unfold instrumentedIn, disposed. cbn [heap setHeap].
  assert (Hcl : c < length (heap s)) by (eapply lookup_lt_Some; eauto).
  assert (Hpl : p < length (heap s)) by (eapply lookup_lt_Some; eauto).
  destruct (decide (tandem x = c)) as [E|Hxc].
  - rewrite E in *. rewrite list_lookup_insert_eq by (rewrite length_insert; exact Hcl).
    eexists; split; [reflexivity|]. cbn. congruence.
  - rewrite list_lookup_insert_ne by congruence.
    destruct (decide (tandem x = p)) as [E|Hxp].
    + rewrite E in *. rewrite list_lookup_insert_eq by exact Hpl. eexists; split; [reflexivity|]. cbn. congruence.
    + rewrite list_lookup_insert_ne by congruence. eauto.
Qed.

(** The part of [removePhetioObject] that comes before the tandem is
    disposed, for a tandem that is required or supplied. *)
Lemma removePhetioObject_run env s o node :
  heap s !! tandem o = Some node ->
  negb (required node) && negb (supplied node) = false ->
  removePhetioObject env (tandem o) o s =
    (when (PHET_IO_ENABLED env)
       (isLaunched <- gets launched ;;
        if negb isLaunched then
          buffered <- gets bufferedPhetioObjects ;;
          assertM env (existsb (sameObject o) buffered) "should contain item" ;;;
          remaining <- liftR (arrayRemoveBy sameObject env buffered o) ;;
          modify (setBuffered remaining)
        else notifyListeners (fun listener => RemovePhetioObject listener o)) ;;;
     dispose env (tandem o)) s.
Proof.
  intros Hn Hflags. unfold removePhetioObject.
  rewrite (bindM_run _ _ _ _ _ (getNode_run _ _ _ Hn)). rewrite Hflags. reflexivity.
Qed.

(** X5: An object removed before launch leaves the buffer, its tandem is
    disposed, no listener hears of it, and the launch that follows delivers
    the other buffered objects only. With assertions enabled the parent of
    the tandem has no child named "hasOwnProperty": disposing the tandem
    asserts [hasChild] on the parent. *)
Theorem removed_before_launch_is_never_delivered env s o node p parent pre post :
  PHET_IO_ENABLED env = true ->
  launched s = false ->
  heap s !! tandem o = Some node ->
  supplied node = true ->
  isDisposed node = false ->
  parentTandem node = Some p ->
  p <> tandem o ->
  heap s !! p = Some parent ->
  isSome (children parent !! name node) = true ->
  (assertEnabled env = true -> children parent !! "hasOwnProperty" = None) ->
  bufferedPhetioObjects s = pre ++ o :: post ->
  existsb (sameObject o) pre = false ->
  Forall (instrumentedIn (heap s)) (pre ++ post) ->
  exists s1 s2 old,
    removePhetioObject env (tandem o) o s = (Ok tt, s1) /\
    bufferedPhetioObjects s1 = pre ++ post /\
    delivered s1 = delivered s /\
    heap s1 !! tandem o = Some old /\ isDisposed old = true /\
    launch env s1 = (Ok tt, s2) /\
    delivered s2 = delivered s ++ fanOut (phetioObjectListeners s) (pre ++ post) /\
    bufferedPhetioObjects s2 = [].
Proof.
  intros Hio Hl Hn Hsup Hdis Hp Hne Hparent Hchild Hown Hbuf Hpre Hall.
  destruct (removeFirst_middle (sameObject o) pre o post Hpre (sameObject_refl o)) as [Hrm Hex].
  set (s0 := setBuffered (pre ++ post) s).
  set (s1 := disposed s0 (tandem o) node p parent).
  assert (Hrun : removePhetioObject env (tandem o) o s = (Ok tt, s1)).
  { rewrite (removePhetioObject_run _ _ _ _ Hn) by (rewrite Hsup; apply andb_false_r).
    rewrite Hio. cbv [when bindM gets modify liftR assertM jsAssert arrayRemoveBy bindR].
    repeat (progress (cbv beta iota zeta; rewrite ?Hl, ?Hbuf, ?Hex, ?Hrm, ?andb_false_r; cbn [negb andb])).
    fold s0.
    rewrite (dispose_run env s0 (tandem o) node p parent Hn Hp Hparent Hne Hown).
    rewrite Hdis, Hchild. cbn [negb]. rewrite !andb_false_r. reflexivity. }
  assert (Hall1 : Forall (instrumentedIn (heap s1)) (pre ++ post)).
  { eapply Forall_impl; [exact Hall|]. intros x Hx.
    apply (instrumentedIn_disposed s0 _ _ _ _ x Hn Hparent Hx). }
  assert (Hlaunch : launch env s1 =
            (Ok tt, addDelivered (fanOut (phetioObjectListeners s) (pre ++ post))
                      (setBuffered [] (setLaunched true s1)))).
  { unfold launch. cbv [bindM gets modify assertM liftR jsAssert].
    change (launched s1) with (launched s). rewrite Hl. cbn [negb]. rewrite andb_false_r.
    erewrite (launchLoop_flushes env (pre ++ post));
      [|assumption|reflexivity|reflexivity|exact Hall1|cbn; lia].
    cbn. rewrite andb_false_r. reflexivity. }
  exists s1, (addDelivered (fanOut (phetioObjectListeners s) (pre ++ post))
               (setBuffered [] (setLaunched true s1))), (setDisposed node).
  split; [exact Hrun|]. split; [reflexivity|]. split; [reflexivity|].
  split.
  { unfold s1, disposed. cbn [heap setHeap]. apply list_lookup_insert_eq.
    rewrite length_insert. eapply lookup_lt_Some; eauto. }
  split; [reflexivity|]. split; [exact Hlaunch|]. split; reflexivity.
Qed.


(** The scenario of X5: of the two objects registered before launch, the one
    on root.general.model is removed, and launch delivers the other to the two
    listeners. *)
Lemma removed_before_launch_is_never_delivered_witness :
  exists s1 s2 old,
    removePhetioObject debugEnv 2 modelObject registeredTree = (Ok tt, s1) /\
    bufferedPhetioObjects s1 = [generalObject] /\
    delivered s1 = [] /\
    heap s1 !! 2 = Some old /\ isDisposed old = true /\
    launch debugEnv s1 = (Ok tt, s2) /\
    delivered s2 = [AddPhetioObject 7 generalObject; AddPhetioObject 8 generalObject] /\
    bufferedPhetioObjects s2 = [].
Proof.
  pose proof (removed_before_launch_is_never_delivered debugEnv registeredTree modelObject
                (mkTandem PlainTandem (Some 1) "model" "root.general.model" ∅ true true false) 1
                (mkTandem PlainTandem (Some 0) "general" "root.general" {["model" := 2]} true true false)
                [generalObject] []) as H.
  apply H; try reflexivity.
  - discriminate.
  - repeat constructor. eexists; split; reflexivity.
Defined.

(** X6: An object removed after launch is announced to every listener, in the
    order the listeners were added; the buffer is left alone and the tandem
    is disposed. With assertions enabled the parent of the tandem has no
    child named "hasOwnProperty": disposing the tandem asserts [hasChild] on
    the parent. *)
Theorem removed_after_launch_is_announced env s o node p parent :
  PHET_IO_ENABLED env = true ->
  launched s = true ->
  heap s !! tandem o = Some node ->
  supplied node = true ->
  isDisposed node = false ->
  parentTandem node = Some p ->
  p <> tandem o ->
  heap s !! p = Some parent ->
  isSome (children parent !! name node) = true ->
  (assertEnabled env = true -> children parent !! "hasOwnProperty" = None) ->
  exists s1 old parent1,
    removePhetioObject env (tandem o) o s = (Ok tt, s1) /\
    delivered s1 = delivered s ++ removals (phetioObjectListeners s) o /\
    bufferedPhetioObjects s1 = bufferedPhetioObjects s /\
    heap s1 !! tandem o = Some old /\ isDisposed old = true /\
    heap s1 !! p = Some parent1 /\ children parent1 !! name node = None.
Proof.
  intros Hio Hl Hn Hsup Hdis Hp Hne Hparent Hchild Hown.
  set (s0 := addDelivered (removals (phetioObjectListeners s) o) s).
  exists (disposed s0 (tandem o) node p parent), (setDisposed node),
    (setChildren (delete (name node) (children parent)) parent).
  split.
  { rewrite (removePhetioObject_run _ _ _ _ Hn) by (rewrite Hsup; apply andb_false_r).
    rewrite Hio. cbv [when bindM gets modify notifyListeners].
    repeat (progress (cbv beta iota zeta; rewrite ?Hl; cbn [negb andb])).
    fold (removals (phetioObjectListeners s) o). fold s0.
    rewrite (dispose_run env s0 (tandem o) node p parent Hn Hp Hparent Hne Hown).
    rewrite Hdis, Hchild. cbn [negb]. rewrite !andb_false_r. reflexivity. }
  split; [reflexivity|]. split; [reflexivity|].
  assert (Hcl : tandem o < length (heap s)) by (eapply lookup_lt_Some; eauto).
  assert (Hpl : p < length (heap s)) by (eapply lookup_lt_Some; eauto).
  split.
  { unfold disposed. cbn [heap setHeap]. apply list_lookup_insert_eq. rewrite length_insert. exact Hcl. }
  split; [reflexivity|]. split.
  { unfold disposed. cbn [heap setHeap]. rewrite list_lookup_insert_ne by congruence.
    apply list_lookup_insert_eq. exact Hpl. }
  cbn. apply lookup_delete_eq.
Qed.

(** The scenario of X6: the object on root.general.model is removed after
    launch, and the two listeners hear of it. *)
Lemma removed_after_launch_is_announced_witness :
  exists s1 old parent1,
    removePhetioObject debugEnv 2 modelObject launchedTree = (Ok tt, s1) /\
    delivered s1 =
      delivered launchedTree ++ [RemovePhetioObject 7 modelObject; RemovePhetioObject 8 modelObject] /\
    bufferedPhetioObjects s1 = [] /\
    heap s1 !! 2 = Some old /\ isDisposed old = true /\
    heap s1 !! 1 = Some parent1 /\ children parent1 !! "model" = None.
Proof.
  pose proof (removed_after_launch_is_announced debugEnv launchedTree modelObject
                (mkTandem PlainTandem (Some 1) "model" "root.general.model" ∅ true true false) 1
                (mkTandem PlainTandem (Some 0) "general" "root.general" {["model" := 2]} true true false))
    as H.
  apply H; try reflexivity. discriminate.
Defined.

(** X7: Nothing is registered through a tandem that is optional and was not
    supplied, in any build, and removing such an object neither notifies a
    listener nor disposes the tandem; a child made under it without options
    of its own is optional and not supplied in turn. *)
Theorem optional_unsupplied_is_never_registered env s t node o :
  heap s !! t = Some node ->
  required node = false ->
  supplied node = false ->
  addPhetioObject env t o s = (Ok tt, s) /\
  removePhetioObject env t o s = (Ok tt, s) /\
  forall name c s',
    children node !! name = None ->
    createTandem env t name noOptions s = (Ok c, s') ->
    exists child, heap s' !! c = Some child /\ required child = false /\ supplied child = false.
Proof.
  intros Hn Hr Hs. split; [|split].
  - unfold addPhetioObject. destruct (PHET_IO_ENABLED env); [|reflexivity].
    rewrite (bindM_run _ _ _ _ _ (getNode_run _ _ _ Hn)).
    rewrite Hr, Hs. cbv [when bindM assertM liftR jsAssert ret].
    destruct (VALIDATION env); cbn; rewrite ?andb_false_r; reflexivity.
  - unfold removePhetioObject.
    rewrite (bindM_run _ _ _ _ _ (getNode_run _ _ _ Hn)). rewrite Hr, Hs. reflexivity.
  - intros name c s' Hc Hcreate.
    destruct (createTandem_fresh_inv _ _ _ _ _ _ _ _ Hn Hc Hcreate) as (_ & _ & -> & -> & _).
    destruct (withChild_lookups s PlainTandem t node name (getExtendedOptions node noOptions) Hn)
      as (_ & Hchild & _).
    eexists. split; [exact Hchild|]. cbn. rewrite Hr, Hs. split; reflexivity.
Qed.

(** The scenario of X7: an object on the tandem root.optionalTandem, which is
    optional and was not supplied. *)
Lemma optional_unsupplied_is_never_registered_witness :
  addPhetioObject debugEnv 1 (mkPhetioObject 5 1) optionalTree = (Ok tt, optionalTree) /\
  removePhetioObject debugEnv 1 (mkPhetioObject 5 1) optionalTree = (Ok tt, optionalTree) /\
  forall name c s',
    (∅ : gmap string nat) !! name = None ->
    createTandem debugEnv 1 name noOptions optionalTree = (Ok c, s') ->
    exists child, heap s' !! c = Some child /\ required child = false /\ supplied child = false.
Proof.
  exact (optional_unsupplied_is_never_registered debugEnv optionalTree 1
           (mkTandem PlainTandem (Some 0) "optionalTandem" "root.optionalTandem" ∅ false false false)
           (mkPhetioObject 5 1) eq_refl eq_refl eq_refl).
Defined.

(** X8: An object on a tandem that is required but was not supplied: a
    validated build with assertions refuses it and changes nothing; any other
    PhET-iO build registers it like a supplied one. *)
Theorem required_but_not_supplied env s t node o :
  PHET_IO_ENABLED env = true ->
  heap s !! t = Some node ->
  required node = true ->
  supplied node = false ->
  addPhetioObject env t o s =
    if VALIDATION env && assertEnabled env
    then (Throw (AssertionError "Tandem was required but not supplied"), s)
    else if launched s
    then (Ok tt, addDelivered (deliveries (phetioObjectListeners s) o) s)
    else (Ok tt, setBuffered (bufferedPhetioObjects s ++ [o]) s).
Proof.
  intros Hio Hn Hr Hs. unfold addPhetioObject. rewrite Hio.
  rewrite (bindM_run _ _ _ _ _ (getNode_run _ _ _ Hn)).
  rewrite Hr, Hs. cbv [when bindM assertM liftR jsAssert ret gets modify notifyListeners].
  destruct (VALIDATION env), (assertEnabled env); cbn; destruct (launched s); reflexivity.
Qed.

(** The scenario of X8: an object on the tandem root.requiredTandem, which is
    required and was not supplied, in a debug build and in a production build. *)
Lemma required_but_not_supplied_witness :
  addPhetioObject debugEnv 2 (mkPhetioObject 6 2) optionalTree =
    (Throw (AssertionError "Tandem was required but not supplied"), optionalTree) /\
  addPhetioObject productionEnv 2 (mkPhetioObject 6 2) optionalTree =
    (Ok tt, setBuffered [mkPhetioObject 6 2] optionalTree).
Proof.
  split.
  - exact (required_but_not_supplied debugEnv optionalTree 2
             (mkTandem PlainTandem (Some 0) "requiredTandem" "root.requiredTandem" ∅ true false false)
             (mkPhetioObject 6 2) eq_refl eq_refl eq_refl eq_refl).
  - exact (required_but_not_supplied productionEnv optionalTree 2
             (mkTandem PlainTandem (Some 0) "requiredTandem" "root.requiredTandem" ∅ true false false)
             (mkPhetioObject 6 2) eq_refl eq_refl eq_refl eq_refl).
Defined.

Lemma ancestorOf_parent_inv h a t node p :
  h !! t = Some node -> parentTandem node = Some p -> p <> a ->
  ancestorOf h a t <-> ancestorOf h a p.
Proof.
  intros Ht Hp Hne. split.
  - intros H. inversion H as [t0 node0 Ht0 Hp0|t0 node0 p0 Ht0 Hp0 Hrest]; subst.
    + congruence.
    + assert (p0 = p) by congruence. subst. exact Hrest.
  - intros H. eapply ancestor_further; eauto.
Qed.

(** X9: In a tree built by the constructor, [hasAncestor] comes back with
    [true] or with [null], never with [false]; it is [true] exactly for the
    tandems above the receiver, and for [null] as argument. *)
Theorem hasAncestor_true_or_null s ancestor fuel : forall t node,
  wellFormed s ->
  heap s !! t = Some node ->
  t <= fuel ->
  exists v,
    hasAncestor fuel (heap s) t ancestor = Ok v /\
    (v = VBool true \/ v = VNull) /\
    (v = VBool true <->
     match ancestor with
     | Some a => ancestorOf (heap s) a t
     | None => True
     end).
Proof.
  induction fuel as [|fuel IH]; intros t node Hwf Ht Hfuel.
  - assert (t = 0) by lia. subst t.
    destruct (Hwf _ _ Ht) as [Hparent _].
    destruct (parentTandem node) as [p|] eqn:Hp; [destruct Hparent; lia|].
    cbn. rewrite Ht, Hp.
    destruct ancestor as [a|].
    + rewrite bool_decide_eq_false_2 by discriminate. exists VNull.
      split; [reflexivity|]. split; [auto|]. split; [discriminate|].
      intros H. inversion H; congruence.
    + rewrite bool_decide_eq_true_2 by reflexivity. exists (VBool true). tauto.
  - destruct (Hwf _ _ Ht) as [Hparent _].
    cbn [hasAncestor]. rewrite Ht.
    destruct (bool_decide (parentTandem node = ancestor)) eqn:Hdec.
    + apply bool_decide_eq_true_1 in Hdec. exists (VBool true).
      split; [reflexivity|]. split; [auto|]. split; [|reflexivity].
      intros _. destruct ancestor as [a|]; [|exact I]. eapply ancestor_parent; eauto.
    + apply bool_decide_eq_false_1 in Hdec.
      destruct (parentTandem node) as [p|] eqn:Hp.
      * destruct Hparent as (Hlt & parent & Hpl & _).
        destruct (IH p parent Hwf Hpl ltac:(lia)) as (v & Hv & Hcases & Hiff).
        exists v. split; [exact Hv|]. split; [exact Hcases|].
        rewrite Hiff. destruct ancestor as [a|]; [|reflexivity].
        symmetry. eapply ancestorOf_parent_inv; eauto; congruence.
      * exists VNull. split; [reflexivity|]. split; [auto|]. split; [discriminate|].
        destruct ancestor as [a|]; [|congruence].
        intros H. inversion H; congruence.
Qed.


Lemma wellFormed_groupTree : wellFormed groupTree.
Proof. apply runTreeOps_wellFormed. apply wellFormed_initialState. Qed.

(** The scenario of X9: the tandem of the group is asked for from the child of
    one of its elements. *)
Lemma hasAncestor_true_or_null_witness :
  exists v,
    hasAncestor 3 (heap groupTree) 3 (Some 1) = Ok v /\
    (v = VBool true \/ v = VNull) /\
    (v = VBool true <-> ancestorOf (heap groupTree) 1 3).
Proof.
  exact (hasAncestor_true_or_null groupTree (Some 1) 3 3
           (mkTandem PlainTandem (Some 2) "visibleProperty"
              "root.particleGroup.particle_0.visibleProperty" ∅ true true false)
           wellFormed_groupTree eq_refl (le_n 3)).
Defined.

Lemma getArchetypalPhetioID_static env s t :
  wellFormed s ->
  staticPath (heap s) t ->
  forall fuel node, t <= fuel -> heap s !! t = Some node ->
    getArchetypalPhetioID env fuel (heap s) t = Ok (phetioID node).
Proof.
  intros Hwf Hpath.
  induction Hpath as [t node0 Ht Hp Hcls|t node0 p Ht Hp Hcls Hpath IH];
    intros fuel node Hfuel Hnode; rewrite Ht in Hnode; injection Hnode as <-.
  - destruct fuel; cbn; rewrite Ht, Hp; destruct (tandemClass node0); try reflexivity; contradiction.
  - destruct (Hwf _ _ Ht) as [Hparent _]. rewrite Hp in Hparent.
    destruct Hparent as (Hlt & parent & Hpl & Hid).
    destruct fuel as [|fuel]; [lia|].
    cbn [getArchetypalPhetioID]. rewrite Ht, Hp.
    rewrite (IH fuel parent ltac:(lia) Hpl). cbn [bindR]. rewrite <- Hid.
    destruct (tandemClass node0); try reflexivity; contradiction.
Qed.

(** X10: Where no DynamicTandem lies at a tandem or above it, in a tree built by
    the constructor, the archetypal phetioID of the tandem is its own
    phetioID. *)
Theorem static_archetypal_phetioID_is_phetioID env s t fuel node :
  wellFormed s ->
  staticPath (heap s) t ->
  t <= fuel ->
  heap s !! t = Some node ->
  getArchetypalPhetioID env fuel (heap s) t = Ok (phetioID node).
Proof.
  intros Hwf Hpath Hfuel Hnode. exact (getArchetypalPhetioID_static env s t Hwf Hpath fuel node Hfuel Hnode).
Qed.

Lemma wellFormed_modelTree : wellFormed modelTree.
Proof.
  apply runTreeOps_wellFormed.
  apply (wellFormed_state rootState); [reflexivity|apply wellFormed_initialState].
Qed.

Lemma staticPath_modelTree : staticPath (heap modelTree) 2.
Proof.
  eapply static_child; [reflexivity|reflexivity|discriminate|].
  eapply static_child; [reflexivity|reflexivity|discriminate|].
  eapply static_root; [reflexivity|reflexivity|discriminate].
Qed.

(** The scenario of X10: the tandem root.general.model. *)
Lemma static_archetypal_phetioID_is_phetioID_witness :
  getArchetypalPhetioID debugEnv 2 (heap modelTree) 2 = Ok "root.general.model".
Proof.
  exact (static_archetypal_phetioID_is_phetioID debugEnv modelTree 2 2
           (mkTandem PlainTandem (Some 1) "model" "root.general.model" ∅ true true false)
           wellFormed_modelTree staticPath_modelTree (le_n 2) eq_refl).
Defined.

(** X11: The archetypal phetioID of a dynamic element under a static container
    is the container's phetioID followed by "archetype", whatever the name of
    the element; and a static child of the element gets the child's name
    after that, so that its archetypal phetioID is its phetioID with the name
    of the element replaced. *)
Theorem dynamic_archetypal_phetioID env s d element p container :
  wellFormed s ->
  heap s !! d = Some element ->
  tandemClass element = DynamicTandem ->
  parentTandem element = Some p ->
  heap s !! p = Some container ->
  staticPath (heap s) p ->
  (forall fuel, d <= fuel ->
     getArchetypalPhetioID env fuel (heap s) d =
       Ok (append (phetioID container) Containers.DYNAMIC_ARCHETYPE_NAME)) /\
  phetioID element = append (phetioID container) (name element) /\
  forall c child fuel,
    heap s !! c = Some child -> parentTandem child = Some d ->
    tandemClass child <> DynamicTandem -> c <= fuel ->
    getArchetypalPhetioID env fuel (heap s) c =
      Ok (append (append (phetioID container) Containers.DYNAMIC_ARCHETYPE_NAME) (name child)) /\
    phetioID child = append (append (phetioID container) (name element)) (name child).
Proof.
  intros Hwf Hd Hcls Hp Hcontainer Hpath.
  destruct (Hwf _ _ Hd) as [Hparent _]. rewrite Hp in Hparent.
  destruct Hparent as (Hlt & parent & Hpl & Hid).
  rewrite Hcontainer in Hpl. injection Hpl as <-.
  assert (Hdyn : forall fuel, d <= fuel ->
            getArchetypalPhetioID env fuel (heap s) d =
              Ok (append (phetioID container) Containers.DYNAMIC_ARCHETYPE_NAME)).
  { intros fuel Hfuel. destruct fuel as [|fuel]; [lia|].
    cbn [getArchetypalPhetioID]. rewrite Hd, Hp, Hcls.
    rewrite (getArchetypalPhetioID_static env s p Hwf Hpath fuel container ltac:(lia) Hcontainer).
    unfold jsAssert. cbn. rewrite andb_false_r. reflexivity. }
  split; [exact Hdyn|]. split; [exact Hid|].
  intros c child fuel Hc Hcp Hccls Hfuel.
  destruct (Hwf _ _ Hc) as [Hparent _]. rewrite Hcp in Hparent.
  destruct Hparent as (Hltc & parent & Hpl & Hidc).
  rewrite Hd in Hpl. injection Hpl as <-.
  split; [|rewrite Hidc, Hid; reflexivity].
  destruct fuel as [|fuel]; [lia|].
  cbn [getArchetypalPhetioID]. rewrite Hc, Hcp.
  rewrite (Hdyn fuel ltac:(lia)). cbn [bindR].
  destruct (tandemClass child); try reflexivity; contradiction.
Qed.


(** The scenario of X11: the element particle_0 of root.particleGroup and its
    child visibleProperty. *)
Lemma dynamic_archetypal_phetioID_witness :
  getArchetypalPhetioID debugEnv 2 (heap groupTree) 2 = Ok "root.particleGroup.archetype" /\
  getArchetypalPhetioID debugEnv 3 (heap groupTree) 3 =
    Ok "root.particleGroup.archetype.visibleProperty" /\
  (phetioID <$> heap groupTree !! 3) = Some "root.particleGroup.particle_0.visibleProperty".
Proof.
  destruct (dynamic_archetypal_phetioID debugEnv groupTree 2
              (mkTandem DynamicTandem (Some 1) "particle_0" "root.particleGroup.particle_0"
                 {["visibleProperty" := 3]} true true false) 1
              (mkTandem PlainTandem (Some 0) "particleGroup" "root.particleGroup"
                 {["particle_0" := 2]} true true false)
              wellFormed_groupTree eq_refl eq_refl eq_refl eq_refl)
    as (Hd & _ & Hc).
  { eapply static_child; [reflexivity|reflexivity|discriminate|].
    eapply static_root; [reflexivity|reflexivity|discriminate]. }
  split; [exact (Hd 2 (le_n 2))|].
  destruct (Hc 3 (mkTandem PlainTandem (Some 2) "visibleProperty"
                    "root.particleGroup.particle_0.visibleProperty" ∅ true true false) 3
              eq_refl eq_refl ltac:(discriminate) (le_n 3)) as [Ha _].
  split; [exact Ha|reflexivity].
Defined.

End TandemTreeFacts.

(** ** Names of dynamic elements *)
Module ElementNameFacts.
Import Tandem Containers StringFacts ComponentNameFacts.

(** X12: The names a group gives its elements are terms of a DynamicTandem and
    never of a plain Tandem: the separator before the index is allowed by the
    one regular expression and not by the other. *)
Theorem element_names_need_a_DynamicTandem base index :
  termRegexTest DynamicTandem base = true ->
  termRegexTest DynamicTandem (componentName base index) = true /\
  termRegexTest PlainTandem (componentName base index) = false /\
  termRegexTest RootTandem (componentName base index) = false.
Proof.
  intros Hbase. unfold termRegexTest in *.
  apply andb_prop in Hbase as [_ Hchars].
  unfold componentName, GROUP_SEPARATOR, indexKey.
  rewrite !list_ascii_of_string_app. rewrite !forallb_app.
  simpl (String.list_ascii_of_string "_").
  split; [|split].
  - rewrite Hchars, digits_are_term_characters. rewrite length_app.
    cbn. rewrite Nat.add_succ_r. reflexivity.
  - cbn. rewrite !andb_false_r. reflexivity.
  - cbn. rewrite !andb_false_r. reflexivity.
Qed.

(** The scenario of X12: the name "particle_7". *)
Lemma element_names_need_a_DynamicTandem_witness :
  termRegexTest DynamicTandem "particle_7" = true /\
  termRegexTest PlainTandem "particle_7" = false /\
  termRegexTest RootTandem "particle_7" = false.
Proof.
  exact (element_names_need_a_DynamicTandem "particle" 7 eq_refl).
Defined.

End ElementNameFacts.

(** ** Groups *)
Module GroupFacts.
Import Containers ContainersFacts ContainerScenarios.
Local Open Scope m_scope.


(** Disposing the first element of the array, with notifications going out
    at once. *)
Lemma disposeGroupElement_head env (w : GroupWorld) e rest o fs :
  _array (self w) = e :: rest ->
  objects w !! e = Some o ->
  isDisposed o = false ->
  notificationsDeferred (groupFields (self w)) = false ->
  (isSettingPhetioState env = true -> fs = true) ->
  let g := setCount (length rest) (setArray rest (self w)) in
  disposeGroupElement env e fs w =
    (Ok tt, mkWorld g (<[e := mkElement (tandemName o) true]> (objects w))
              (emissions w ++ [(ElementDisposed e, g)])
              (childrenWithout env (groupFields (self w)) (tandemName o) (tandemChildren w))).
Proof.
  intros Harr Ho Hd Hdef Hfs. cbv zeta.
  assert (Hin : existsb (Nat.eqb e) (_array (self w)) = true)
    by (rewrite Harr; apply existsb_head).
  rewrite (disposeGroupElement_as_base env w e fs o Ho Hd Hin).
  assert (Ho' : objects (withoutElement env e w) !! e = Some o) by exact Ho.
  rewrite (disposeElementBase_run (H := groupContainer) env _ e o fs Ho' Hd)
    by (intros _ _ Hs; exact (Hfs Hs)).
  unfold withoutElement. rewrite Hin, Harr, removeFirst_head.
  change (notificationsDeferred
            (fields (self (setSelf (setCount (length rest) (setArray rest (self w))) w))))
    with (notificationsDeferred (groupFields (self w))).
  rewrite Hdef. reflexivity.
Qed.

Lemma undisposedIn_insert_ne objs e x o :
  x <> e -> undisposedIn (<[e := o]> objs) x = undisposedIn objs x.
Proof. intros Hne. unfold undisposedIn. rewrite list_lookup_insert_ne by congruence. reflexivity. Qed.

Lemma clearLoop_disposes_all env fs arr : forall (w : GroupWorld) fuel,
  _array (self w) = arr ->
  countProperty (self w) = length arr ->
  NoDup arr ->
  Forall (fun e => undisposedIn (objects w) e = true) arr ->
  notificationsDeferred (groupFields (self w)) = false ->
  (isSettingPhetioState env = true -> fs = true) ->
  length arr <= fuel ->
  exists w',
    clearLoop env fs fuel w = (Ok tt, w') /\
    _array (self w') = [] /\
    countProperty (self w') = 0 /\
    groupElementIndex (self w') = groupElementIndex (self w) /\
    groupFields (self w') = groupFields (self w) /\
    notified w' = notified w ++ map ElementDisposed arr /\
    length (objects w') = length (objects w) /\
    Forall (fun e => undisposedIn (objects w') e = false) arr /\
    (forall x, x ∉ arr -> objects w' !! x = objects w !! x) /\
    (forall x, elementName w' x = elementName w x) /\
    (forall reserved,
       elementChildren reserved (tandemChildren w) -> elementChildren reserved (tandemChildren w')).
Proof.
  induction arr as [|e rest IH]; intros w fuel Harr Hcnt Hnd Hall Hdef Hfs Hfuel.
  - exists w. split.
    { destruct fuel; cbn; cbv [bindM gets ret]; rewrite Harr; reflexivity. }
    rewrite app_nil_r. repeat match goal with |- _ /\ _ => split end; auto.
  - destruct fuel as [|fuel]; [cbn in Hfuel; lia|].
    apply NoDup_cons in Hnd as [Hnotin Hnd].
    apply Forall_cons in Hall as [He Hrest].
    destruct (undisposedIn_Some _ _ He) as (o & Ho & Hd).
    pose proof (disposeGroupElement_head env w e rest o fs Harr Ho Hd Hdef Hfs) as Hrun.
    cbv zeta in Hrun.
    set (g := setCount (length rest) (setArray rest (self w))) in *.
    set (w1 := mkWorld g (<[e := mkElement (tandemName o) true]> (objects w))
                 (emissions w ++ [(ElementDisposed e, g)])
                 (childrenWithout env (groupFields (self w)) (tandemName o)
                    (tandemChildren w))) in *.
    assert (Hrest1 : Forall (fun x => undisposedIn (objects w1) x = true) rest).
    { apply Forall_forall. intros x Hx. cbn [objects w1].
      rewrite undisposedIn_insert_ne by (intros ->; contradiction).
      exact (proj1 (Forall_forall _ _) Hrest x Hx). }
    destruct (IH w1 fuel eq_refl eq_refl Hnd Hrest1 Hdef Hfs ltac:(cbn in Hfuel; lia))
      as (w' & Hloop & Ha & Hc & Hi & Hf & Hn & Hl & Hdis & Hother & Hnames & Hch).
    exists w'. split.
    { cbn [clearLoop]. cbv [bindM gets]. rewrite Harr. rewrite Hrun. exact Hloop. }
    split; [exact Ha|]. split; [exact Hc|]. split; [exact Hi|]. split; [exact Hf|].
    split.
    { rewrite Hn. unfold notified. cbn [emissions w1]. rewrite map_app. cbn.
      rewrite <- app_assoc. reflexivity. }
    split.
    { rewrite Hl. cbn [objects w1]. apply length_insert. }
    split.
    { apply Forall_cons. split; [|exact Hdis].
      unfold undisposedIn. rewrite (Hother e Hnotin). cbn [objects w1].
      rewrite list_lookup_insert_eq by (eapply lookup_lt_Some; eauto). reflexivity. }
    split.
    { intros x Hx. apply not_elem_of_cons in Hx as [Hxe Hx].
      rewrite (Hother x Hx). cbn [objects w1]. apply list_lookup_insert_ne. congruence. }
    split.
    { intros x. rewrite Hnames. unfold elementName. cbn [objects w1].
      destruct (decide (x = e)) as [->|Hne].
      + rewrite list_lookup_insert_eq by (eapply lookup_lt_Some; eauto). rewrite Ho. reflexivity.
      + rewrite list_lookup_insert_ne by congruence. reflexivity. }
    intros reserved Hchildren. apply Hch. cbn [tandemChildren w1].
    apply elementChildren_without. exact Hchildren.
Qed.

Lemma clearGroup_spec env (w : GroupWorld) fromStateSetting resetIndex :
  countProperty (self w) = length (_array (self w)) ->
  NoDup (_array (self w)) ->
  Forall (fun e => undisposedIn (objects w) e = true) (_array (self w)) ->
  notificationsDeferred (groupFields (self w)) = false ->
  (isSettingPhetioState env = true -> fromStateSetting = true) ->
  exists w',
    clearGroup env fromStateSetting resetIndex w = (Ok tt, w') /\
    _array (self w') = [] /\
    countProperty (self w') = 0 /\
    groupElementIndex (self w') = (if resetIndex then 0 else groupElementIndex (self w)) /\
    groupFields (self w') = groupFields (self w) /\
    notified w' = notified w ++ map ElementDisposed (_array (self w)) /\
    length (objects w') = length (objects w) /\
    Forall (fun e => undisposedIn (objects w') e = false) (_array (self w)) /\
    (forall x, x ∉ _array (self w) -> objects w' !! x = objects w !! x) /\
    (forall x, elementName w' x = elementName w x) /\
    (forall reserved,
       elementChildren reserved (tandemChildren w) -> elementChildren reserved (tandemChildren w')).
Proof.
  intros Hcnt Hnd Hall Hdef Hfs.
  destruct (clearLoop_disposes_all env fromStateSetting (_array (self w)) w
              (length (_array (self w))) eq_refl Hcnt Hnd Hall Hdef Hfs (le_n _))
    as (w1 & Hloop & Ha & Hc & Hi & Hf & Hn & Hl & Hdis & Hother & Hnames & Hch).
  destruct resetIndex.
  - exists (setSelf (setIndex 0 (self w1)) w1). split.
    { unfold clearGroup. cbv [bindM gets when updateGroup modify]. rewrite Hloop. reflexivity. }
    cbn. repeat match goal with |- _ /\ _ => split end; auto.
  - exists w1. split.
    { unfold clearGroup. cbv [bindM gets when ret]. rewrite Hloop. reflexivity. }
    repeat match goal with |- _ /\ _ => split end; auto.
Qed.


Lemma createMany_undisposed env n (w w' : GroupWorld) created :
  groupReady env w ->
  isSettingPhetioState env = false ->
  countProperty (self w) = length (_array (self w)) ->
  (N.of_nat (groupElementIndex (self w) + n) <= 2 ^ 53)%N ->
  createMany env n w = (Ok created, w') ->
  created = seq (length (objects w)) n /\
  Forall (fun e => undisposedIn (objects w') e = true) created /\
  map (elementName w') created =
    map (fun i => Some (componentName (phetioDynamicElementName (groupFields (self w))) i))
        (seq (groupElementIndex (self w)) n).
Proof.
  intros Hi Hs Hc Hbound Hrun.
  destruct (createMany_spec env n w Hi Hs Hc Hbound) as (w2 & Hrun2 & Harr & Hobj & _).
  rewrite Hrun in Hrun2. injection Hrun2 as -> ->.
  split; [reflexivity|]. split.
  - apply Forall_forall. intros e He. apply elem_of_seq in He.
    unfold undisposedIn. rewrite Hobj. rewrite lookup_app_r by lia.
    rewrite list_lookup_fmap. rewrite lookup_seq_lt by lia. reflexivity.
  - unfold elementName. rewrite Hobj.
    apply list_eq. intros i. rewrite !list_lookup_fmap.
    destruct (decide (i < n)) as [Hlt|Hge].
    + rewrite !lookup_seq_lt by lia. cbn.
      rewrite lookup_app_r by lia. rewrite list_lookup_fmap.
      replace (length (objects w) + i - length (objects w)) with i by lia.
      rewrite lookup_seq_lt by lia. reflexivity.
    + rewrite !lookup_seq_ge by lia. reflexivity.
Qed.

(** X14: After [clear], numbering starts again at 0 unless [resetIndex] is
    false: on a new group whose element names are terms of a DynamicTandem
    where assertions check them, [N] elements are created, for [N] below
    2^53 (up to where the counter is exact), and the group is cleared; the
    next element is then named with index 0 (the name the first element had,
    which is disposed by then) or, with [resetIndex: false], with index
    [N]. *)
Theorem clear_restarts_numbering env name w0 N resetIndex :
  newPhetioGroup env true name = Ok w0 ->
  isSettingPhetioState env = false ->
  (assertEnabled env = true ->
   forallb (Tandem.termChar Tandem.DynamicTandem)
     (String.list_ascii_of_string (phetioDynamicElementName (groupFields (self w0)))) = true) ->
  (N.of_nat N < 2 ^ 53)%N ->
  exists created w1 w2 fresh w3,
    createMany env N w0 = (Ok created, w1) /\
    clearGroup env false resetIndex w1 = (Ok tt, w2) /\
    _array (self w2) = [] /\
    countProperty (self w2) = 0 /\
    createNextElement env w2 = (Ok fresh, w3) /\
    elementName w3 fresh =
      Some (componentName (phetioDynamicElementName (groupFields (self w0)))
              (if resetIndex then 0 else N)) /\
    _array (self w3) = [fresh] /\
    Forall (fun e => undisposedIn (objects w3) e = false) created /\
    map (elementName w3) created =
      map (fun i => Some (componentName (phetioDynamicElementName (groupFields (self w0))) i))
          (seq 0 N).
Proof.
  intros Hnew Hs Hbase HN.
  destruct (newPhetioGroup_fresh _ _ _ _ Hnew) as (Ha0 & Hi0 & Hc0 & Hins & Hdef0 & _ & _ & _).
  pose proof (newPhetioGroup_ready env name w0 Hnew Hbase) as Hready0.
  assert (Hcnt0 : countProperty (self w0) = length (_array (self w0))) by (rewrite Hc0, Ha0; reflexivity).
  assert (Hbound : (N.of_nat (groupElementIndex (self w0) + N) <= 2 ^ 53)%N).
  { rewrite Hi0. cbn [Nat.add]. apply N.lt_le_incl. exact HN. }
  destruct (createMany_spec env N w0 Hready0 Hs Hcnt0 Hbound)
    as (w1 & Hrun & Harr1 & Hobj1 & Hidx1 & Hcnt1 & Hready1 & Hins1 & Hnm1 & Hdef1).
  destruct (createMany_undisposed env N w0 w1 _ Hready0 Hs Hcnt0 Hbound Hrun) as (_ & Hlive & Hnames).
  rewrite Ha0 in Harr1. cbn [app] in Harr1. rewrite Hi0 in Hidx1, Hnames, Hobj1. cbn in Hidx1.
  set (created := seq (length (objects w0)) N) in *.
  destruct (clearGroup_spec env w1 false resetIndex Hcnt1) as
    (w2 & Hclear & Ha2 & Hc2 & Hidx2 & Hf2 & _ & Hl2 & Hdis2 & Hother2 & Hnames2 & Hch2).
  { rewrite Harr1. apply NoDup_seq. }
  { rewrite Harr1. exact Hlive. }
  { rewrite Hdef1. exact Hdef0. }
  { intros E. congruence. }
  assert (Hready2 : groupReady env w2).
  { destruct Hready1 as (A & B & C). split; [rewrite Hf2; exact A|].
    split; [exact (Hch2 _ B)|]. rewrite Hf2. exact C. }
  destruct (createNextElement_spec env w2 Hready2 Hs) as (w3 & Hnext & Ha3 & Hobj3 & _).
  assert (Hlen1 : length (objects w1) = length (objects w0) + N).
  { rewrite Hobj1, length_app, length_map, length_seq. reflexivity. }
  exists created, w1, w2, (length (objects w2)), w3.
  split; [exact Hrun|]. split; [exact Hclear|]. split; [exact Ha2|]. split; [exact Hc2|].
  split; [exact Hnext|].
  split.
  { unfold elementName. rewrite Hobj3. rewrite lookup_app_r by lia. rewrite Nat.sub_diag. cbn.
    rewrite Hf2, Hnm1, Hidx2, Hidx1. reflexivity. }
  split; [rewrite Ha3, Ha2; reflexivity|].
  assert (Hkeep : forall e, e ∈ created -> objects w3 !! e = objects w2 !! e).
  { intros e He. apply elem_of_seq in He. rewrite Hobj3. apply lookup_app_l. lia. }
  split.
  - rewrite Harr1 in Hdis2. apply Forall_forall. intros e He.
    unfold undisposedIn. rewrite (Hkeep e He).
    exact (proj1 (Forall_forall _ _) Hdis2 e He).
  - rewrite <- Hnames. apply map_ext_in. intros e He. apply list_elem_of_In in He.
    rewrite <- Hnames2. unfold elementName. rewrite (Hkeep e He). reflexivity.
Qed.



(** The scenario of X14: three elements, [clear], and one more element, which
    is named "particle_0" again. *)
Lemma clear_restarts_numbering_witness :
  exists created w1 w2 fresh w3,
    createMany debugEnv 3 particleGroup = (Ok created, w1) /\
    clearGroup debugEnv false true w1 = (Ok tt, w2) /\
    _array (self w2) = [] /\
    countProperty (self w2) = 0 /\
    createNextElement debugEnv w2 = (Ok fresh, w3) /\
    elementName w3 fresh = Some "particle_0" /\
    _array (self w3) = [fresh] /\
    Forall (fun e => undisposedIn (objects w3) e = false) created /\
    map (elementName w3) created = [Some "particle_0"; Some "particle_1"; Some "particle_2"].
Proof.
  exact (clear_restarts_numbering debugEnv "particleGroup" particleGroup 3 true
           eq_refl eq_refl (fun _ => eq_refl) eq_refl).
Defined.



(** X16: [addChildElement] of the group's IO Type, used when state is set, on
    a group that can make elements (see [groupReady]), for an index and a
    counter below 2^53, where the numbers are exact: the element gets the
    index read off its name, and the counter is moved past that index if it
    was not already, so that the next [createNextElement] gets another
    name. *)
Theorem addChildElement_keeps_counter_ahead env (w : GroupWorld) index :
  groupReady env w ->
  (N.of_nat index < 2 ^ 53)%N ->
  (N.of_nat (groupElementIndex (self w)) < 2 ^ 53)%N ->
  let base := phetioDynamicElementName (groupFields (self w)) in
  exists e w1,
    addChildElement env index w = (Ok e, w1) /\
    elementName w1 e = Some (componentName base index) /\
    _array (self w1) = _array (self w) ++ [e] /\
    groupElementIndex (self w1) = Nat.max (index + 1) (groupElementIndex (self w)) /\
    (isSettingPhetioState env = false ->
     exists fresh w2,
       createNextElement env w1 = (Ok fresh, w2) /\
       elementName w2 fresh = Some (componentName base (groupElementIndex (self w1))) /\
       elementName w2 e = Some (componentName base index) /\
       elementName w2 fresh <> elementName w2 e).
Proof.
  intros Hready Hindex _ base.
  destruct (createIndexedElement_spec env index true w Hready (fun _ => eq_refl))
    as (w' & Hrun' & Harr' & Hobj' & Hidx' & _ & Hready' & Hcfg').
  set (w1 := setSelf (setIndex (Nat.max (addOne index) (groupElementIndex (self w'))) (self w')) w').
  assert (Hrun : addChildElement env index w = (Ok (length (objects w)), w1)).
  { unfold addChildElement. rewrite (bindM_run _ _ _ _ _ Hrun'). reflexivity. }
  assert (Hobj : objects w1 = objects w ++ [mkElement (componentName base index) false])
    by exact Hobj'.
  assert (Hidx : groupElementIndex (self w1) = Nat.max (index + 1) (groupElementIndex (self w))).
  { unfold w1. cbn [self setSelf groupElementIndex setIndex].
    rewrite Hidx', (addOne_small index Hindex), Nat.add_1_r. reflexivity. }
  assert (Hn1 : phetioDynamicElementName (groupFields (self w1)) = base).
  { destruct Hcfg' as (_ & Hn & _). exact Hn. }
  exists (length (objects w)), w1. split; [exact Hrun|].
  assert (Hname : elementName w1 (length (objects w)) = Some (componentName base index)).
  { unfold elementName. rewrite Hobj. rewrite lookup_app_r by lia. rewrite Nat.sub_diag. reflexivity. }
  split; [exact Hname|]. split; [exact Harr'|]. split; [exact Hidx|].
  intros Hs.
  destruct (createNextElement_spec env w1 Hready' Hs) as (w2 & Hnext & _ & Hobj2 & _).
  exists (length (objects w1)), w2. split; [exact Hnext|].
  assert (Hfresh : elementName w2 (length (objects w1)) =
                   Some (componentName base (groupElementIndex (self w1)))).
  { unfold elementName. rewrite Hobj2. rewrite lookup_app_r by lia. rewrite Nat.sub_diag.
    rewrite Hn1. reflexivity. }
  assert (Hold : elementName w2 (length (objects w)) = Some (componentName base index)).
  { unfold elementName. rewrite Hobj2.
    rewrite lookup_app_l by (rewrite Hobj, length_app; cbn; lia). exact Hname. }
  split; [exact Hfresh|]. split; [exact Hold|].
  rewrite Hfresh, Hold. intros [= E]. apply componentName_inj in E.
  rewrite (addOne_small index Hindex) in E. clear - E. lia.
Qed.

(** The scenario of X16: state puts an element of index 5 in a new group,
    whose counter goes to 6. *)
Lemma addChildElement_keeps_counter_ahead_witness :
  exists e w1,
    addChildElement debugEnv 5 particleGroup = (Ok e, w1) /\
    elementName w1 e = Some "particle_5" /\
    _array (self w1) = [e] /\
    groupElementIndex (self w1) = 6 /\
    (isSettingPhetioState debugEnv = false ->
     exists fresh w2,
       createNextElement debugEnv w1 = (Ok fresh, w2) /\
       elementName w2 fresh = Some (componentName "particle" (groupElementIndex (self w1))) /\
       elementName w2 e = Some "particle_5" /\
       elementName w2 fresh <> elementName w2 e).
Proof.
  exact (addChildElement_keeps_counter_ahead debugEnv particleGroup 5
           (conj eq_refl (conj elementChildren_group (fun _ => eq_refl))) eq_refl eq_refl).
Defined.

End GroupFacts.

(** ** Capsules *)
Module CapsuleFacts.
Import Containers ContainersFacts ContainerScenarios.
Local Open Scope m_scope.

(** X17: [getElement] makes the element on first use and hands back the same one
    afterwards: on an instrumented capsule that holds nothing and notifies at
    once, and where the tandem of the element can be made (see
    [canCreateTandem]), the first call creates one element, named after the
    capsule, and notifies its creation once; a second call returns that
    element and changes nothing. *)
Theorem getElement_creates_once env (w : CapsuleWorld) :
  instrumented (capsuleFields (self w)) = true ->
  notificationsDeferred (capsuleFields (self w)) = false ->
  element (self w) = None ->
  canCreateTandem env (tandemChildren w)
    (phetioDynamicElementName (capsuleFields (self w))) = true ->
  exists e w1,
    getElement env w = (Ok (Some e), w1) /\
    objects w !! e = None /\
    objects w1 !! e =
      Some (mkElement (phetioDynamicElementName (capsuleFields (self w))) false) /\
    notified w1 = notified w ++ [ElementCreated e] /\
    getElement env w1 = (Ok (Some e), w1).
Proof.
  intros Hi Hdef Hnone Hcan.
  destruct (create_spec env false w Hi Hcan)
    as (w1 & Hrun & Hel & Hobj & _ & _ & _ & _ & Hem).
  exists (length (objects w)), w1.
  split; [exact (getElement_empty env w w1 _ Hnone Hrun Hel)|].
  split; [apply lookup_ge_None_2; lia|].
  split; [rewrite Hobj, lookup_app_r by lia; rewrite Nat.sub_diag; reflexivity|].
  split; [exact (Hem Hdef)|].
  exact (getElement_held env w1 _ Hel).
Qed.

(** The scenario of X17: the capsule on the tandem "dialogCapsule". *)
Lemma getElement_creates_once_witness :
  exists e w1,
    getElement debugEnv dialogCapsule = (Ok (Some e), w1) /\
    objects dialogCapsule !! e = None /\
    objects w1 !! e = Some (mkElement "dialog" false) /\
    notified w1 = notified dialogCapsule ++ [ElementCreated e] /\
    getElement debugEnv w1 = (Ok (Some e), w1).
Proof.
  exact (getElement_creates_once debugEnv dialogCapsule eq_refl eq_refl eq_refl eq_refl).
Defined.

(** X18: On a capsule that holds no element, [clear] does nothing, while
    [disposeElement] fails in every build (an assertion where assertions are
    enabled, the call on [null] otherwise) and leaves the capsule as it was. *)
Theorem empty_capsule_clear_and_dispose env (w : CapsuleWorld) fromStateSetting :
  element (self w) = None ->
  clearCapsule env fromStateSetting w = (Ok tt, w) /\
  exists e,
    disposeCapsuleElement env fromStateSetting w = (Throw e, w) /\
    (assertEnabled env = true -> e = AssertionError "cannot dispose if element is not defined").
Proof.
  intros Hnone. split.
  - exact (clearCapsule_empty env fromStateSetting w Hnone).
  - exact (disposeCapsuleElement_empty env fromStateSetting w Hnone).
Qed.

(** The scenario of X18: the capsule on the tandem "dialogCapsule", before any
    element is made. *)
Lemma empty_capsule_clear_and_dispose_witness :
  clearCapsule debugEnv false dialogCapsule = (Ok tt, dialogCapsule) /\
  exists e,
    disposeCapsuleElement debugEnv false dialogCapsule = (Throw e, dialogCapsule) /\
    (assertEnabled debugEnv = true -> e = AssertionError "cannot dispose if element is not defined").
Proof.
  exact (empty_capsule_clear_and_dispose debugEnv dialogCapsule false eq_refl).
Defined.




End CapsuleFacts.

(** ** Container names *)
Module ContainerNameFacts.
Import Containers ContainersFacts StringFacts.
Local Open Scope m_scope.

Lemma baseFields_strips_suffix isInstrumented base suffix :
  baseFields isInstrumented (base +:+ suffix) suffix =
    mkFields isInstrumented true base None false [] [].
Proof.
  unfold baseFields. rewrite length_append.
  replace (String.length suffix <=? String.length base + String.length suffix) with true
    by (symmetry; apply Nat.leb_le; lia).
  replace (String.length base + String.length suffix - String.length suffix)
    with (String.length base) by lia.
  rewrite substring_prefix. reflexivity.
Qed.

(** X20: A group on a tandem named [base ++ "Group"] that has no children is
    constructed in every build, starts out empty with its count at 0, and
    names its elements [base_0], [base_1], ...; a capsule on
    [base ++ "Capsule"] names its element [base]. An archetype is made only
    while the sim is being constructed, where PhET-iO is enabled and
    archetypes are asked for, and it is not an element of the group. The
    first element is made where its name can be used: for the group, where
    assertions are enabled, if every character of [base] is a letter, a
    digit or an underscore; for the capsule, if [base] is neither
    "archetype" nor "hasOwnProperty" and, where assertions are enabled, is
    a term of a DynamicTandem other than [Tandem.METADATA_KEY]. *)
Theorem containers_name_elements_after_their_tandem env base :
  exists (g : GroupWorld) (k : CapsuleWorld),
    newPhetioGroup env true (base +:+ "Group") = Ok g /\
    newPhetioCapsule env true (base +:+ "Capsule") = Ok k /\
    _array (self g) = [] /\ countProperty (self g) = 0 /\ element (self k) = None /\
    length (objects g) =
      (if negb (isConstructionComplete env) && (PHET_IO_ENABLED env && createArchetypes env)
       then 1 else 0) /\
    isSome (archetype (groupFields (self g))) =
      negb (isConstructionComplete env) && (PHET_IO_ENABLED env && createArchetypes env) /\
    (isSettingPhetioState env = false ->
     (assertEnabled env = true ->
      forallb (Tandem.termChar Tandem.DynamicTandem) (String.list_ascii_of_string base) = true) ->
     exists e g',
       createNextElement env g = (Ok e, g') /\
       elementName g' e = Some (componentName base 0)) /\
    (elementNameOK env base = true ->
     exists e' k',
       create env false k = (Ok e', k') /\
       (tandemName <$> objects k' !! e') = Some base).
Proof.
  destruct (newPhetioGroup_succeeds env true (base +:+ "Group") (endsWith_append _ _))
    as (g & Hg).
  destruct (newPhetioCapsule_succeeds env true (base +:+ "Capsule") (endsWith_append _ _))
    as (k & Hk).
  destruct (newPhetioGroup_fresh _ _ _ _ Hg)
    as (Harr & Hidx & Hcnt & Hins & _ & _ & _ & _ & Hch & Hname & Hlen & Harch).
  destruct (newPhetioCapsule_fresh _ _ _ _ Hk) as (Hel & _ & Hins' & Hdef' & Hch' & Hname').
  rewrite baseFields_strips_suffix in Hname, Hname'. cbn [phetioDynamicElementName] in Hname, Hname'.
  exists g, k. split; [exact Hg|]. split; [exact Hk|]. split; [exact Harr|].
  split; [exact Hcnt|]. split; [exact Hel|]. split; [exact Hlen|]. split; [exact Harch|].
  split.
  - intros Hs Hbase.
    destruct (createNextElement_spec env g) as (g' & Hrun & _ & Hobj & _).
    { split; [exact Hins|]. split; [exact Hch|]. rewrite Hname. exact Hbase. }
    { exact Hs. }
    exists (length (objects g)), g'. split; [exact Hrun|].
    unfold elementName. rewrite Hobj, lookup_app_r by lia. rewrite Nat.sub_diag. cbn.
    rewrite Hname, Hidx. reflexivity.
  - intros Hok.
    destruct (create_spec env false k Hins') as (k' & Hrun & _ & Hobj & _).
    { apply canCreateTandem_elementChildren; [exact Hch'|]. rewrite Hname'. exact Hok. }
    exists (length (objects k)), k'. split; [exact Hrun|].
    rewrite Hobj, lookup_app_r by lia. rewrite Nat.sub_diag. cbn. rewrite Hname'. reflexivity.
Qed.

End ContainerNameFacts.

(** ** Serialization and validation of state *)
Module SerializationFacts.
Import IOTypes Serialization IOTypesFacts.
Local Open Scope js_scope.

Lemma isStateObjectValid_unfold env n sup v sch ownTo ownFrom stateObject toAssert pk vk :
  isStateObjectValid env (mkIOType n sup v sch ownTo ownFrom) stateObject toAssert pk vk =
    (checked <-
        match sch with
        | Some (CompositeSchema publicLevel privateLevel) =>
            level1 <- checkLevel env toAssert publicLevel stateObject (Some "_private") None pk ;;
            match privateLevel with
            | Some privateSchema =>
                privateObject <- getProp stateObject "_private" ;;
                level2 <- checkLevel env toAssert privateSchema privateObject None (fst level1) vk ;;
                Ok (fst level2, snd level1, snd level2)
            | None => Ok (fst level1, snd level1, vk)
            end
        | Some (ValueSchema _ valueValidator) =>
            (if toAssert
             then validate env stateObject valueValidator "validation failed"
             else Ok tt) ;;;
            Ok (Some (valueValidator stateObject), pk, vk)
        | None => Ok (None, pk, vk)
        end ;;
      match checked with
      | (Some validSoFar, _, _) => Ok validSoFar
      | (None, publicKeys, privateKeys) =>
          match sup with
          | Some super =>
              if negb (match sch with Some (CompositeSchema _ _) => true | _ => false end)
              then isStateObjectValid env super stateObject toAssert publicKeys privateKeys
              else Ok true
          | None =>
              if truthy stateObject && negb (isString stateObject) && negb (isArray stateObject)
              then rootCheck env stateObject toAssert publicKeys privateKeys
              else Ok true
          end
      end).
Proof. reflexivity. Qed.


Lemma supertype_induction (P : IOType -> Prop) :
  (forall t, (forall super, supertype t = Some super -> P super) -> P t) ->
  forall t, P t.
Proof.
  intros Hstep t.
  assert (H : forall n t, length (getTypeHierarchy t) <= n -> P t).
  { induction n as [|n IH]; intros t0 Hlen.
    - destruct t0; cbn in Hlen; lia.
    - apply Hstep. intros super Hsuper. apply IH.
      destruct t0 as [? sup ? ? ? ?]. cbn in Hsuper. subst sup. cbn in Hlen. lia. }
  exact (H _ t (le_n _)).
Qed.

Lemma jsAssert_true env msg : jsAssert env true msg = Ok tt.
Proof. unfold jsAssert. rewrite andb_false_r. reflexivity. Qed.

Lemma jsAssert_Ok_inv env cond msg u :
  jsAssert env cond msg = Ok u -> assertEnabled env = true -> cond = true.
Proof. unfold jsAssert. intros H Ha. rewrite Ha in H. destruct cond; [reflexivity|discriminate]. Qed.

Lemma bindR_Ok_inv {A B} (r : result A) (k : A -> result B) b :
  bindR r k = Ok b -> exists a, r = Ok a /\ k a = Ok b.
Proof. destruct r; cbn; [eauto|discriminate]. Qed.

(** With [toAssert] set and assertions enabled, [checkLevel] that comes back
    has met no missing key. *)
Lemma checkLevel_asserting env schema objectLevel exclude : forall valid keyList r,
  assertEnabled env = true ->
  checkLevel env true schema objectLevel exclude valid keyList = Ok r ->
  fst r = valid.
Proof.
  induction schema as [|[key fieldType] rest IH]; intros valid keyList r Ha H; cbn in H.
  - injection H as <-. reflexivity.
  - destruct (match exclude with Some k => String.eqb key k | None => false end); [eauto|].
    apply bindR_Ok_inv in H as (validKey & _ & H).
    apply bindR_Ok_inv in H as (u & Hassert & H).
    apply jsAssert_Ok_inv in Hassert; [|exact Ha]. cbn in Hassert. subst validKey.
    apply bindR_Ok_inv in H as (fieldValue & _ & H).
    apply bindR_Ok_inv in H as (b & _ & H).
    eauto.
Qed.

(** [toAssert] only adds failures: what [checkLevel] returns with it, it
    returns without it. *)
Lemma checkLevel_without_assert env schema objectLevel exclude : forall valid keyList r,
  checkLevel env true schema objectLevel exclude valid keyList = Ok r ->
  checkLevel env false schema objectLevel exclude valid keyList = Ok r.
Proof.
  induction schema as [|[key fieldType] rest IH]; intros valid keyList r H; cbn in H |- *.
  - exact H.
  - destruct (match exclude with Some k => String.eqb key k | None => false end); [eauto|].
    apply bindR_Ok_inv in H as (validKey & -> & H). cbn [bindR].
    apply bindR_Ok_inv in H as (u & _ & H).
    cbn [negb orb]. rewrite jsAssert_true. cbn [bindR].
    apply bindR_Ok_inv in H as (fieldValue & -> & H). cbn [bindR].
    apply bindR_Ok_inv in H as (b & -> & H). cbn [bindR].
    eauto.
Qed.

Lemma checkKeys_asserting env schemaKeys keys : forall valid b,
  assertEnabled env = true ->
  checkKeys env true schemaKeys keys valid = Ok b -> b = valid.
Proof.
  induction keys as [|key rest IH]; intros valid b Ha H; cbn in H.
  - congruence.
  - apply bindR_Ok_inv in H as (u & Hassert & H).
    apply jsAssert_Ok_inv in Hassert; [|exact Ha]. cbn in Hassert.
    apply IH in H; [|exact Ha]. rewrite Hassert, andb_true_r in H. exact H.
Qed.

Lemma checkKeys_without_assert env schemaKeys keys : forall valid b,
  checkKeys env true schemaKeys keys valid = Ok b ->
  checkKeys env false schemaKeys keys valid = Ok b.
Proof.
  induction keys as [|key rest IH]; intros valid b H; cbn in H |- *.
  - exact H.
  - apply bindR_Ok_inv in H as (u & _ & H). cbn [negb orb]. rewrite jsAssert_true. cbn [bindR].
    eauto.
Qed.

Lemma rootCheck_asserting env stateObject pk vk b :
  assertEnabled env = true ->
  rootCheck env stateObject true pk vk = Ok b -> b = true.
Proof.
  intros Ha H. unfold rootCheck in H.
  apply bindR_Ok_inv in H as (keys & _ & H).
  apply bindR_Ok_inv in H as (valid & Hvalid & H).
  apply checkKeys_asserting in Hvalid; [|exact Ha]. subst valid.
  apply bindR_Ok_inv in H as (privateObject & _ & H).
  destruct (truthy privateObject); [|congruence].
  apply bindR_Ok_inv in H as (privateKeys & _ & H).
  apply checkKeys_asserting in H; [|exact Ha]. exact H.
Qed.

Lemma rootCheck_without_assert env stateObject pk vk b :
  rootCheck env stateObject true pk vk = Ok b ->
  rootCheck env stateObject false pk vk = Ok b.
Proof.
  intros H. unfold rootCheck in *.
  apply bindR_Ok_inv in H as (keys & -> & H). cbn [bindR].
  apply bindR_Ok_inv in H as (valid & Hvalid & H).
  rewrite (checkKeys_without_assert _ _ _ _ _ Hvalid). cbn [bindR].
  apply bindR_Ok_inv in H as (privateObject & -> & H). cbn [bindR].
  destruct (truthy privateObject); [|exact H].
  apply bindR_Ok_inv in H as (privateKeys & -> & H). cbn [bindR].
  apply checkKeys_without_assert. exact H.
Qed.

Lemma isStateObjectValid_asserting env t : forall stateObject pk vk b,
  assertEnabled env = true ->
  isStateObjectValid env t stateObject true pk vk = Ok b -> b = true.
Proof.
  induction t as [t IH] using supertype_induction. intros stateObject pk vk b Ha H.
  destruct t as [n sup v sch ownTo ownFrom]. rewrite isStateObjectValid_unfold in H.
  apply bindR_Ok_inv in H as (checked & Hchecked & H).
  destruct sch as [[display valueValidator|publicLevel privateLevel]|].
  - apply bindR_Ok_inv in Hchecked as (u & Hvalidate & Hchecked).
    injection Hchecked as <-. injection H as <-.
    unfold validate in Hvalidate. eapply jsAssert_Ok_inv; eauto.
  - apply bindR_Ok_inv in Hchecked as (level1 & H1 & Hchecked).
    apply checkLevel_asserting in H1; [|exact Ha].
    assert (Hnone : fst (fst checked) = None).
    { destruct privateLevel as [privateSchema|].
      - apply bindR_Ok_inv in Hchecked as (privateObject & _ & Hchecked).
        apply bindR_Ok_inv in Hchecked as (level2 & H2 & Hchecked).
        apply checkLevel_asserting in H2; [|exact Ha].
        injection Hchecked as <-. cbn. congruence.
      - injection Hchecked as <-. cbn. exact H1. }
    destruct checked as [[valid publicKeys] privateKeys]. cbn in Hnone. subst valid.
    destruct sup as [super|].
    + cbn in H. congruence.
    + destruct (truthy stateObject && negb (isString stateObject) && negb (isArray stateObject));
        [|congruence].
      eapply rootCheck_asserting; eauto.
  - injection Hchecked as <-.
    destruct sup as [super|].
    + cbn [negb] in H. eapply (IH super eq_refl); eauto.
    + destruct (truthy stateObject && negb (isString stateObject) && negb (isArray stateObject));
        [|congruence].
      eapply rootCheck_asserting; eauto.
Qed.

Lemma isStateObjectValid_without_assert env t : forall stateObject pk vk b,
  isStateObjectValid env t stateObject true pk vk = Ok b ->
  isStateObjectValid env t stateObject false pk vk = Ok b.
Proof.
  induction t as [t IH] using supertype_induction. intros stateObject pk vk b H.
  destruct t as [n sup v sch ownTo ownFrom]. rewrite isStateObjectValid_unfold in H |- *.
  apply bindR_Ok_inv in H as (checked & Hchecked & H).
  destruct sch as [[display valueValidator|publicLevel privateLevel]|].
  - apply bindR_Ok_inv in Hchecked as (u & _ & Hchecked).
    injection Hchecked as <-. cbn [bindR]. exact H.
  - apply bindR_Ok_inv in Hchecked as (level1 & H1 & Hchecked).
    rewrite (checkLevel_without_assert _ _ _ _ _ _ _ H1). cbn [bindR].
    assert (Hsame : match privateLevel with
                    | Some privateSchema =>
                        privateObject <- getProp stateObject "_private" ;;
                        level2 <- checkLevel env false privateSchema privateObject None (fst level1) vk ;;
                        Ok (fst level2, snd level1, snd level2)
                    | None => Ok (fst level1, snd level1, vk)
                    end = Ok checked).
    { destruct privateLevel as [privateSchema|]; [|exact Hchecked].
      apply bindR_Ok_inv in Hchecked as (privateObject & -> & Hchecked). cbn [bindR].
      apply bindR_Ok_inv in Hchecked as (level2 & H2 & Hchecked).
      rewrite (checkLevel_without_assert _ _ _ _ _ _ _ H2). exact Hchecked. }
    rewrite Hsame. cbn [bindR].
    destruct checked as [[[validSoFar|] publicKeys] privateKeys]; [exact H|].
    destruct sup as [super|]; [exact H|].
    destruct (truthy stateObject && negb (isString stateObject) && negb (isArray stateObject));
      [|exact H].
    apply rootCheck_without_assert. exact H.
  - injection Hchecked as <-. cbn [bindR].
    destruct sup as [super|].
    + cbn [negb] in H |- *. apply (IH super eq_refl). exact H.
    + destruct (truthy stateObject && negb (isString stateObject) && negb (isArray stateObject));
        [|exact H].
      apply rootCheck_without_assert. exact H.
Qed.

(** X21: What [validateStateObject] lets through with assertions enabled,
    [isStateObjectValid] calls valid: for every IO Type and every state
    object. *)
Theorem validated_state_is_valid env t stateObject :
  assertEnabled env = true ->
  validateStateObject env t stateObject = Ok tt ->
  isStateObjectValid env t stateObject false [] [] = Ok true.
Proof.
  intros Ha H. unfold validateStateObject in H.
  apply bindR_Ok_inv in H as (b & Hb & _).
  pose proof (isStateObjectValid_asserting env t _ _ _ _ Ha Hb) as ->.
  apply isStateObjectValid_without_assert. exact Hb.
Qed.

Lemma toStateObject_unfold env n sup v sch ownTo ownFrom coreObject :
  toStateObject env (mkIOType n sup v sch ownTo ownFrom) coreObject =
    (validate env coreObject v "unexpected parameter to toStateObject" ;;;
     stateObject <-
       match ownTo, sch with
       | None, Some (CompositeSchema publicLevel privateLevel) =>
           publicState <- toStateObjectForSchemaLevel env coreObject publicLevel ;;
           match privateLevel with
           | Some privateSchema =>
               privateState <- toStateObjectForSchemaLevel env coreObject privateSchema ;;
               Ok (VObj (publicState ++ [("_private", VObj privateState)]))
           | None => Ok (VObj publicState)
           end
       | Some configToStateObject, _ => configToStateObject env coreObject
       | None, _ =>
           match sup with
           | Some super => toStateObject env super coreObject
           | None => Throw (TypeError "config.toStateObject is not a function")
           end
       end ;;
     (if (isSome ownTo || isSome sch) && assertEnabled env
      then isStateObjectValid env (mkIOType n sup v sch ownTo ownFrom) stateObject true [] [] ;;; Ok tt
      else Ok tt) ;;;
     Ok stateObject).
Proof. reflexivity. Qed.

(** X22: With assertions enabled, what the [toStateObject] of a type returns is
    valid state for the type, for every type that gives a [toStateObject] or
    a [stateSchema] of its own. *)
Theorem serialized_state_is_valid env t coreObject stateObject :
  assertEnabled env = true ->
  isSome (ownToStateObject t) || isSome (stateSchema t) = true ->
  toStateObject env t coreObject = Ok stateObject ->
  isStateObjectValid env t stateObject false [] [] = Ok true.
Proof.
  intros Ha Hown H. destruct t as [n sup v sch ownTo ownFrom]. cbn in Hown.
  rewrite toStateObject_unfold in H.
  apply bindR_Ok_inv in H as (u & _ & H).
  apply bindR_Ok_inv in H as (produced & _ & H).
  rewrite Hown, Ha in H. cbn [andb] in H.
  apply bindR_Ok_inv in H as (u' & Hvalid & H). injection H as <-.
  apply bindR_Ok_inv in Hvalid as (b & Hb & _).
  pose proof (isStateObjectValid_asserting env _ _ _ _ _ Ha Hb) as ->.
  apply isStateObjectValid_without_assert. exact Hb.
Qed.

(** The scenario of X22: the core object [{ a: 1, c: true, b: "hi" }] written
    by the type of schema [{ a: NumberIO, b: StringIO }]. *)
Lemma serialized_state_is_valid_witness :
  toStateObject debugEnv ABIO coreABC = Ok stateAB /\
  isStateObjectValid debugEnv ABIO stateAB false [] [] = Ok true.
Proof.
  assert (H : toStateObject debugEnv ABIO coreABC = Ok stateAB) by reflexivity.
  split; [exact H|].
  exact (serialized_state_is_valid debugEnv ABIO coreABC stateAB eq_refl eq_refl H).
Defined.

(** The scenario of X21: the state [{ a: 1, b: "hi" }] for the schema [{ a:
    NumberIO, b: StringIO }]. *)
Lemma validated_state_is_valid_witness :
  validateStateObject debugEnv ABIO stateAB = Ok tt /\
  isStateObjectValid debugEnv ABIO stateAB false [] [] = Ok true.
Proof.
  assert (H : validateStateObject debugEnv ABIO stateAB = Ok tt) by reflexivity.
  split; [exact H|].
  exact (validated_state_is_valid debugEnv ABIO stateAB eq_refl H).
Defined.

Lemma toStateObjectForSchemaLevel_keys env coreObject schemaLevel : forall props,
  toStateObjectForSchemaLevel env coreObject schemaLevel = Ok props ->
  Forall2 (fun field prop =>
             fst prop = fst field /\
             exists fieldValue, getProp coreObject (fst field) = Ok fieldValue /\
                                toStateObject env (snd field) fieldValue = Ok (snd prop))
          schemaLevel props.
Proof.
  induction schemaLevel as [|[stateKey fieldType] rest IH]; intros props H; cbn in H.
  - injection H as <-. constructor.
  - apply bindR_Ok_inv in H as (u & _ & H).
    apply bindR_Ok_inv in H as (fieldValue & Hget & H).
    apply bindR_Ok_inv in H as (fieldState & Hfield & H).
    apply bindR_Ok_inv in H as (others & Hothers & H). injection H as <-.
    constructor; [|eauto]. cbn. eauto.
Qed.

(** X23: The default serialization of a type that declares a composite schema
    and no [toStateObject]: the state object has one entry per key of the
    schema, in the order of the schema, each the serialization of the core
    object's property of that name by the IO Type the schema gives the key;
    properties of the core object that the schema does not name are left
    out. *)
Theorem default_serialization_follows_schema env n sup v publicLevel ownFrom coreObject stateObject :
  toStateObject env (mkIOType n sup v (Some (CompositeSchema publicLevel None)) None ownFrom)
    coreObject = Ok stateObject ->
  exists props,
    stateObject = VObj props /\
    map fst props = map fst publicLevel /\
    Forall2 (fun field prop =>
               exists fieldValue, getProp coreObject (fst field) = Ok fieldValue /\
                                  toStateObject env (snd field) fieldValue = Ok (snd prop))
            publicLevel props.
Proof.
  intros H. rewrite toStateObject_unfold in H.
  apply bindR_Ok_inv in H as (u & _ & H).
  apply bindR_Ok_inv in H as (produced & Hproduced & H).
  apply bindR_Ok_inv in H as (u' & _ & H). injection H as <-.
  apply bindR_Ok_inv in Hproduced as (props & Hprops & Hproduced). injection Hproduced as <-.
  apply toStateObjectForSchemaLevel_keys in Hprops.
  exists props. split; [reflexivity|]. split.
  - induction Hprops as [|field prop fields props' [Hkey _] _ IH]; [reflexivity|].
    cbn. f_equal; assumption.
  - eapply Forall2_impl; [exact Hprops|]. intros field prop [_ Hfield]. exact Hfield.
Qed.

(** The scenario of X23: the core object [{ a: 1, c: true, b: "hi" }] is
    written as [{ a: 1, b: "hi" }]. *)
Lemma default_serialization_follows_schema_witness :
  exists props,
    stateAB = VObj props /\
    map fst props = ["a"; "b"] /\
    Forall2 (fun field prop =>
               exists fieldValue, getProp coreABC (fst field) = Ok fieldValue /\
                                  toStateObject debugEnv (snd field) fieldValue = Ok (snd prop))
            [("a", NumberIO.NumberIO); ("b", StringIO)] props.
Proof.
  exact (default_serialization_follows_schema debugEnv "ABIO" (Some ObjectIO) (fun _ => true)
           [("a", NumberIO.NumberIO); ("b", StringIO)] None coreABC stateAB eq_refl).
Defined.

Lemma assocGet_app {A} key (props extra : list (string * A)) :
  assocGet key extra = None -> assocGet key (props ++ extra) = assocGet key props.
Proof.
  intros Hextra. induction props as [|[k v] props IH]; cbn; [exact Hextra|].
  destruct (String.eqb key k); [reflexivity|exact IH].
Qed.

Lemma checkLevel_ignores_undeclared env toAssert schema props extra exclude :
  forall valid keyList,
  (forall key, In key (map fst schema) -> assocGet key extra = None) ->
  assocGet "hasOwnProperty" extra = None ->
  checkLevel env toAssert schema (VObj (props ++ extra)) exclude valid keyList =
  checkLevel env toAssert schema (VObj props) exclude valid keyList.
Proof.
  induction schema as [|[key fieldType] rest IH]; intros valid keyList Hextra Hown; [reflexivity|].
  cbn [checkLevel].
  assert (Hrest : forall k, In k (map fst rest) -> assocGet k extra = None)
    by (intros k Hk; apply Hextra; right; exact Hk).
  destruct (match exclude with Some k => String.eqb key k | None => false end);
    [apply IH; [exact Hrest|exact Hown]|].
  cbn [hasOwnProperty getProp]. unfold assocHas.
  rewrite (assocGet_app "hasOwnProperty" props extra Hown).
  rewrite (assocGet_app key props extra) by (apply Hextra; left; reflexivity).
  destruct (assocGet "hasOwnProperty" props); [reflexivity|]. cbn [bindR].
  destruct (jsAssert env _ _); [|reflexivity]. cbn [bindR].
  destruct (isStateObjectValid env fieldType _ true [] []); [|reflexivity]. cbn [bindR].
  apply IH; [exact Hrest|exact Hown].
Qed.

(** X24: For a type that has a supertype and declares a composite schema, the
    entries of a state object under keys that the schema does not declare
    have no effect on [isStateObjectValid]: the answer, or the error, is the
    one for the object without them. The key "hasOwnProperty" is set apart
    with "_private": an own property of that name replaces the method the
    check calls on the state object. *)
Theorem undeclared_keys_do_not_matter env n super v publicLevel privateLevel ownTo ownFrom
    props extra toAssert pk vk :
  (forall key, In key (map fst publicLevel) -> assocGet key extra = None) ->
  assocGet "_private" extra = None ->
  assocGet "hasOwnProperty" extra = None ->
  isStateObjectValid env
    (mkIOType n (Some super) v (Some (CompositeSchema publicLevel privateLevel)) ownTo ownFrom)
    (VObj (props ++ extra)) toAssert pk vk =
  isStateObjectValid env
    (mkIOType n (Some super) v (Some (CompositeSchema publicLevel privateLevel)) ownTo ownFrom)
    (VObj props) toAssert pk vk.
Proof.
  intros Hextra Hprivate Hown. rewrite !isStateObjectValid_unfold.
  rewrite (checkLevel_ignores_undeclared _ _ _ _ _ _ _ _ Hextra Hown).
  cbn [getProp]. rewrite (assocGet_app "_private" props extra Hprivate). reflexivity.
Qed.

(** The scenario of X24: the state [{ a: 1, b: "hi" }] with and without the
    undeclared key [c]. *)
Lemma undeclared_keys_do_not_matter_witness :
  isStateObjectValid debugEnv ABIO
    (VObj ([("a", VNum 1); ("b", VStr "hi")] ++ [("c", VBool true)])) false [] [] =
  isStateObjectValid debugEnv ABIO (VObj [("a", VNum 1); ("b", VStr "hi")]) false [] [].
Proof.
  apply (undeclared_keys_do_not_matter debugEnv "ABIO" ObjectIO (fun _ => true)
           [("a", NumberIO.NumberIO); ("b", StringIO)] None None None
           [("a", VNum 1); ("b", VStr "hi")] [("c", VBool true)] false [] []).
  - intros key [<-|[<-|[]]]; reflexivity.
  - reflexivity.
  - reflexivity.
Defined.

(** X25: The closed-world check at the root is what a hierarchy without any
    [stateSchema] runs into: when a type made by the constructor gives a
    [toStateObject], no [stateSchema] and no supertype (so that its supertype
    is ObjectIO), and the state it writes is an object with a key other than
    [_private], then with assertions enabled [toStateObject] throws. *)
Theorem schemaless_type_cannot_write_keys env name v serialize ownFrom coreObject key value rest :
  assertEnabled env = true ->
  serialize env coreObject = Ok (VObj ((key, value) :: rest)) ->
  key <> "_private" ->
  isOk (toStateObject env
          (newIOType name (mkConfig None v None (Some serialize) ownFrom)) coreObject) = false.
Proof.
  intros Ha Hser Hkey. unfold newIOType. cbn [configSupertype configValidator configStateSchema
    configToStateObject configFromStateObject default].
  rewrite toStateObject_unfold. rewrite Hser, Ha.
  destruct (validate env coreObject v _); [|reflexivity]. cbn [bindR isSome orb andb].
  rewrite isStateObjectValid_unfold. cbn [bindR negb].
  unfold ObjectIO. rewrite isStateObjectValid_unfold. cbn [bindR truthy isString isArray negb andb].
  unfold rootCheck. cbn [objectKeys bindR map fst].
  assert (Hneq : String.eqb key "_private" = false) by (apply String.eqb_neq; exact Hkey).
  rewrite filter_cons_True by (rewrite Hneq; exact I).
  cbn [checkKeys includes existsb negb orb andb]. unfold jsAssert. rewrite Ha. reflexivity.
Qed.

(** The scenario of X25: a type without schema that writes the object [{ x: 1,
    y: 2 }]. *)
Lemma schemaless_type_cannot_write_keys_witness :
  isOk (toStateObject debugEnv PointIO (VObj [("x", VNum 1); ("y", VNum 2)])) = false.
Proof.
  exact (schemaless_type_cannot_write_keys debugEnv "PointIO" (fun _ => true)
           (fun _ coreObject => Ok coreObject) None
           (VObj [("x", VNum 1); ("y", VNum 2)]) "x" (VNum 1) [("y", VNum 2)]
           eq_refl eq_refl ltac:(discriminate)).
Defined.

(** X26: A type that gives neither [stateSchema] nor serialization methods
    falls back on ObjectIO: reading state gives [null], and without
    assertions writing state gives [null] for every core object. With
    assertions enabled, writing an object that the validator of the type
    accepts throws when the object has no [tandem] (the message of the
    assertion reads [coreObject.tandem.phetioID] before the assertion is
    made) or when it is marked [phetioState], and gives [null] otherwise. *)
Theorem undeclared_serialization_is_null env name v props :
  let t := newIOType name (mkConfig None v None None None) in
  (forall stateObject, fromStateObject t stateObject = Ok VNull) /\
  (assertEnabled env = false -> forall coreObject, toStateObject env t coreObject = Ok VNull) /\
  (assertEnabled env = true -> v (VObj props) = true ->
   match assocGet "tandem" props with
   | None | Some VUndefined | Some VNull => isOk (toStateObject env t (VObj props)) = false
   | Some _ =>
       if truthy (default VUndefined (assocGet "phetioState" props))
       then isOk (toStateObject env t (VObj props)) = false
       else toStateObject env t (VObj props) = Ok VNull
   end).
Proof.
  intros t. split; [reflexivity|]. split.
  - intros Ha coreObject. subst t. unfold newIOType. cbn [configSupertype configValidator
      configStateSchema configToStateObject configFromStateObject default].
    rewrite toStateObject_unfold. unfold validate, jsAssert. rewrite Ha. cbn [andb bindR].
    unfold ObjectIO. rewrite toStateObject_unfold. unfold validate, jsAssert. rewrite Ha.
    cbn. rewrite ?Ha. reflexivity.
  - intros Ha Hv. subst t. unfold newIOType. cbn [configSupertype configValidator
      configStateSchema configToStateObject configFromStateObject default].
    rewrite toStateObject_unfold. unfold validate, jsAssert. rewrite Ha, Hv. cbn [andb negb bindR].
    unfold ObjectIO. rewrite toStateObject_unfold. unfold validate, jsAssert. rewrite Ha.
    cbn. rewrite ?Ha. cbn.
    destruct (assocGet "tandem" props) as [[]|]; cbn;
      destruct (truthy (default VUndefined (assocGet "phetioState" props))); cbn; rewrite ?Ha;
      reflexivity.
Qed.


(** X27: StringIO and BooleanIO give no serialization of their own and take
    ValueIO's: strings and booleans are written and read back as themselves in
    every build, state is valid exactly when it is a string (a boolean), and
    with assertions enabled writing a value of another type throws. *)
Theorem StringIO_and_BooleanIO_pass_values_through :
  (forall env s, toStateObject env StringIO (VStr s) = Ok (VStr s)) /\
  (forall s, fromStateObject StringIO (VStr s) = Ok (VStr s)) /\
  (forall env b, toStateObject env BooleanIO (VBool b) = Ok (VBool b)) /\
  (forall b, fromStateObject BooleanIO (VBool b) = Ok (VBool b)) /\
  (forall env v, isStateObjectValid env StringIO v false [] [] = Ok (isString v)) /\
  (forall env v, isStateObjectValid env BooleanIO v false [] [] = Ok (valueTypeBoolean v)) /\
  (forall env v, assertEnabled env = true -> isString v = false ->
     isOk (toStateObject env StringIO v) = false) /\
  (forall env v, assertEnabled env = true -> valueTypeBoolean v = false ->
     isOk (toStateObject env BooleanIO v) = false).
Proof.
  split; [intros env s; revert env; by_env|].
  split; [reflexivity|].
  split; [intros env b; revert env; by_env|].
  split; [reflexivity|].
  split; [reflexivity|]. split; [reflexivity|].
  split.
  - intros env v Ha Hv. unfold StringIO, newIOType. cbn [configSupertype configValidator
      configStateSchema configToStateObject configFromStateObject default].
    rewrite toStateObject_unfold. unfold validate, jsAssert, valueTypeString. rewrite Ha, Hv.
    reflexivity.
  - intros env v Ha Hv. unfold BooleanIO, newIOType. cbn [configSupertype configValidator
      configStateSchema configToStateObject configFromStateObject default].
    rewrite toStateObject_unfold. unfold validate, jsAssert. rewrite Ha, Hv.
    reflexivity.
Qed.

End SerializationFacts.

(** ** The overrides file *)
Module OverridesFacts.
Import APIValidation APIValidationFacts Overrides.
Local Open Scope m_scope.

Lemma checkMetadataKeys_clean env phetioID baseline override : forall v,
  existsb (keyViolates baseline) override = false ->
  checkMetadataKeys env phetioID baseline override v = (Ok tt, v).
Proof.
  induction override as [|[key val] rest IH]; intros v Hok; [reflexivity|].
  cbn in Hok. apply orb_false_iff in Hok as [Hkey Hrest].
  unfold keyViolates in Hkey. cbn in Hkey. apply orb_false_iff in Hkey as [H1 H2].
  apply negb_false_iff in H1.
  cbn [checkMetadataKeys]. unfold bindM.
  assert (E : checkMetadataKey env phetioID baseline key val v = (Ok tt, v)).
  { api_run. rewrite H1, H2. reflexivity. }
  rewrite E. apply IH. exact Hrest.
Qed.

Lemma checkMetadataKeys_violation env phetioID baseline override : forall v,
  assertEnabled env = true ->
  existsb (keyViolates baseline) override = true ->
  isOk (fst (checkMetadataKeys env phetioID baseline override v)) = false.
Proof.
  induction override as [|[key val] rest IH]; intros v Ha Hbad; [discriminate|].
  cbn in Hbad. cbn [checkMetadataKeys]. unfold bindM.
  destruct (keyViolates baseline (key, val)) eqn:Hkey.
  - unfold keyViolates in Hkey. cbn in Hkey.
    api_run. rewrite Ha. cbn.
    destruct (assocHas key baseline); cbn; [|reflexivity].
    cbn in Hkey. rewrite Hkey. reflexivity.
  - cbn in Hbad.
    assert (E : checkMetadataKey env phetioID baseline key val v = (Ok tt, v)).
    { unfold keyViolates in Hkey. cbn in Hkey. apply orb_false_iff in Hkey as [H1 H2].
      apply negb_false_iff in H1. api_run. rewrite H1, H2. reflexivity. }
    rewrite E. apply IH; assumption.
Qed.

Lemma checkOverride_acceptable env entireBaseline phetioID override v :
  overrideAcceptable env entireBaseline (phetioID, override) = true ->
  checkOverride env entireBaseline phetioID override v = (Ok tt, v).
Proof.
  unfold overrideAcceptable, checkOverride. cbn [fst snd].
  destruct (negb (createArchetypes env) && negb (assocHas phetioID entireBaseline)).
  - intros ->. cbv [assertM liftR jsAssert]. rewrite andb_false_r. reflexivity.
  - destruct (assocGet phetioID entireBaseline) as [baseline|]; [|discriminate].
    intros H. apply andb_prop in H as [Hlen Hkeys].
    apply negb_true_iff in Hlen, Hkeys. rewrite Hlen.
    cbv [when bindM ret]. apply checkMetadataKeys_clean. exact Hkeys.
Qed.

Lemma checkOverride_unacceptable env entireBaseline phetioID override v :
  assertEnabled env = true ->
  overrideAcceptable env entireBaseline (phetioID, override) = false ->
  isOk (fst (checkOverride env entireBaseline phetioID override v)) = false.
Proof.
  intros Ha. unfold overrideAcceptable, checkOverride. cbn [fst snd].
  destruct (negb (createArchetypes env) && negb (assocHas phetioID entireBaseline)).
  - intros ->. cbv [assertM liftR jsAssert]. rewrite Ha. reflexivity.
  - destruct (assocGet phetioID entireBaseline) as [baseline|].
    + intros H. apply andb_false_iff in H as [Hlen|Hkeys].
      * apply negb_false_iff in Hlen. rewrite Hlen.
        cbv [when bindM]. rewrite assertAPIError_run, Ha. reflexivity.
      * apply negb_false_iff in Hkeys.
        destruct (Nat.eqb (length override) 0).
        -- cbv [when bindM]. rewrite assertAPIError_run, Ha. reflexivity.
        -- cbv [when bindM ret]. apply checkMetadataKeys_violation; assumption.
    + intros _. rewrite assertAPIError_run, Ha. reflexivity.
Qed.

(** X28: With assertions enabled, [validateOverridesFile] returns exactly when
    every entry of the overrides is acceptable, and it has then logged
    nothing; otherwise it throws. An entry is acceptable when its phetioID is
    in the baseline and it has at least one metadata key, each of them a key
    of the baseline entry with another value there; or, in a build without
    archetypes, when its phetioID is absent from the baseline and contains
    "archetype". *)
Theorem overrides_pass_iff_all_acceptable env entireBaseline overrides v :
  assertEnabled env = true ->
  if forallb (overrideAcceptable env entireBaseline) overrides
  then validateOverridesFile env entireBaseline overrides v = (Ok tt, v)
  else isOk (fst (validateOverridesFile env entireBaseline overrides v)) = false.
Proof.
  intros Ha. revert v. induction overrides as [|[phetioID override] rest IH]; intros v.
  - reflexivity.
  - cbn [validateOverridesFile forallb]. unfold bindM.
    destruct (overrideAcceptable env entireBaseline (phetioID, override)) eqn:Hentry.
    + rewrite (checkOverride_acceptable _ _ _ _ v Hentry). cbn [andb]. apply IH.
    + pose proof (checkOverride_unacceptable _ _ _ _ v Ha Hentry) as Hthrow.
      destruct (checkOverride env entireBaseline phetioID override v) as [[u|e] v1];
        cbn in Hthrow; [discriminate|]. reflexivity.
Qed.

(** The scenario of X28: an override that changes a metadata value of the
    baseline passes; one that repeats the value of the baseline does not. *)
Lemma overrides_pass_iff_all_acceptable_witness :
  validateOverridesFile debugEnv resistorBaseline changingOverrides (newValidation debugEnv) =
    (Ok tt, newValidation debugEnv) /\
  isOk (fst (validateOverridesFile debugEnv resistorBaseline repeatingOverrides
               (newValidation debugEnv))) = false.
Proof.
  split.
  - exact (overrides_pass_iff_all_acceptable debugEnv resistorBaseline changingOverrides
             (newValidation debugEnv) eq_refl).
  - exact (overrides_pass_iff_all_acceptable debugEnv resistorBaseline repeatingOverrides
             (newValidation debugEnv) eq_refl).
Defined.

End OverridesFacts.
